(** * anumhist: an array of numerical histograms

    A shallow embedding of [src/anumhist.c] (PyClimate).  The C module keeps,
    for [elems] independent variables, one histogram of [nbins] counters in a
    flat buffer of doubles, updates one counter per variable and per trial,
    and turns the counts into probabilities the first time a two-tailed range
    is requested.

    Modelling choices, all read off the source:
    - a C [double] is a primitive binary64 [float]; every arithmetic step of
      the source is the corresponding IEEE operation, and comparisons with a
      NaN are false as in C;
    - a C [int] is a [Z] in the 32-bit signed range; an arithmetic result or a
      conversion from double that leaves the range has no defined result in C
      and is [None] here;
    - [dbuffer] is the flat buffer the source allocates ([elems*nbins]
      doubles), addressed by offset; an access outside it has no defined
      result;
    - the functions exported to Python return an [outcome]: a normal return
      or a raised exception, both with the histogram as the call leaves it,
      or no defined behaviour at all. *)

From Stdlib Require Import ZArith Floats Uint63 Lia Bool Zpower.
From stdpp Require Import base option list strings.

Open Scope Z_scope.

(** ** Machine integers and doubles *)

Definition INT_MIN : Z := -2147483648.
Definition INT_MAX : Z := 2147483647.

Definition fits_int (z : Z) : bool := (INT_MIN <=? z) && (z <=? INT_MAX).

(** The result of a signed [int] operation: undefined on overflow. *)
Definition sint (z : Z) : option Z := if fits_int z then Some z else None.

(** [(double) z] for an [int] [z]: exact, every 32-bit integer is a double. *)
Definition double_of_int (z : Z) : float :=
  if z <? 0 then (- of_uint63 (Uint63.of_Z (- z)))%float
  else of_uint63 (Uint63.of_Z z).

(** [(int) x]: the fractional part is discarded; the conversion is undefined
    when [x] is a NaN, an infinity, or its integral part is not an [int]. *)
Definition double_to_int (x : float) : option Z :=
  match Prim2SF x with
  | S754_zero _ => Some 0
  | S754_finite s m e =>
      let t := Z.shiftl (Z.pos m) e in
      sint (if s then - t else t)
  | _ => None
  end.

Definition two52 : float := 4503599627370496%float.

(** [rint x] of <math.h> in the default rounding mode: the nearest integral
    double, ties to even, computed the way the C library does it (adding and
    subtracting 2^52 rounds away the fraction); doubles of magnitude 2^52 or
    more, infinities and NaN are returned as they are. *)
Definition rint (x : float) : float :=
  if (abs x <? two52)%float then
    let t := (abs x + two52 - two52)%float in
    if get_sign x then (- t)%float else t
  else x.

(** ** The histogram array *)

Record NHArray : Type := mkNHArray {
  xl : float;
  xu : float;
  nbins : Z;
  nbinsm1 : Z;
  deltax : float;
  elems : Z;
  dbuffer : list float;
  normalized : Z
}.

Definition set_dbuffer (nhp : NHArray) (b : list float) : NHArray :=
  mkNHArray (xl nhp) (xu nhp) (nbins nhp) (nbinsm1 nhp) (deltax nhp)
            (elems nhp) b (normalized nhp).

Definition set_normalized (nhp : NHArray) (n : Z) : NHArray :=
  mkNHArray (xl nhp) (xu nhp) (nbins nhp) (nbinsm1 nhp) (deltax nhp)
            (elems nhp) (dbuffer nhp) n.

(** Reading and writing the double at offset [ofs] of a buffer. *)
Definition load (b : list float) (ofs : Z) : option float :=
  if ofs <? 0 then None else b !! Z.to_nat ofs.

Definition store (b : list float) (ofs : Z) (v : float) : option (list float) :=
  if (0 <=? ofs) && (ofs <? Z.of_nat (length b))
  then Some (<[Z.to_nat ofs := v]> b) else None.

(** Exceptions the module raises, and what a call from Python comes to. *)
Inductive PyErr : Type :=
| PyExc_ValueError (msg : string)
| PyExc_MemoryError.

Inductive outcome (A : Type) : Type :=
| Returned (a : A) (nhp : NHArray)
| Raised (e : PyErr) (nhp : NHArray)
| Undefined.
Arguments Returned {A} a nhp.
Arguments Raised {A} e nhp.
Arguments Undefined {A}.

(** [calloc]: a zeroed buffer of [n] doubles; a negative count, read as a
    [size_t], cannot be served. *)
Definition calloc (n : Z) : option (list float) :=
  if n <? 0 then None else Some (replicate (Z.to_nat n) 0%float).

(** [CreateNHArray(xl, xu, nbins, elems)].  [None] stands for undefined
    behaviour (signed overflow), [Some (inr e)] for the exception raised. *)
Definition CreateNHArray (xl0 xu0 : float) (nbins0 elems0 : Z)
  : option (NHArray + PyErr) :=
  m1 ← sint (nbins0 - 1);
  n ← sint (elems0 * nbins0);
  match calloc n with
  | None => Some (inr PyExc_MemoryError)
  | Some b =>
      Some (inl (mkNHArray xl0 xu0 nbins0 m1
                   ((xu0 - xl0) / double_of_int m1)%float elems0 b 0))
  end.

(** [getpdfptr]: the offset in [dbuffer] of the histogram of variable
    [ielems]. *)
Definition getpdfptr (nhp : NHArray) (ielems : Z) : Z := ielems * nbins nhp.

Definition updatevalue (nhp : NHArray) (i : Z) (val : float) : option NHArray :=
  let thepdf := getpdfptr nhp i in
  nbin ← double_to_int (rint ((val - xl nhp) / deltax nhp)%float);
  let nbin := if nbin <? 0 then 0 else nbin in
  let nbin := if nbin >? nbinsm1 nhp then nbinsm1 nhp else nbin in
  c ← load (dbuffer nhp) (thepdf + nbin);
  b ← store (dbuffer nhp) (thepdf + nbin) (c + 1)%float;
  Some (set_dbuffer nhp b).

(** First loop of [normalizepdf]: [for(nbin;nbin<nbins;nbin++) Nx+=thepdf[nbin]]
    with [int Nx]; [n] is the number of iterations left. *)
Fixpoint sum_loop (b : list float) (thepdf : Z) (n : nat) (nbin : Z) (Nx : Z)
  : option Z :=
  match n with
  | O => Some Nx
  | S n' =>
      c ← load b (thepdf + nbin);
      Nx' ← double_to_int (double_of_int Nx + c)%float;
      sum_loop b thepdf n' (nbin + 1) Nx'
  end.

(** Second loop: [thepdf[nbin]=thepdf[nbin]/Nx]. *)
Fixpoint div_loop (b : list float) (thepdf : Z) (n : nat) (nbin : Z) (Nx : Z)
  : option (list float) :=
  match n with
  | O => Some b
  | S n' =>
      c ← load b (thepdf + nbin);
      b' ← store b (thepdf + nbin) (c / double_of_int Nx)%float;
      div_loop b' thepdf n' (nbin + 1) Nx
  end.

Definition normalizepdf (nhp : NHArray) (i : Z) : option NHArray :=
  let thepdf := getpdfptr nhp i in
  Nx ← sum_loop (dbuffer nhp) thepdf (Z.to_nat (nbins nhp)) 0 0;
  b ← div_loop (dbuffer nhp) thepdf (Z.to_nat (nbins nhp)) 0 Nx;
  Some (set_normalized (set_dbuffer nhp b) 1).

(** The loop of [getrange]; [xlo] and [xuo] are the doubles the two output
    pointers refer to, returned as the loop leaves them. *)
Fixpoint getrange_loop (nhp : NHArray) (thepdf : Z) (pl pu : float)
    (n : nat) (nbin : Z) (p : float) (gotlow : bool) (xlo xuo : float)
  : option (float * float) :=
  match n with
  | O => Some (xlo, xuo)
  | S n' =>
      c ← load (dbuffer nhp) (thepdf + nbin);
      let p := (p + c)%float in
      let low := (pl <? p)%float && negb gotlow in
      let xlo := if low
                 then (xl nhp + deltax nhp * double_of_int (nbin - 1))%float
                 else xlo in
      let gotlow := if low then true else gotlow in
      if (pu <? p)%float
      then Some (xlo, (xl nhp + deltax nhp * double_of_int nbin)%float)
      else getrange_loop nhp thepdf pl pu n' (nbin + 1) p gotlow xlo xuo
  end.

Definition getrange (nhp : NHArray) (i : Z) (pl pu : float) (xlo xuo : float)
  : option (float * float) :=
  getrange_loop nhp (getpdfptr nhp i) pl pu (Z.to_nat (nbins nhp)) 0
                0%float false xlo xuo.

(** The array object handed to [UpdateNHArray]: its rank, its shape, and
    the doubles [data + strides[0]*ipt] addresses, in order. *)
Record PyArrayObject : Type := mkPyArray {
  nd : Z;
  dimensions : list Z;
  data : list float
}.

Definition msg_normalized : string :=
  "The histogram array has already been normalized, you can not update it".
Definition msg_linear : string := "Input array must be linear.".
Definition msg_dims : string :=
  "Input array dimensions and NHArray dimensions do not match.".

(** [for(ipt;ipt<elems;ipt++) updatevalue(nhp,ipt,a[ipt])]. *)
Fixpoint update_loop (a : PyArrayObject) (n : nat) (ipt : Z) (nhp : NHArray)
  : option NHArray :=
  match n with
  | O => Some nhp
  | S n' =>
      v ← load (data a) ipt;
      nhp' ← updatevalue nhp ipt v;
      update_loop a n' (ipt + 1) nhp'
  end.

Definition UpdateNHArray (nhp : NHArray) (a : PyArrayObject) : outcome unit :=
  if negb (normalized nhp =? 0)
  then Raised (PyExc_ValueError msg_normalized) nhp
  else if negb (nd a =? 1)
  then Raised (PyExc_ValueError msg_linear) nhp
  else match dimensions a !! 0%nat with
       | None => Undefined
       | Some d =>
           if negb (d =? elems nhp)
           then Raised (PyExc_ValueError msg_dims) nhp
           else match update_loop a (Z.to_nat (elems nhp)) 0 nhp with
                | Some nhp' => Returned tt nhp'
                | None => Undefined
                end
       end.

(** [for(ielem;ielem<elems;ielem++) normalizepdf(nhp,ielem)]. *)
Fixpoint normalize_loop (n : nat) (ielem : Z) (nhp : NHArray) : option NHArray :=
  match n with
  | O => Some nhp
  | S n' =>
      nhp' ← normalizepdf nhp ielem;
      normalize_loop n' (ielem + 1) nhp'
  end.

(** The second loop of [GetXRange]: [xlo], [xuo] are its locals [xl], [xu],
    which every call of [getrange] may or may not overwrite; [rarray] collects
    the rows written so far. *)
Fixpoint range_loop (nhp : NHArray) (pl pu : float) (n : nat) (ielem : Z)
    (xlo xuo : float) (rarray : list (float * float))
  : option (list (float * float)) :=
  match n with
  | O => Some rarray
  | S n' =>
      '(xlo', xuo') ← getrange nhp ielem pl pu xlo xuo;
      range_loop nhp pl pu n' (ielem + 1) xlo' xuo' (rarray ++ [(xlo', xuo')])
  end.

(** [GetXRange(nhp, prob)].  The locals [xl] and [xu] are not initialised in
    the source: [xl0] and [xu0] are the doubles they happen to hold.
    [normalize_once] is its first block, [if (!nhp->normalized) {...}]. *)
Definition normalize_once (nhp : NHArray) : option NHArray :=
  if normalized nhp =? 0
  then nhp' ← normalize_loop (Z.to_nat (elems nhp)) 0 nhp;
       Some (set_normalized nhp' 1)
  else Some nhp.

Definition GetXRange (xl0 xu0 : float) (nhp : NHArray) (prob : float)
  : outcome (list (float * float)) :=
  match normalize_once nhp with
  | None => Undefined
  | Some nhp' =>
      if elems nhp' <? 0 then Undefined else
      let pl := (prob / 2)%float in
      let pu := (1 - pl)%float in
      match range_loop nhp' pl pu (Z.to_nat (elems nhp')) 0 xl0 xu0 [] with
      | Some r => Returned r nhp'
      | None => Undefined
      end
  end.

Definition GetDeltaX (nhp : NHArray) : float := deltax nhp.

(** ** The scenario of the specification *)

Definition one_sample (v : float) : PyArrayObject := mkPyArray 1 [1] [v].

(** [k] calls of [UpdateNHArray] with the same array, stopping at the first
    call that does not return. *)
Fixpoint update_n (k : nat) (a : PyArrayObject) (nhp : NHArray) : option NHArray :=
  match k with
  | O => Some nhp
  | S k' =>
      match UpdateNHArray nhp a with
      | Returned _ nhp' => update_n k' a nhp'
      | _ => None
      end
  end.

(** The histogram array of [create(lower=0, upper=10, binCount=11,
    variableCount=1)] with [x0] in bin 0 and [x5] in bin 5, and the given
    [normalized] flag. *)
Definition scenario_hist (x0 x5 : float) (flag : Z) : NHArray :=
  mkNHArray 0 10 11 10 1 1 [x0; 0; 0; 0; 0; x5; 0; 0; 0; 0; 0]%float flag.

(** The tail probability 0.2, as the nearest double. *)
Definition p02 : float := 0x1.999999999999ap-3%float.

(** A histogram array over [1e18, 1e18 + 128] with 11 bins: the bin width,
    12.8, is less than half the spacing of the doubles around [1e18]. *)
Definition narrow_hist (x0 : float) (flag : Z) : NHArray :=
  mkNHArray 1e18 (1e18 + 128) 11 10 ((1e18 + 128 - 1e18) / 10) 1
            [x0; 0; 0; 0; 0; 0; 0; 0; 0; 0; 0]%float flag.

(** The calls of [UpdateNHArray] with the arrays of [l], in order, stopping
    at the first call that does not return. *)
Fixpoint update_all (l : list PyArrayObject) (nhp : NHArray) : option NHArray :=
  match l with
  | [] => Some nhp
  | a :: l' =>
      match UpdateNHArray nhp a with
      | Returned _ nhp' => update_all l' nhp'
      | _ => None
      end
  end.

(** Two variables over [0, 10] with 11 bins: variable 0 has [a] in bin 5,
    variable 1 has [b] in each of the bins 0 to 9. *)
Definition two_hist (a b : float) (flag : Z) : NHArray :=
  mkNHArray 0 10 11 10 1 2
    ([0; 0; 0; 0; 0; a; 0; 0; 0; 0; 0] ++ [b; b; b; b; b; b; b; b; b; b; 0])%float
    flag.

Definition two_samples (v w : float) : PyArrayObject := mkPyArray 1 [2] [v; w].

(** ** Rows, running mass and crossings

    The vocabulary of the statements below: the histogram of one variable as
    a list, the running mass of a left-to-right scan, and the first bin at
    which the running mass exceeds a threshold. *)

(** A histogram array as [CreateNHArray] makes it: [nbinsm1] is [nbins - 1]
    and the buffer is the block of [elems * nbins] doubles. *)
Definition wf (nhp : NHArray) : Prop :=
  0 <= nbins nhp /\ 0 <= elems nhp /\
  nbinsm1 nhp = nbins nhp - 1 /\
  Z.of_nat (length (dbuffer nhp)) = elems nhp * nbins nhp.

(** The histogram of variable [i]: bins [0 .. nbins-1]. *)
Definition row (nhp : NHArray) (i : Z) : list float :=
  take (Z.to_nat (nbins nhp)) (drop (Z.to_nat (getpdfptr nhp i)) (dbuffer nhp)).

(** [reads b ofs r]: the doubles at offsets [ofs], [ofs+1], ... of [b] are
    those of [r]. *)
Definition reads (b : list float) (ofs : Z) (r : list float) : Prop :=
  forall (j : nat) (c : float), r !! j = Some c -> load b (ofs + Z.of_nat j) = Some c.

(** Running mass: the value of [p] after each bin of [r], starting from [p]. *)
Fixpoint running (p : float) (r : list float) : list float :=
  match r with
  | [] => []
  | c :: r' => (p + c)%float :: running (p + c)%float r'
  end.

(** The first bin of [r] at which the running mass, started at [p], exceeds
    the threshold [t]. *)
Fixpoint first_above (t : float) (r : list float) (p : float) : option nat :=
  match r with
  | [] => None
  | c :: r' =>
      if (t <? p + c)%float then Some 0%nat
      else S <$> first_above t r' (p + c)%float
  end.

(** The bound [x0 + dx * nbin] that [getrange] computes for bin [nbin], with
    [x0] the lower edge and [dx] the bin width. *)
Definition bound_at (x0 dx : float) (nbin : Z) : float :=
  (x0 + dx * double_of_int nbin)%float.

(** The scan of [getrange] over a row given as a list. *)
Fixpoint scan (x0 dx : float) (pl pu : float) (r : list float)
    (nbin : Z) (p : float) (gotlow : bool) (xlo xuo : float) : float * float :=
  match r with
  | [] => (xlo, xuo)
  | c :: r' =>
      let p := (p + c)%float in
      let low := (pl <? p)%float && negb gotlow in
      let xlo := if low then bound_at x0 dx (nbin - 1) else xlo in
      let gotlow := if low then true else gotlow in
      if (pu <? p)%float then (xlo, bound_at x0 dx nbin)
      else scan x0 dx pl pu r' (nbin + 1) p gotlow xlo xuo
  end.

(** The bins a scan with upper threshold [pu] reads: up to and including the
    first one whose running mass exceeds [pu], or all of them. *)
Definition scanned (pu : float) (r : list float) (p : float) : list float :=
  match first_above pu r p with
  | Some k => take (S k) r
  | None => r
  end.

(** What [normalizepdf] keeps: everything but the buffer contents and the
    flag. *)
Definition same_shape (nhp nhp' : NHArray) : Prop :=
  xl nhp' = xl nhp /\ xu nhp' = xu nhp /\ nbins nhp' = nbins nhp /\
  nbinsm1 nhp' = nbinsm1 nhp /\ deltax nhp' = deltax nhp /\
  elems nhp' = elems nhp /\ length (dbuffer nhp') = length (dbuffer nhp).

(** The doubles the locals [xl], [xu] of [GetXRange] hold when the scan of
    variable [i] starts: what the previous variable left, or the initial,
    uninitialised, contents. *)
Definition carried (xl0 xu0 : float) (r : list (float * float)) (i : nat)
  : float * float :=
  match i with
  | O => (xl0, xu0)
  | S j => default (xl0, xu0) (r !! j)
  end.

(** The scan of the row [h] writes both bounds: the running mass exceeds
    [pu] at some bin [k], and [pl] at a bin no later than [k]. *)
Definition both_recorded (pl pu : float) (h : list float) : Prop :=
  exists j k : nat,
    first_above pl h 0%float = Some j /\ first_above pu h 0%float = Some k /\
    (j <= k)%nat.

(** ** The thresholds of [GetXRange] *)

(** [pl=prob/2.; pu=1.-pl;], the two thresholds [GetXRange] hands to
    [getrange]. *)
Definition thresholds (prob : float) : float * float :=
  let pl := (prob / 2)%float in
  let pu := (1 - pl)%float in
  (pl, pu).

(** The doubles 1 and 2, as the IEEE specification writes them. *)
Definition SF_one : spec_float := S754_finite false 4503599627370496 (-52).
Definition SF_two : spec_float := S754_finite false 4503599627370496 (-51).

(** ** Doubles that are integers *)

(** The double of a positive integer below [2^53], in canonical form. *)
Definition SFint (c : positive) : spec_float :=
  let d := Z.pos (digits2_pos c) in
  S754_finite false (shl_align c 0 (d - 53)).1 (d - 53).

(** The integer a double stands for, when it stands for one. *)
Definition SFintegral (x : spec_float) : option Z :=
  match x with
  | S754_zero _ => Some 0
  | S754_finite s m e =>
      if 0 <=? e then Some (cond_Zopp s (Z.pos m * 2 ^ e))
      else if Z.pos m mod 2 ^ (- e) =? 0
           then Some (cond_Zopp s (Z.pos m / 2 ^ (- e)))
           else None
  | _ => None
  end.

Definition integral (x : float) : option Z := SFintegral (Prim2SF x).

(** ** Counting *)

(** The bin of a sample [val]: [(int)rint((val - xl)/deltax)] brought into
    [0 .. nbinsm1], as [updatevalue] computes it. *)
Definition bin_index (nhp : NHArray) (val : float) : option Z :=
  nbin ← double_to_int (rint ((val - xl nhp) / deltax nhp)%float);
  let nbin := if nbin <? 0 then 0 else nbin in
  Some (if nbin >? nbinsm1 nhp then nbinsm1 nhp else nbin).

Definition Zsum (cs : list Z) : Z := foldr Z.add 0 cs.

(** The sum of a row of counters, as an integer; [None] when a counter is
    not an integer. *)
Fixpoint row_total (r : list float) : option Z :=
  match r with
  | [] => Some 0
  | c :: r' => n ← integral c; t ← row_total r'; Some (n + t)
  end.

(** [accumulated nhp k nhp']: [k] calls of [UpdateNHArray] that returned, with
    any arrays of samples, lead from [nhp] to [nhp']. *)
Inductive accumulated : NHArray -> nat -> NHArray -> Prop :=
| accumulated_O nhp : accumulated nhp 0 nhp
| accumulated_S nhp k nhp1 a nhp2 :
    accumulated nhp k nhp1 ->
    UpdateNHArray nhp1 a = Returned tt nhp2 ->
    accumulated nhp (S k) nhp2.

(** The first loop of [normalizepdf] on a row given as a list. *)
Fixpoint sum_row (r : list float) (Nx : Z) : option Z :=
  match r with
  | [] => Some Nx
  | c :: r' =>
      Nx' ← double_to_int (double_of_int Nx + c)%float;
      sum_row r' Nx'
  end.

(** ** The mass of a row

    Every finite double is an integer number of units of [2^-1074]. *)

(** The value of a double in units of [2^-1074]; [None] for a NaN or an
    infinity. *)
Definition SFscaled (x : spec_float) : option Z :=
  match x with
  | S754_zero _ => Some 0
  | S754_finite s m e => Some (cond_Zopp s (Z.pos m * 2 ^ (e + 1074)))
  | _ => None
  end.

Definition scaled (x : float) : option Z := SFscaled (Prim2SF x).

(** The exact sum of the entries of a row, in units of [2^-1074]. *)
Fixpoint row_mass (r : list float) : option Z :=
  match r with
  | [] => Some 0
  | c :: r' => v ← scaled c; t ← row_mass r'; Some (v + t)
  end.

(** Row [i] holds the counts [cs], as doubles. *)
Definition holds (nhp : NHArray) (i : Z) (cs : list Z) : Prop :=
  row nhp i = double_of_int <$> cs /\ Forall (fun c => 0 <= c) cs.

(** Every row holds counts, those of row [i] adding up to [f i]. *)
Definition tallied (nhp : NHArray) (f : Z -> Z) : Prop :=
  forall i, 0 <= i < elems nhp -> exists cs, holds nhp i cs /\ Zsum cs = f i.

(** Row [i] of [nhp'] is row [i] of [nhp], which held [k] samples, with one
    of its counters one higher. *)
Definition bumped (nhp nhp' : NHArray) (i : Z) (k : Z) : Prop :=
  exists cs (b : nat) c,
    holds nhp i cs /\ Zsum cs = k /\ cs !! b = Some c /\
    holds nhp' i (<[b := c + 1]> cs).

(** ** Statements *)

(** What [GetXRange] does with tail probability [prob] on the histogram
    array [nhp], leaving it as [nhp']: it returns one pair per variable and,
    [p] being the running mass of the variable's row scanned left to right,
    the lower bound is [xl + deltax * (j - 1)] for the first bin [j] where
    [p] exceeds [pLow = prob/2]; the upper bound is [xl + deltax * k] for the
    first bin [k] where [p] exceeds [pHigh = 1 - pLow]; the lower bound has
    been recorded at a bin [j <= k]; and the scan stops at [k], the result
    being the same on a buffer that ends right after that bin. *)
Definition getrange_claim (xl0 xu0 : float) (nhp : NHArray) (prob : float)
    (nhp' : NHArray) : Prop :=
  let pl := (prob / 2)%float in
  let pu := (1 - pl)%float in
  exists r, GetXRange xl0 xu0 nhp prob = Returned r nhp' /\
    length r = Z.to_nat (elems nhp') /\
    forall i : nat, (i < length r)%nat ->
      exists lo up, r !! i = Some (lo, up) /\
      let h := row nhp' (Z.of_nat i) in
      (forall j, first_above pl h 0%float = Some j ->
         lo = (xl nhp' + deltax nhp' * double_of_int (Z.of_nat j - 1))%float) /\
      (forall k, first_above pu h 0%float = Some k ->
         up = (xl nhp' + deltax nhp' * double_of_int (Z.of_nat k))%float /\
         (exists j, first_above pl h 0%float = Some j /\ (j <= k)%nat) /\
         forall xlo xuo,
           getrange (set_dbuffer nhp'
                       (take (Z.to_nat (getpdfptr nhp' (Z.of_nat i)) + S k)
                             (dbuffer nhp')))
                    (Z.of_nat i) pl pu xlo xuo
           = getrange nhp' (Z.of_nat i) pl pu xlo xuo).

(** The two kinds of error [UpdateNHArray] reports, both as a [ValueError]:
    the histogram array is already normalized, or the array of samples has
    the wrong rank or the wrong length. *)
Definition state_error (e : PyErr) : Prop := e = PyExc_ValueError msg_normalized.

Definition shape_error (e : PyErr) : Prop :=
  e = PyExc_ValueError msg_linear \/ e = PyExc_ValueError msg_dims.

(** ** Calls and what they count *)

(** The bin of the sample of variable [i] in the array [a]. *)
Definition sample_bin (nhp : NHArray) (a : PyArrayObject) (i : Z) : option Z :=
  v ← load (data a) i; bin_index nhp v.

(** [thepdf[nbin]++]. *)
Definition incr (c : float) : float := (c + 1)%float.

(** A call of [UpdateNHArray] as a partial change of the histogram array:
    the array it leaves when it returns. *)
Definition accumulate (a : PyArrayObject) (nhp : NHArray) : option NHArray :=
  match UpdateNHArray nhp a with
  | Returned _ nhp' => Some nhp'
  | _ => None
  end.

(** The number of arrays of [l] whose sample of variable [i] has bin [b]. *)
Definition count_bin (nhp : NHArray) (l : list PyArrayObject) (i b : Z) : nat :=
  length (filter (fun a => sample_bin nhp a i = Some b) l).

(** The histogram arrays a program can be holding after it started from
    [nhp0]: every call of [UpdateNHArray] or [GetXRange] that returns or
    raises leaves one. *)
Inductive reachable (nhp0 : NHArray) : NHArray -> Prop :=
| reachable_refl : reachable nhp0 nhp0
| reachable_update nhp a nhp' :
    reachable nhp0 nhp -> UpdateNHArray nhp a = Returned tt nhp' ->
    reachable nhp0 nhp'
| reachable_raise nhp a e nhp' :
    reachable nhp0 nhp -> UpdateNHArray nhp a = Raised e nhp' ->
    reachable nhp0 nhp'
| reachable_range nhp xl0 xu0 prob r nhp' :
    reachable nhp0 nhp -> GetXRange xl0 xu0 nhp prob = Returned r nhp' ->
    reachable nhp0 nhp'.

(** A double that is neither a NaN nor an infinity. *)
Definition finite_double (x : float) : bool :=
  match Prim2SF x with
  | S754_zero _ | S754_finite _ _ _ => true
  | _ => false
  end.

(** A bin width that is neither zero nor a NaN. *)
Definition proper_width (d : float) : bool :=
  match Prim2SF d with
  | S754_finite _ _ _ | S754_infinity _ => true
  | _ => false
  end.

(** ** Rounding to the nearest integer *)

(** The integer nearest to [S / D], ties to the even one. *)
Definition nearest (S D : Z) : Z :=
  match 2 * (S mod D) ?= D with
  | Lt => S / D
  | Gt => S / D + 1
  | Eq => if Z.even (S / D) then S / D else S / D + 1
  end.

(** The integer nearest to [m * 2^e], ties to the even one. *)
Definition nearest_even (m : positive) (e : Z) : Z :=
  if 0 <=? e then Z.pos m * 2 ^ e else nearest (Z.pos m) (2 ^ (- e)).

(** [nbin=(nbin<0)?0:nbin; nbin=(nbin>nbinsm1)?nbinsm1:nbin;]. *)
Definition clamp_bin (nhp : NHArray) (nbin : Z) : Z :=
  let nbin := if nbin <? 0 then 0 else nbin in
  if nbin >? nbinsm1 nhp then nbinsm1 nhp else nbin.

(** * Properties *)

(** ** Doubles: rounding of exactly representable values *)

Lemma digits2_pos_size p : digits2_pos p = Pos.size p.
Proof. induction p; simpl; congruence. Qed.

Lemma digits2_pos_bounds p :
  2 ^ (Z.pos (digits2_pos p) - 1) <= Z.pos p < 2 ^ Z.pos (digits2_pos p).
Proof.
  rewrite digits2_pos_size. split.
  - pose proof (Pos.size_le p) as H.
    assert (H2 : Z.pos (2 ^ Pos.size p) <= Z.pos p~0) by lia.
    rewrite Pos2Z.inj_pow in H2.
    replace (Z.pos (Pos.size p)) with (Z.succ (Z.pos (Pos.size p) - 1)) in H2 by lia.
    rewrite Z.pow_succ_r in H2 by lia. lia.
  - pose proof (Pos.size_gt p) as H.
    assert (H2 : Z.pos p < Z.pos (2 ^ Pos.size p)) by lia.
    by rewrite Pos2Z.inj_pow in H2.
Qed.

Lemma digits2_pos_unique p d :
  2 ^ (d - 1) <= Z.pos p < 2 ^ d -> Z.pos (digits2_pos p) = d.
Proof.
  intros [Hlo Hhi]. pose proof (digits2_pos_bounds p) as [Hlo' Hhi'].
  assert (0 < d).
  { destruct (Z.lt_trichotomy d 0) as [?|[->|?]]; [|rewrite Z.pow_0_r in Hhi|]; try lia.
    rewrite Z.pow_neg_r in Hhi by lia. lia. }
  destruct (Z.lt_trichotomy (Z.pos (digits2_pos p)) d) as [Hlt|[Heq|Hgt]]; [|done|].
  - assert (2 ^ Z.pos (digits2_pos p) <= 2 ^ (d - 1)) by (apply Z.pow_le_mono_r; lia). lia.
  - assert (2 ^ d <= 2 ^ (Z.pos (digits2_pos p) - 1)) by (apply Z.pow_le_mono_r; lia). lia.
Qed.

Lemma shift_pos_Z k m : Z.pos (shift_pos k m) = Z.pos m * 2 ^ Z.pos k.
Proof. rewrite shift_pos_correct, Z.pow_pos_fold. lia. Qed.

Lemma digits2_pos_shift k m :
  Z.pos (digits2_pos (shift_pos k m)) = Z.pos (digits2_pos m) + Z.pos k.
Proof.
  apply digits2_pos_unique. rewrite shift_pos_Z.
  pose proof (digits2_pos_bounds m) as [Hlo Hhi].
  replace (Z.pos (digits2_pos m) + Z.pos k - 1) with (Z.pos (digits2_pos m) - 1 + Z.pos k) by lia.
  rewrite !Z.pow_add_r by lia.
  assert (0 < 2 ^ Z.pos k) by (apply Z.pow_pos_nonneg; lia).
  split; nia.
Qed.

Lemma iter_pos_nat {A} (f : A -> A) k x :
  SpecFloat.iter_pos f k x = Nat.iter (Pos.to_nat k) f x.
Proof.
  revert x. induction k as [k IH|k IH|]; intros x; cbn [SpecFloat.iter_pos].
  - rewrite !IH, Pos2Nat.inj_xI.
    replace (S (2 * Pos.to_nat k)) with (Pos.to_nat k + Pos.to_nat k + 1)%nat by lia.
    rewrite !Nat.iter_add. done.
  - rewrite !IH, Pos2Nat.inj_xO.
    replace (2 * Pos.to_nat k)%nat with (Pos.to_nat k + Pos.to_nat k)%nat by lia.
    by rewrite Nat.iter_add.
  - done.
Qed.

Lemma shr_1_shift_nat n m :
  Nat.iter n shr_1 {| shr_m := Z.pos (shift_nat n m); shr_r := false; shr_s := false |}
  = {| shr_m := Z.pos m; shr_r := false; shr_s := false |}.
Proof.
  induction n as [|n IH]; [done|].
  rewrite Nat.iter_succ_r. simpl. exact IH.
Qed.

Lemma shr_shift k m e :
  shr {| shr_m := Z.pos (shift_pos k m); shr_r := false; shr_s := false |} e (Z.pos k)
  = ({| shr_m := Z.pos m; shr_r := false; shr_s := false |}, e + Z.pos k).
Proof.
  unfold shr. by rewrite iter_pos_nat, shift_pos_nat, shr_1_shift_nat.
Qed.

(** Rounding an exactly representable value: no shift needed. *)
Lemma binary_round_aux_canonical s M E :
  canonical_mantissa prec emax M E = true -> E <= emax - prec ->
  binary_round_aux prec emax s (Z.pos M) E loc_Exact = S754_finite s M E.
Proof.
  unfold canonical_mantissa. intros Hc%Z.eqb_eq Hb.
  unfold binary_round_aux, shr_fexp. simpl Zdigits2.
  rewrite Hc, Z.sub_diag. simpl.
  rewrite Hc, Z.sub_diag. simpl.
  destruct (Z.leb_spec E (emax - prec)); [done | lia].
Qed.

(** ... and with [k] trailing zero bits to drop. *)
Lemma binary_round_aux_shifted s M E k :
  canonical_mantissa prec emax M E = true -> E <= emax - prec ->
  binary_round_aux prec emax s (Z.pos (shift_pos k M)) (E - Z.pos k) loc_Exact
  = S754_finite s M E.
Proof.
  unfold canonical_mantissa. intros Hc%Z.eqb_eq Hb.
  unfold binary_round_aux, shr_fexp. simpl Zdigits2.
  rewrite digits2_pos_shift.
  replace (Z.pos (digits2_pos M) + Z.pos k + (E - Z.pos k)) with (Z.pos (digits2_pos M) + E) by lia.
  rewrite Hc.
  replace (E - (E - Z.pos k)) with (Z.pos k) by lia.
  simpl shr_record_of_loc. rewrite shr_shift.
  replace (E - Z.pos k + Z.pos k) with E by lia.
  simpl. rewrite Hc, Z.sub_diag. simpl.
  destruct (Z.leb_spec E (emax - prec)); [done | lia].
Qed.

Lemma fexp_small d : 1 <= d -> fexp prec emax d = d - 53.
Proof. intros. unfold fexp, SpecFloat.emin, emax, prec. lia. Qed.

Lemma shl_align_Z m e e' :
  Z.pos (shl_align m e e').1 = Z.pos m * 2 ^ (e - Z.min e e') /\
  (shl_align m e e').2 = Z.min e e'.
Proof.
  unfold shl_align. destruct (e' - e) as [|k|k] eqn:Hk; simpl.
  - rewrite Z.min_l by lia. rewrite Z.sub_diag. simpl. lia.
  - rewrite Z.min_l by lia. rewrite Z.sub_diag. simpl. lia.
  - rewrite Z.min_r by lia. change (Pos.iter xO m k) with (shift_pos k m).
    rewrite shift_pos_Z. split; [|done]. do 2 f_equal. lia.
Qed.

Lemma Zdigits_unique_eq (m M : positive) k :
  0 <= k -> Z.pos m = Z.pos M * 2 ^ k ->
  Z.pos (digits2_pos m) = Z.pos (digits2_pos M) + k.
Proof.
  intros Hk Hm. apply digits2_pos_unique. rewrite Hm.
  pose proof (digits2_pos_bounds M) as [Hlo Hhi].
  replace (Z.pos (digits2_pos M) + k - 1) with (Z.pos (digits2_pos M) - 1 + k) by lia.
  rewrite !Z.pow_add_r by lia.
  assert (0 < 2 ^ k) by (apply Z.pow_pos_nonneg; lia).
  split; nia.
Qed.

(** [binary_round] returns an exactly representable value in its canonical
    form [M * 2^E], whatever the form [m * 2^e] it is given in. *)
Lemma binary_round_exact s m e M E :
  canonical_mantissa prec emax M E = true -> E <= emax - prec ->
  Z.pos m * 2 ^ (e - Z.min e E) = Z.pos M * 2 ^ (E - Z.min e E) ->
  binary_round prec emax s m e = S754_finite s M E.
Proof.
  intros Hc Hb Hv. pose proof Hc as Hc'.
  unfold canonical_mantissa in Hc'. apply Z.eqb_eq in Hc'.
  unfold binary_round.
  destruct (Z.le_gt_cases e E) as [Hle|Hgt].
  - (* the given form has trailing zeros to drop *)
    rewrite Z.min_l, Z.sub_diag, Z.mul_1_r in Hv by lia.
    assert (Hd : Z.pos (digits2_pos m) + e = Z.pos (digits2_pos M) + E).
    { rewrite (Zdigits_unique_eq m M (E - e)) by (lia || done). lia. }
    rewrite Hd, Hc'.
    destruct (shl_align_Z m e E) as [H1 H2].
    destruct (shl_align m e E) as [mz ez]. simpl in *.
    rewrite Z.min_l in * by lia. rewrite Z.sub_diag, Z.mul_1_r in H1.
    injection H1 as ->. subst ez.
    destruct (E - e) as [|k|k] eqn:Hk; try lia.
    + assert (e = E) by lia. subst. rewrite Z.mul_1_r in Hv. injection Hv as ->.
      by apply binary_round_aux_canonical.
    + assert (m = shift_pos k M) as ->.
      { pose proof (shift_pos_Z k M). lia. }
      replace e with (E - Z.pos k) by lia.
      by apply binary_round_aux_shifted.
  - (* the given form has to be shifted left *)
    rewrite Z.min_r in Hv by lia. rewrite Z.sub_diag, Z.mul_1_r in Hv.
    assert (Hd : Z.pos (digits2_pos m) + e = Z.pos (digits2_pos M) + E).
    { rewrite (Zdigits_unique_eq M m (e - E)) by (lia || done). lia. }
    rewrite Hd, Hc'.
    destruct (shl_align_Z m e E) as [H1 H2].
    destruct (shl_align m e E) as [mz ez]. simpl in *.
    rewrite Z.min_r in * by lia. subst ez.
    assert (mz = M) as -> by lia.
    by apply binary_round_aux_canonical.
Qed.

Lemma SFint_canonical c :
  Z.pos c < 2 ^ 53 ->
  let d := Z.pos (digits2_pos c) in
  d <= 53 /\
  Z.pos (shl_align c 0 (d - 53)).1 = Z.pos c * 2 ^ (53 - d) /\
  canonical_mantissa prec emax (shl_align c 0 (d - 53)).1 (d - 53) = true.
Proof.
  intros Hc d. pose proof (digits2_pos_bounds c) as [Hlo Hhi]. fold d in Hlo, Hhi.
  assert (Hd : d <= 53).
  { destruct (Z.le_gt_cases d 53); [done|].
    assert (2 ^ 53 <= 2 ^ (d - 1)) by (apply Z.pow_le_mono_r; lia). lia. }
  destruct (shl_align_Z c 0 (d - 53)) as [H1 _].
  rewrite Z.min_r in H1 by lia.
  replace (0 - (d - 53)) with (53 - d) in H1 by lia.
  split; [done|]. split; [done|].
  unfold canonical_mantissa. apply Z.eqb_eq.
  rewrite (Zdigits_unique_eq _ c (53 - d)) by (lia || done). fold d.
  rewrite fexp_small by (unfold d; lia). lia.
Qed.

Lemma binary_normalize_int c :
  Z.pos c < 2 ^ 53 ->
  binary_normalize prec emax (Z.pos c) 0 false = SFint c.
Proof.
  intros Hc. destruct (SFint_canonical c Hc) as (Hd & HM & Hcan).
  simpl. apply binary_round_exact; [done | unfold emax, prec; lia |].
  rewrite Z.min_r by lia. rewrite Z.sub_diag, Z.mul_1_r, HM. do 2 f_equal. lia.
Qed.

Lemma to_Z_of_Z_small c : 0 <= c < 2 ^ 53 -> Uint63.to_Z (Uint63.of_Z c) = c.
Proof.
  intros Hc. rewrite Uint63.of_Z_spec. apply Z.mod_small.
  assert (2 ^ 53 < wB) by (vm_compute; done). lia.
Qed.

Lemma Prim2SF_of_pos c :
  Z.pos c < 2 ^ 53 -> Prim2SF (of_uint63 (Uint63.of_Z (Z.pos c))) = SFint c.
Proof.
  intros Hc. rewrite of_uint63_spec, to_Z_of_Z_small by lia.
  by apply binary_normalize_int.
Qed.


Lemma digits2_pos_mono a b :
  (a <= b)%positive -> Z.pos (digits2_pos a) <= Z.pos (digits2_pos b).
Proof.
  intros Hab.
  pose proof (digits2_pos_bounds a) as [Ha _].
  pose proof (digits2_pos_bounds b) as [_ Hb].
  destruct (Z.le_gt_cases (Z.pos (digits2_pos a)) (Z.pos (digits2_pos b))); [done|].
  assert (2 ^ Z.pos (digits2_pos b) <= 2 ^ (Z.pos (digits2_pos a) - 1))
    by (apply Z.pow_le_mono_r; lia).
  lia.
Qed.

(** Adding two integers in doubles is exact as long as the sum is below
    [2^53]. *)
Lemma SFadd_int a c :
  Z.pos a + Z.pos c < 2 ^ 53 ->
  SF64add (SFint a) (SFint c) = SFint (a + c).
Proof.
  intros Hc.
  destruct (SFint_canonical a ltac:(lia)) as (Hda & HMa & _).
  destruct (SFint_canonical c ltac:(lia)) as (Hdc & HMc & _).
  destruct (SFint_canonical (a + c) ltac:(lia)) as (Hd' & HM' & Hcan').
  pose proof (digits2_pos_mono a (a + c) ltac:(lia)) as Hma.
  pose proof (digits2_pos_mono c (a + c) ltac:(lia)) as Hmc.
  set (da := Z.pos (digits2_pos a)) in *.
  set (dc := Z.pos (digits2_pos c)) in *.
  set (d' := Z.pos (digits2_pos (a + c))) in *.
  assert (1 <= da) by (unfold da; lia).
  assert (1 <= dc) by (unfold dc; lia).
  unfold SFint at 1 2. fold da dc. unfold SF64add, SFadd.
  set (ez := Z.min (da - 53) (dc - 53)).
  destruct (shl_align_Z (shl_align a 0 (da - 53)).1 (da - 53) ez) as [Ha _].
  destruct (shl_align_Z (shl_align c 0 (dc - 53)).1 (dc - 53) ez) as [Hb _].
  rewrite Z.min_r in Ha, Hb by (unfold ez; lia).
  rewrite HMa in Ha. rewrite HMc in Hb.
  simpl cond_Zopp. rewrite <- Pos2Z.inj_add.
  cbn [binary_normalize]. unfold SFint. fold d'.
  apply binary_round_exact; [done | unfold emax, prec; lia |].
  rewrite Z.min_l by (unfold ez; lia). rewrite Z.sub_diag, Z.mul_1_r.
  rewrite Pos2Z.inj_add, Ha, Hb, HM'.
  rewrite <- !Z.mul_assoc, <- !Z.pow_add_r by (unfold ez; lia).
  replace (53 - da + (da - 53 - ez)) with (- ez) by lia.
  replace (53 - dc + (dc - 53 - ez)) with (- ez) by lia.
  replace (53 - d' + (d' - 53 - ez)) with (- ez) by lia.
  rewrite Pos2Z.inj_add. lia.
Qed.

Lemma double_of_int_pos c : double_of_int (Z.pos c) = of_uint63 (Uint63.of_Z (Z.pos c)).
Proof. done. Qed.

Lemma double_of_int_add a c :
  0 <= a -> 0 <= c -> a + c < 2 ^ 53 ->
  (double_of_int a + double_of_int c)%float = double_of_int (a + c).
Proof.
  intros Ha Hc Hac. apply Prim2SF_inj. rewrite FloatAxioms.add_spec.
  destruct a as [|a|a], c as [|c|c]; try lia.
  - by vm_compute.
  - change (double_of_int 0) with 0%float.
    change (Prim2SF 0) with (S754_zero false).
    rewrite Z.add_0_l, double_of_int_pos, Prim2SF_of_pos by lia. done.
  - change (double_of_int 0) with 0%float.
    change (Prim2SF 0) with (S754_zero false).
    rewrite Z.add_0_r, double_of_int_pos, Prim2SF_of_pos by lia. done.
  - replace (Z.pos a + Z.pos c) with (Z.pos (a + c)) by lia.
    rewrite !double_of_int_pos, !Prim2SF_of_pos by lia.
    apply SFadd_int. lia.
Qed.

(** Counting in doubles is exact up to [2^53]. *)
Lemma double_of_int_succ c :
  0 <= c < 2 ^ 53 -> (double_of_int c + 1)%float = double_of_int (c + 1).
Proof.
  intros Hc. destruct (Z.eq_dec (c + 1) (2 ^ 53)) as [E|E].
  - assert (c = 9007199254740991) as -> by lia. by vm_compute.
  - change 1%float with (double_of_int 1). apply double_of_int_add; lia.
Qed.

Lemma double_to_int_of_int c :
  0 <= c <= INT_MAX -> double_to_int (double_of_int c) = Some c.
Proof.
  intros Hc. unfold INT_MAX in Hc. destruct c as [|p|p]; [by vm_compute | | lia].
  unfold double_to_int. rewrite double_of_int_pos, Prim2SF_of_pos by lia.
  destruct (SFint_canonical p ltac:(lia)) as (Hd & HM & _).
  unfold SFint. set (d := Z.pos (digits2_pos p)) in *.
  cbv beta iota zeta. rewrite HM.
  destruct (Z.eq_dec d 53) as [E|E].
  - replace (53 - d) with 0 by lia. replace (d - 53) with 0 by lia.
    rewrite Z.shiftl_0_r, Z.pow_0_r, Z.mul_1_r. unfold sint, fits_int, INT_MIN, INT_MAX.
    destruct (Z.leb_spec (-2147483648) (Z.pos p)), (Z.leb_spec (Z.pos p) 2147483647);
      simpl; (done || lia).
  - rewrite <- Z.shiftr_opp_r, Z.shiftr_div_pow2 by lia.
    replace (- (d - 53)) with (53 - d) by lia.
    rewrite Z.div_mul by (apply Z.pow_nonzero; lia).
    unfold sint, fits_int, INT_MIN, INT_MAX.
    destruct (Z.leb_spec (-2147483648) (Z.pos p)), (Z.leb_spec (Z.pos p) 2147483647);
      simpl; (done || lia).
Qed.

Lemma integral_double_of_int c :
  0 <= c <= 2 ^ 53 -> integral (double_of_int c) = Some c.
Proof.
  intros Hc. destruct (Z.eq_dec c (2 ^ 53)) as [->|E]; [by vm_compute|].
  destruct c as [|p|p]; [by vm_compute | | lia].
  unfold integral. rewrite double_of_int_pos, Prim2SF_of_pos by lia.
  destruct (SFint_canonical p ltac:(lia)) as (Hd & HM & _).
  unfold SFint, SFintegral. set (d := Z.pos (digits2_pos p)) in *.
  rewrite HM. destruct (Z.leb_spec 0 (d - 53)).
  - replace (53 - d) with 0 by lia. replace (d - 53) with 0 by lia.
    simpl. f_equal. lia.
  - replace (- (d - 53)) with (53 - d) by lia.
    rewrite Z.mod_mul, Z.div_mul by (apply Z.pow_nonzero; lia). done.
Qed.

Lemma Prim2SF_m1 : Prim2SF (-1)%float = S754_finite true 4503599627370496 (-52).
Proof. vm_compute. reflexivity. Qed.

(** Multiplying by [-1] changes the sign and nothing else. *)
Lemma mul_m1 (d : float) : (d * -1)%float = (- d)%float.
Proof.
  apply Prim2SF_inj. rewrite FloatAxioms.mul_spec, FloatAxioms.opp_spec, Prim2SF_m1.
  pose proof (Prim2SF_valid d) as Hv.
  destruct (Prim2SF d) as [s|s| |s m e]; simpl; try done; try by rewrite xorb_true_r.
  simpl in Hv. unfold bounded in Hv. apply andb_true_iff in Hv as [Hc Hb%Z.leb_le].
  assert ((m * 4503599627370496)%positive = shift_pos 52 m) as ->.
  { pose proof (shift_pos_Z 52 m). change (2 ^ 52) with 4503599627370496 in *. lia. }
  rewrite xorb_true_r. by apply binary_round_aux_shifted.
Qed.

(** Adding the opposite is subtracting. *)
Lemma add_opp (x d : float) : (x + - d)%float = (x - d)%float.
Proof.
  apply Prim2SF_inj. rewrite FloatAxioms.add_spec, FloatAxioms.sub_spec, FloatAxioms.opp_spec.
  unfold SF64add, SF64sub.
  destruct (Prim2SF x) as [sx|sx| |sx mx ex], (Prim2SF d) as [sd|sd| |sd md ed];
    simpl; try done; by destruct sx, sd.
Qed.


(** ** Buffers and rows *)

Lemma load_Some b ofs c :
  load b ofs = Some c <-> 0 <= ofs /\ b !! Z.to_nat ofs = Some c.
Proof.
  unfold load. destruct (Z.ltb_spec ofs 0); split.
  - discriminate.
  - intros [? _]. lia.
  - intros ?. split; [lia | done].
  - intros [_ ?]. done.
Qed.

Lemma reads_nil b ofs : reads b ofs [].
Proof. intros j c H. destruct j; discriminate. Qed.

Lemma reads_cons b ofs c r :
  reads b ofs (c :: r) <-> load b ofs = Some c /\ reads b (ofs + 1) r.
Proof.
  split.
  - intros H. split.
    + specialize (H 0%nat c eq_refl). by rewrite Z.add_0_r in H.
    + intros j d Hj. specialize (H (S j) d Hj).
      by replace (ofs + 1 + Z.of_nat j) with (ofs + Z.of_nat (S j)) by lia.
  - intros [H0 H1] [|j] d Hj.
    + simpl in Hj. injection Hj as <-. by rewrite Z.add_0_r.
    + replace (ofs + Z.of_nat (S j)) with (ofs + 1 + Z.of_nat j) by lia.
      by apply H1.
Qed.

Lemma reads_take b ofs r n : reads b ofs r -> reads b ofs (take n r).
Proof.
  intros H j c Hj. apply H.
  apply lookup_take_Some in Hj. tauto.
Qed.

Lemma reads_drop b (ofs : Z) (m : nat) :
  0 <= ofs -> reads b ofs (take m (drop (Z.to_nat ofs) b)).
Proof.
  intros Hofs j c Hj. apply load_Some. split; [lia|].
  apply lookup_take_Some in Hj as [Hj _].
  rewrite lookup_drop in Hj.
  by replace (Z.to_nat (ofs + Z.of_nat j)) with (Z.to_nat ofs + j)%nat by lia.
Qed.

Lemma wf_row_reads nhp i :
  0 <= nbins nhp -> 0 <= i ->
  reads (dbuffer nhp) (getpdfptr nhp i) (row nhp i).
Proof.
  intros Hn Hi. unfold row. apply reads_drop. unfold getpdfptr. nia.
Qed.

Lemma wf_row_length nhp i :
  wf nhp -> 0 <= i < elems nhp ->
  length (row nhp i) = Z.to_nat (nbins nhp).
Proof.
  intros (Hn & He & _ & Hlen) Hi. unfold row, getpdfptr.
  rewrite length_take, length_drop. nia.
Qed.

(** ** Ordering of doubles *)

Lemma lex_trans (e1 e2 e3 : Z) (m1 m2 m3 : positive) c :
  match e1 ?= e2 with Eq => (m1 ?= m2)%positive | Lt => Lt | Gt => Gt end = c ->
  c <> Gt ->
  match e2 ?= e3 with Eq => (m2 ?= m3)%positive | Lt => Lt | Gt => Gt end = Lt ->
  match e1 ?= e3 with Eq => (m1 ?= m3)%positive | Lt => Lt | Gt => Gt end = Lt.
Proof.
  intros H1 Hc H2.
  destruct (Z.compare_spec e1 e2), (Z.compare_spec e2 e3), (Z.compare_spec e1 e3);
    subst; try lia; try discriminate; try congruence.
  destruct (Pos.compare_spec m1 m2), (Pos.compare_spec m2 m3), (Pos.compare_spec m1 m3);
    subst; try lia; try discriminate; try congruence.
Qed.

Lemma lex_trans_opp (e1 e2 e3 : Z) (m1 m2 m3 : positive) c :
  match e1 ?= e2 with Eq => CompOpp (m1 ?= m2)%positive | Lt => Gt | Gt => Lt end = c ->
  c <> Gt ->
  match e2 ?= e3 with Eq => CompOpp (m2 ?= m3)%positive | Lt => Gt | Gt => Lt end = Lt ->
  match e1 ?= e3 with Eq => CompOpp (m1 ?= m3)%positive | Lt => Gt | Gt => Lt end = Lt.
Proof.
  intros H1 Hc H2.
  destruct (Z.compare_spec e1 e2), (Z.compare_spec e2 e3), (Z.compare_spec e1 e3);
    subst; try lia; try discriminate; try congruence.
  destruct (Pos.compare_spec m1 m2), (Pos.compare_spec m2 m3), (Pos.compare_spec m1 m3);
    subst; simpl in *; try lia; try discriminate; try congruence.
Qed.

Lemma SFleb_ltb_trans a b c :
  SFleb a b = true -> SFltb b c = true -> SFltb a c = true.
Proof.
  unfold SFleb, SFltb.
  destruct a as [sa|sa| |sa ma ea], b as [sb|sb| |sb mb eb], c as [sc|sc| |sc mc ec];
    simpl; try discriminate; try reflexivity;
    repeat match goal with s : bool |- _ => destruct s end;
    simpl; try discriminate; try reflexivity.
  all: change (PosDef.Pos.compare_cont Eq) with Pos.compare.
  - intros H1 H2.
    erewrite (lex_trans_opp ea eb ec ma mb mc); [done|reflexivity| |].
    + destruct (match ea ?= eb with Eq => _ | Lt => _ | Gt => _ end); congruence.
    + destruct (match eb ?= ec with Eq => _ | Lt => _ | Gt => _ end); congruence.
  - intros H1 H2.
    erewrite (lex_trans ea eb ec ma mb mc); [done|reflexivity| |].
    + destruct (match ea ?= eb with Eq => _ | Lt => _ | Gt => _ end); congruence.
    + destruct (match eb ?= ec with Eq => _ | Lt => _ | Gt => _ end); congruence.
Qed.

(** [a <= b] and [b < c] give [a < c], also for infinities; a NaN satisfies
    neither hypothesis. *)
Lemma leb_ltb_trans (a b c : float) :
  (a <=? b)%float = true -> (b <? c)%float = true -> (a <? c)%float = true.
Proof. rewrite FloatAxioms.leb_spec, !FloatAxioms.ltb_spec. apply SFleb_ltb_trans. Qed.

(** ** Crossings of the running mass *)

Lemma running_length p r : length (running p r) = length r.
Proof. revert p. induction r as [|c r IH]; intros p; simpl; [done | by rewrite IH]. Qed.

Lemma first_above_Some t r p k :
  first_above t r p = Some k <->
  (exists m, running p r !! k = Some m /\ (t <? m)%float = true) /\
  (forall j m, (j < k)%nat -> running p r !! j = Some m -> (t <? m)%float = false).
Proof.
  revert p k. induction r as [|c r IH]; intros p k; simpl.
  - split; [discriminate | intros [(m & Hm & _) _]; discriminate].
  - destruct (t <? p + c)%float eqn:Hc.
    + split.
      * intros [= <-]. split; [eauto | intros; lia].
      * intros [(m & Hm & Ht) Hlt]. destruct k as [|k]; [done|].
        specialize (Hlt 0%nat _ ltac:(lia) eq_refl). congruence.
    + rewrite fmap_Some. split.
      * intros (k' & Hk' & ->). apply IH in Hk' as [Hex Hlt]. split; [done|].
        intros [|j] m Hj Hm; simpl in Hm; [congruence|].
        apply (Hlt j); [lia | done].
      * intros [(m & Hm & Ht) Hlt]. destruct k as [|k].
        { simpl in Hm. congruence. }
        exists k. split; [|done]. apply IH. split; [eauto|].
        intros j m' Hj Hm'. apply (Hlt (S j)); [lia | done].
Qed.

Lemma first_above_None t r p :
  first_above t r p = None <->
  (forall j m, running p r !! j = Some m -> (t <? m)%float = false).
Proof.
  revert p. induction r as [|c r IH]; intros p; simpl.
  - split; [intros _ j m H; destruct j; discriminate | done].
  - destruct (t <? p + c)%float eqn:Hc.
    + split; [discriminate|]. intros H. specialize (H 0%nat _ eq_refl). congruence.
    + rewrite fmap_None, IH. split.
      * intros H [|j] m Hm; simpl in Hm; [congruence | eauto].
      * intros H j m Hm. apply (H (S j)). done.
Qed.

Lemma first_above_lt t r p k : first_above t r p = Some k -> (k < length r)%nat.
Proof.
  intros [(m & Hm & _) _]%first_above_Some.
  apply lookup_lt_Some in Hm. by rewrite running_length in Hm.
Qed.

(** With [pl <= pu], the running mass exceeds [pl] no later than [pu]. *)
Lemma first_above_le pl pu r p k :
  (pl <=? pu)%float = true ->
  first_above pu r p = Some k ->
  exists j, first_above pl r p = Some j /\ (j <= k)%nat.
Proof.
  intros Hle. revert p k. induction r as [|c r IH]; intros p k; simpl; [discriminate|].
  destruct (pu <? p + c)%float eqn:Hu.
  - intros [= <-]. rewrite (leb_ltb_trans _ _ _ Hle Hu). eauto.
  - rewrite fmap_Some. intros (k' & Hk' & ->).
    destruct (pl <? p + c)%float; [exists 0%nat; split; [done | lia]|].
    destruct (IH _ _ Hk') as (j & -> & Hj). exists (S j). split; [done | lia].
Qed.

(** ** The scan of [getrange] *)

Section Scan.
Variables x0 dx : float.
Variables pl pu : float.

(** The upper bound is written at the first crossing of [pu], once. *)
Lemma scan_upper_Some r nbin p gotlow xlo xuo k :
  first_above pu r p = Some k ->
  (scan x0 dx pl pu r nbin p gotlow xlo xuo).2 = bound_at x0 dx (nbin + Z.of_nat k).
Proof.
  revert nbin p gotlow xlo k. induction r as [|c r IH]; intros nbin p gotlow xlo k;
    simpl; [discriminate|].
  destruct (pu <? p + c)%float.
  - intros [= <-]. simpl. by rewrite Z.add_0_r.
  - rewrite fmap_Some. intros (k' & Hk' & ->).
    rewrite (IH _ _ _ _ _ Hk'). f_equal. lia.
Qed.

(** Without a crossing of [pu] the upper output is left as it was. *)
Lemma scan_upper_None r nbin p gotlow xlo xuo :
  first_above pu r p = None ->
  (scan x0 dx pl pu r nbin p gotlow xlo xuo).2 = xuo.
Proof.
  revert nbin p gotlow xlo. induction r as [|c r IH]; intros nbin p gotlow xlo;
    simpl; [done|].
  destruct (pu <? p + c)%float; [discriminate|].
  rewrite fmap_None. apply IH.
Qed.

(** Once [gotlow] is set the lower output is never written again. *)
Lemma scan_lower_got r nbin p xlo xuo :
  (scan x0 dx pl pu r nbin p true xlo xuo).1 = xlo.
Proof.
  revert nbin p. induction r as [|c r IH]; intros nbin p; simpl; [done|].
  rewrite andb_false_r. destruct (pu <? p + c)%float; [done | apply IH].
Qed.

(** The lower bound is written at the first crossing of [pl], if the scan
    gets there: one bin to the left. *)
Lemma scan_lower_Some r nbin p xlo xuo j :
  first_above pl r p = Some j ->
  (forall k, first_above pu r p = Some k -> (j <= k)%nat) ->
  (scan x0 dx pl pu r nbin p false xlo xuo).1 = bound_at x0 dx (nbin + Z.of_nat j - 1).
Proof.
  revert nbin p xlo j. induction r as [|c r IH]; intros nbin p xlo j;
    simpl; [discriminate|].
  destruct (pl <? p + c)%float eqn:Hl; simpl.
  - intros [= <-] _. rewrite Z.add_0_r.
    destruct (pu <? p + c)%float; [done | apply scan_lower_got].
  - rewrite fmap_Some. intros (j' & Hj' & ->) Hk.
    destruct (pu <? p + c)%float.
    + specialize (Hk 0%nat eq_refl). lia.
    + rewrite (IH _ _ _ _ Hj').
      * f_equal. lia.
      * intros k Hk'. specialize (Hk (S k)). rewrite Hk' in Hk.
        specialize (Hk eq_refl). lia.
Qed.

(** Without a crossing of [pl] the lower output is left as it was. *)
Lemma scan_lower_None r nbin p gotlow xlo xuo :
  first_above pl r p = None ->
  (scan x0 dx pl pu r nbin p gotlow xlo xuo).1 = xlo.
Proof.
  revert nbin p gotlow xlo. induction r as [|c r IH]; intros nbin p gotlow xlo;
    simpl; [done|].
  destruct (pl <? p + c)%float; [discriminate|]. simpl.
  rewrite fmap_None. intros H.
  destruct (pu <? p + c)%float; [done | by apply IH].
Qed.

(** The scan stops at the first crossing of [pu]: a crossing of [pl] that
    would come later is never seen. *)
Lemma scan_lower_late r nbin p xlo xuo j k :
  first_above pl r p = Some j -> first_above pu r p = Some k -> (k < j)%nat ->
  (scan x0 dx pl pu r nbin p false xlo xuo).1 = xlo.
Proof.
  revert nbin p xlo j k. induction r as [|c r IH]; intros nbin p xlo j k;
    simpl; [discriminate|].
  destruct (pl <? p + c)%float eqn:Hl; simpl.
  - intros [= <-] _ ?. lia.
  - rewrite fmap_Some. intros (j' & Hj' & ->).
    destruct (pu <? p + c)%float; [done|].
    rewrite fmap_Some. intros (k' & Hk' & ->) ?.
    apply (IH _ _ _ j' k'); [done | done | lia].
Qed.

(** The scan depends on the bins it reads only. *)
Lemma scan_scanned r nbin p gotlow xlo xuo :
  scan x0 dx pl pu (scanned pu r p) nbin p gotlow xlo xuo
  = scan x0 dx pl pu r nbin p gotlow xlo xuo.
Proof.
  unfold scanned.
  revert nbin p gotlow xlo. induction r as [|c r IH]; intros nbin p gotlow xlo;
    simpl; [done|].
  destruct (pu <? p + c)%float eqn:Hu; simpl.
  - by rewrite Hu.
  - specialize (IH (nbin + 1) (p + c)%float).
    destruct (first_above pu r (p + c)%float); simpl; rewrite Hu; [apply IH | done].
Qed.

(** [getrange_loop] on the buffer is [scan] on the row; only the bins
    up to the first crossing of [pu] have to be there. *)
Lemma getrange_loop_scan nhp thepdf r nbin p gotlow xlo xuo :
  reads (dbuffer nhp) (thepdf + nbin) (scanned pu r p) ->
  getrange_loop nhp thepdf pl pu (length r) nbin p gotlow xlo xuo
  = Some (scan (xl nhp) (deltax nhp) pl pu r nbin p gotlow xlo xuo).
Proof.
  unfold scanned.
  revert nbin p gotlow xlo. induction r as [|c r IH]; intros nbin p gotlow xlo;
    simpl; [done|].
  destruct (pu <? p + c)%float eqn:Hu; simpl.
  - intros [Hc _]%reads_cons. rewrite Hc. simpl. by rewrite Hu.
  - intros Hr.
    assert (load (dbuffer nhp) (thepdf + nbin) = Some c
            /\ reads (dbuffer nhp) (thepdf + (nbin + 1))
                 (match first_above pu r (p + c)%float with
                  | Some k => take (S k) r | None => r end)) as [Hc Hr'].
    { destruct (first_above pu r (p + c)%float); simpl in Hr;
        apply reads_cons in Hr as [? ?]; rewrite Z.add_assoc; done. }
    rewrite Hc. simpl. rewrite Hu. by apply IH.
Qed.
End Scan.

(** ** Well-formed histogram arrays *)

Lemma store_Some b ofs v b' :
  store b ofs v = Some b' ->
  0 <= ofs < Z.of_nat (length b) /\ b' = <[Z.to_nat ofs := v]> b.
Proof.
  unfold store.
  destruct (Z.leb_spec 0 ofs), (Z.ltb_spec ofs (Z.of_nat (length b)));
    simpl; intros [= <-]; auto with lia.
Qed.

Lemma store_length b ofs v b' : store b ofs v = Some b' -> length b' = length b.
Proof. intros [_ ->]%store_Some. apply length_insert. Qed.

Lemma CreateNHArray_wf x0 x1 n e nhp :
  0 <= n -> 0 <= e ->
  CreateNHArray x0 x1 n e = Some (inl nhp) -> wf nhp.
Proof.
  intros Hn He. unfold CreateNHArray, calloc.
  destruct (sint (n - 1)) as [m1|] eqn:Hm; simpl; [|discriminate].
  destruct (sint (e * n)) as [k|] eqn:Hk; simpl; [|discriminate].
  unfold sint in Hk, Hm. destruct (fits_int (e * n)); [|discriminate].
  destruct (fits_int (n - 1)); [|discriminate].
  injection Hk as <-. injection Hm as <-.
  destruct (Z.ltb_spec (e * n) 0); [discriminate|].
  intros [= <-]. repeat split; simpl; try lia.
  rewrite length_replicate. lia.
Qed.

Lemma div_loop_length b thepdf n nbin Nx b' :
  div_loop b thepdf n nbin Nx = Some b' -> length b' = length b.
Proof.
  revert b nbin. induction n as [|n IH]; intros b nbin; simpl.
  - by intros [= <-].
  - destruct (load b (thepdf + nbin)) as [c|]; simpl; [|discriminate].
    destruct (store b _ _) as [b1|] eqn:Hs; simpl; [|discriminate].
    intros H. rewrite (IH _ _ H). by eapply store_length.
Qed.

Lemma same_shape_refl nhp : same_shape nhp nhp.
Proof. by repeat split. Qed.

Lemma same_shape_trans a b c : same_shape a b -> same_shape b c -> same_shape a c.
Proof. unfold same_shape. intuition congruence. Qed.

Lemma same_shape_wf nhp nhp' : same_shape nhp nhp' -> wf nhp -> wf nhp'.
Proof. unfold same_shape, wf. intros (?&?&->&->&?&->&->). done. Qed.

Lemma normalizepdf_shape nhp i nhp' :
  normalizepdf nhp i = Some nhp' -> same_shape nhp nhp' /\ normalized nhp' = 1.
Proof.
  unfold normalizepdf.
  destruct (sum_loop _ _ _ _ _) as [Nx|]; simpl; [|discriminate].
  destruct (div_loop _ _ _ _ _) as [b|] eqn:Hd; simpl; [|discriminate].
  intros [= <-]. repeat split; simpl. by eapply div_loop_length.
Qed.

Lemma normalize_loop_shape n ielem nhp nhp' :
  normalize_loop n ielem nhp = Some nhp' -> same_shape nhp nhp'.
Proof.
  revert ielem nhp. induction n as [|n IH]; intros ielem nhp; simpl.
  - intros [= <-]. apply same_shape_refl.
  - destruct (normalizepdf nhp ielem) as [h1|] eqn:H1; simpl; [|discriminate].
    intros H. eapply same_shape_trans; [|by eapply IH].
    by apply normalizepdf_shape in H1 as [? _].
Qed.

(** ** [GetXRange] *)

Lemma range_loop_spec nhp pl pu n ielem xlo xuo acc r :
  range_loop nhp pl pu n ielem xlo xuo acc = Some r ->
  length r = (length acc + n)%nat /\
  take (length acc) r = acc /\
  forall j, (j < n)%nat ->
    getrange nhp (ielem + Z.of_nat j) pl pu
      (match j with O => xlo | S j' => (default (xlo, xuo) (r !! (length acc + j')%nat)).1 end)
      (match j with O => xuo | S j' => (default (xlo, xuo) (r !! (length acc + j')%nat)).2 end)
    = r !! (length acc + j)%nat.
Proof.
  revert ielem xlo xuo acc. induction n as [|n IH]; intros ielem xlo xuo acc; simpl.
  - intros [= <-]. split; [lia|]. split; [by rewrite firstn_all | intros; lia].
  - destruct (getrange nhp ielem pl pu xlo xuo) as [[xlo' xuo']|] eqn:Hg; simpl;
      [|discriminate].
    intros H. apply IH in H as (Hlen & Htake & Hget).
    rewrite length_app in *. simpl in *.
    assert (Hacc : take (length acc) r = acc /\ r !! length acc = Some (xlo', xuo')).
    { split.
      - rewrite <- (take_app_length acc [(xlo', xuo')]) at 2.
        rewrite <- Htake, take_take. f_equal. lia.
      - rewrite <- (lookup_take_lt r (length acc + 1)) by lia.
        rewrite Htake, lookup_app_r by lia. by rewrite Nat.sub_diag. }
    destruct Hacc as [Hacc Hlast].
    split; [lia|]. split; [done|].
    intros [|j] Hj.
    + rewrite Z.add_0_r, Nat.add_0_r, Hg. done.
    + specialize (Hget j ltac:(lia)).
      replace (ielem + 1 + Z.of_nat j) with (ielem + Z.of_nat (S j)) in Hget by lia.
      replace (length acc + 1 + j)%nat with (length acc + S j)%nat in Hget by lia.
      rewrite <- Hget. destruct j as [|j'].
      * rewrite Nat.add_0_r, Hlast. done.
      * replace (length acc + 1 + j')%nat with (length acc + S j')%nat by lia.
        destruct (r !! (length acc + S j')%nat) eqn:E; [done|].
        apply lookup_ge_None in E. lia.
Qed.

Lemma normalize_once_shape nhp nhp' :
  normalize_once nhp = Some nhp' ->
  same_shape nhp nhp' /\ normalized nhp' <> 0 /\ (normalized nhp <> 0 -> nhp' = nhp).
Proof.
  unfold normalize_once. destruct (Z.eqb_spec (normalized nhp) 0) as [E|E].
  - destruct (normalize_loop _ _ _) as [h|] eqn:Hn; simpl; [|discriminate].
    intros [= <-]. apply normalize_loop_shape in Hn.
    split; [|split; [simpl; lia | congruence]].
    eapply same_shape_trans; [exact Hn|]. by repeat split.
  - intros [= <-]. split; [apply same_shape_refl | done].
Qed.

(** A normalized histogram array is left alone. *)
Lemma normalize_once_idem nhp nhp' :
  normalize_once nhp = Some nhp' -> normalize_once nhp' = Some nhp'.
Proof.
  intros (_ & Hn & _)%normalize_once_shape. unfold normalize_once.
  by destruct (Z.eqb_spec (normalized nhp') 0).
Qed.

Lemma GetXRange_Returned xl0 xu0 nhp prob r nhp' :
  GetXRange xl0 xu0 nhp prob = Returned r nhp' <->
  normalize_once nhp = Some nhp' /\ 0 <= elems nhp' /\
  range_loop nhp' (prob / 2)%float (1 - prob / 2)%float
             (Z.to_nat (elems nhp')) 0 xl0 xu0 [] = Some r.
Proof.
  unfold GetXRange. destruct (normalize_once nhp) as [h|]; [|split; [done | by intros [? _]]].
  destruct (Z.ltb_spec (elems h) 0).
  - split; [done | intros ([= ->] & ? & _); lia].
  - destruct (range_loop _ _ _ _ _ _ _ _) as [r'|] eqn:Hr.
    + split; [intros [= -> ->]; done | intros ([= ->] & _ & Hr'); congruence].
    + split; [done | intros ([= ->] & _ & Hr'); congruence].
Qed.

(** On a well-formed histogram array the scan of a variable is defined and
    is [scan] on its row. *)
Lemma getrange_scan nhp i pl pu xlo xuo :
  wf nhp -> 0 <= i < elems nhp ->
  getrange nhp i pl pu xlo xuo
  = Some (scan (xl nhp) (deltax nhp) pl pu (row nhp i) 0 0%float false xlo xuo).
Proof.
  intros Hwf Hi. unfold getrange.
  rewrite <- (wf_row_length nhp i Hwf Hi).
  apply getrange_loop_scan. unfold scanned.
  rewrite Z.add_0_r.
  destruct (first_above _ _ _); [apply reads_take|]; apply wf_row_reads;
    destruct Hwf; lia.
Qed.

Lemma range_loop_defined nhp pl pu n ielem xlo xuo acc :
  wf nhp -> 0 <= ielem -> ielem + Z.of_nat n <= elems nhp ->
  is_Some (range_loop nhp pl pu n ielem xlo xuo acc).
Proof.
  intros Hwf. revert ielem xlo xuo acc.
  induction n as [|n IH]; intros ielem xlo xuo acc H0 Hn; simpl; [done|].
  rewrite getrange_scan by (done || lia).
  simpl. destruct (scan _ _ _ _ _ _ _ _ _ _) as [a b]. apply IH; lia.
Qed.

(** [GetXRange] returns as soon as its normalization block is defined. *)
Lemma GetXRange_defined xl0 xu0 nhp prob nhp' :
  wf nhp -> normalize_once nhp = Some nhp' ->
  exists r, GetXRange xl0 xu0 nhp prob = Returned r nhp'.
Proof.
  intros Hwf Hn.
  assert (Hwf' : wf nhp').
  { apply normalize_once_shape in Hn as [? _]. by eapply same_shape_wf. }
  destruct (range_loop_defined nhp' (prob / 2)%float (1 - prob / 2)%float
              (Z.to_nat (elems nhp')) 0 xl0 xu0 [] Hwf') as [r Hr];
    [lia | destruct Hwf' as (? & ? & ? & ?); lia |].
  exists r. apply GetXRange_Returned. destruct Hwf' as (? & ? & ? & ?). done.
Qed.

(** Row [i] of the result is the scan of row [i] of the histogram array,
    started with what the locals carried over. *)
Lemma GetXRange_rows xl0 xu0 nhp prob r nhp' :
  wf nhp -> GetXRange xl0 xu0 nhp prob = Returned r nhp' ->
  length r = Z.to_nat (elems nhp) /\
  forall i, (i < length r)%nat ->
    r !! i = Some (scan (xl nhp) (deltax nhp) (prob / 2)%float (1 - prob / 2)%float
                     (row nhp' (Z.of_nat i)) 0 0%float false
                     (carried xl0 xu0 r i).1 (carried xl0 xu0 r i).2).
Proof.
  intros Hwf (Hn & He & Hr)%GetXRange_Returned.
  apply normalize_once_shape in Hn as (Hsh & _ & _).
  assert (Hwf' : wf nhp') by by eapply same_shape_wf.
  destruct Hsh as (Hxl & _ & _ & _ & Hdx & Hel & _).
  apply range_loop_spec in Hr as (Hlen & _ & Hget). simpl in *.
  rewrite Hel in Hlen. split; [done|].
  intros i Hi. specialize (Hget i ltac:(lia)). simpl in Hget.
  rewrite <- Hget, getrange_scan by (done || lia).
  rewrite Hxl, Hdx. by destruct i.
Qed.



(** Two doubles with different representations are different. *)
Lemma float_neq (x y : float) : Prim2SF x <> Prim2SF y -> x <> y.
Proof. congruence. Qed.

Lemma wf_scenario_hist x0 x5 flag : wf (scenario_hist x0 x5 flag).
Proof. unfold wf. simpl. lia. Qed.

(** The order of the thresholds is what the scan relies on.  Above the
    documented range of the tail probability it is lost: with [prob = 1.5],
    [pLow = 0.75] exceeds [pHigh = 0.25]; on the row
    [0.5, 0, 0, 0, 0, 0.5, 0, ...] the scan stops at bin 0, where the mass
    exceeds [pHigh], and never records the lower bound, although the mass
    first exceeds [pLow] at bin 5. *)
Example getrange_above_one :
  wf (scenario_hist 1 1 0) /\
  normalize_once (scenario_hist 1 1 0) = Some (scenario_hist 0.5 0.5 1) /\
  ~ getrange_claim 7 7 (scenario_hist 1 1 0) 1.5 (scenario_hist 0.5 0.5 1).
Proof.
  split; [apply wf_scenario_hist|]. split; [by vm_compute|].
  intros (r & Hr & _ & Hall). vm_compute in Hr. injection Hr as <-.
  destruct (Hall 0%nat ltac:(simpl; lia)) as (lo & up & Hlu & Hlow & _).
  simpl in Hlu. injection Hlu as <- <-.
  specialize (Hlow 5%nat ltac:(by vm_compute)).
  revert Hlow. apply float_neq. by vm_compute.
Qed.

(** C2. [create(0, 10, 11, 1)] gives bin width 1.0; ten calls of accumulate
    with [5.0] and one with [0.0] leave the row [1,0,0,0,0,10,0,0,0,0,0];
    [getRange(0.2)] then returns [[4.0, 5.0]], whatever its uninitialised
    locals hold. *)
Theorem scenario_range :
  CreateNHArray 0 10 11 1 = Some (inl (scenario_hist 0 0 0)) /\
  GetDeltaX (scenario_hist 0 0 0) = 1%float /\
  update_n 10 (one_sample 5) (scenario_hist 0 0 0) = Some (scenario_hist 0 10 0) /\
  update_n 1 (one_sample 0) (scenario_hist 0 10 0) = Some (scenario_hist 1 10 0) /\
  forall xl0 xu0,
    GetXRange xl0 xu0 (scenario_hist 1 10 0) p02
    = Returned [(4%float, 5%float)] (scenario_hist (1 / 11) (10 / 11) 1).
Proof.
  repeat split; try by vm_compute.
Qed.

(** C9. When the running mass of a variable never exceeds [pHigh], the
    upper bound that [GetXRange] returns for it is what its local [xu]
    carried over: the upper bound returned for the previous variable or,
    for the first variable, the uninitialised contents [xu0]. *)
Theorem upper_bound_unset xl0 xu0 nhp prob r nhp' (i : nat) lo up :
  wf nhp ->
  GetXRange xl0 xu0 nhp prob = Returned r nhp' ->
  r !! i = Some (lo, up) ->
  first_above (1 - prob / 2)%float (row nhp' (Z.of_nat i)) 0%float = None ->
  up = match i with
       | O => xu0
       | S j => match r !! j with Some (_, up') => up' | None => xu0 end
       end.
Proof.
  intros Hwf Hr Hi Hnone.
  destruct (GetXRange_rows _ _ _ _ _ _ Hwf Hr) as [_ Hrows].
  specialize (Hrows i (lookup_lt_Some _ _ _ Hi)). rewrite Hi in Hrows.
  injection Hrows as Hrows.
  pose proof (scan_upper_None (xl nhp) (deltax nhp) (prob / 2)%float _ _ 0 0%float
                false (carried xl0 xu0 r i).1 (carried xl0 xu0 r i).2 Hnone) as Hup.
  rewrite <- Hrows in Hup. simpl in Hup. subst up.
  destruct i as [|j]; [done|]. simpl. by destruct (r !! j) as [[? ?]|].
Qed.

Lemma upper_bound_unset_witness :
  wf (two_hist 10 1 0) /\
  GetXRange 3 7 (two_hist 10 1 0) 0x1p-52
  = Returned [(4%float, 5%float); ((-1)%float, 5%float)] (two_hist 1 (1 / 10) 1) /\
  first_above (1 - 0x1p-52 / 2)%float (row (two_hist 1 (1 / 10) 1) 1) 0%float = None /\
  5%float = match 1%nat with
            | O => 7%float
            | S j => match [(4%float, 5%float); ((-1)%float, 5%float)] !! j with
                     | Some (_, up') => up' | None => 7%float end
            end.
Proof.
  assert (Hwf : wf (two_hist 10 1 0)) by (unfold wf; simpl; lia).
  assert (Hr : GetXRange 3 7 (two_hist 10 1 0) 0x1p-52
               = Returned [(4%float, 5%float); ((-1)%float, 5%float)]
                          (two_hist 1 (1 / 10) 1)) by (vm_compute; reflexivity).
  assert (Hnone : first_above (1 - 0x1p-52 / 2)%float
                    (row (two_hist 1 (1 / 10) 1) (Z.of_nat 1)) 0%float = None)
    by (vm_compute; reflexivity).
  split; [exact Hwf|]. split; [exact Hr|]. split; [exact Hnone|].
  exact (upper_bound_unset 3 7 (two_hist 10 1 0) 0x1p-52
           [(4%float, 5%float); ((-1)%float, 5%float)] (two_hist 1 (1 / 10) 1)
           1%nat (-1) 5 Hwf Hr eq_refl Hnone).
Defined.

(** The two-variable array above is reached from a created one by ten calls
    of [UpdateNHArray]: every sample of variable 0 is a 5, the samples of
    variable 1 are 0 to 9.  After normalization the masses of variable 1
    add up to the double just below 1, which does not exceed
    [pHigh = 1 - 2^-53]: its upper bound is the one of variable 0. *)
Example two_hist_reached :
  CreateNHArray 0 10 11 2 = Some (inl (two_hist 0 0 0)) /\
  update_all (two_samples 5 <$> [0; 1; 2; 3; 4; 5; 6; 7; 8; 9]%float) (two_hist 0 0 0)
  = Some (two_hist 10 1 0) /\
  last (running 0%float (row (two_hist 1 (1 / 10) 1) 1)) = Some 0x1.fffffffffffffp-1%float.
Proof. repeat split; by vm_compute. Qed.

(** For the first variable the value is the one the uninitialised local
    held on entry. *)
Example upper_bound_uninitialised xl0 xu0 :
  GetXRange xl0 xu0 (scenario_hist 1 10 0) 0
  = Returned [((-1)%float, xu0)] (scenario_hist (1 / 11) (10 / 11) 1).
Proof. by vm_compute. Qed.

(** C10 (as amended). When the mass of a variable exceeds [pLow] at bin 0
    already, the lower bound returned for it is [xl + deltax * (0 - 1)],
    that is [xl - deltax] in double arithmetic: the formula is applied
    without keeping [crossingBin - 1] from going below 0. *)
Theorem lower_bound_first_bin xl0 xu0 nhp prob r nhp' (i : nat) lo up :
  wf nhp ->
  GetXRange xl0 xu0 nhp prob = Returned r nhp' ->
  r !! i = Some (lo, up) ->
  first_above (prob / 2)%float (row nhp' (Z.of_nat i)) 0%float = Some 0%nat ->
  lo = (xl nhp' + deltax nhp' * double_of_int (0 - 1))%float /\
  lo = (xl nhp' - deltax nhp')%float.
Proof.
  intros Hwf Hr Hi H0.
  destruct (GetXRange_rows _ _ _ _ _ _ Hwf Hr) as [_ Hrows].
  specialize (Hrows i (lookup_lt_Some _ _ _ Hi)). rewrite Hi in Hrows.
  injection Hrows as Hrows.
  apply GetXRange_Returned in Hr as (Hn & _).
  apply normalize_once_shape in Hn as ((Hxl & _ & _ & _ & Hdx & _) & _).
  pose proof (scan_lower_Some (xl nhp) (deltax nhp) (prob / 2)%float
                (1 - prob / 2)%float _ 0 0%float
                (carried xl0 xu0 r i).1 (carried xl0 xu0 r i).2 0%nat H0
                ltac:(intros; lia)) as Hlo.
  rewrite <- Hrows in Hlo. simpl in Hlo. subst lo.
  rewrite Hxl, Hdx. unfold bound_at. split; [done|].
  change (double_of_int (0 + Z.of_nat 0 - 1)) with (-1)%float.
  by rewrite mul_m1, add_opp.
Qed.

Lemma lower_bound_first_bin_witness :
  wf (scenario_hist 11 0 0) /\
  GetXRange 3 7 (scenario_hist 11 0 0) p02
  = Returned [((-1)%float, 0%float)] (scenario_hist 1 0 1) /\
  first_above (p02 / 2)%float (row (scenario_hist 1 0 1) 0) 0%float = Some 0%nat /\
  (-1)%float = (xl (scenario_hist 1 0 1)
                + deltax (scenario_hist 1 0 1) * double_of_int (0 - 1))%float /\
  (-1)%float = (xl (scenario_hist 1 0 1) - deltax (scenario_hist 1 0 1))%float.
Proof.
  assert (Hr : GetXRange 3 7 (scenario_hist 11 0 0) p02
               = Returned [((-1)%float, 0%float)] (scenario_hist 1 0 1))
    by (vm_compute; reflexivity).
  assert (H0 : first_above (p02 / 2)%float
                 (row (scenario_hist 1 0 1) (Z.of_nat 0)) 0%float = Some 0%nat)
    by (vm_compute; reflexivity).
  split; [apply wf_scenario_hist|]. split; [exact Hr|]. split; [exact H0|].
  exact (lower_bound_first_bin 3 7 (scenario_hist 11 0 0) p02
           [((-1)%float, 0%float)] (scenario_hist 1 0 1) 0%nat (-1) 0
           (wf_scenario_hist 11 0 0) Hr eq_refl H0).
Defined.

(** C10 as stated also says that this bound is strictly below the lower
    edge.  It is not when the bin width is too small to change [xl]: on
    [create(1e18, 1e18 + 128, 11, 1)], whose upper edge is above the lower
    one and whose bin width 12.8 is positive, one sample at the lower edge
    puts all the mass in bin 0, and [getRange(0.2)] returns the lower edge
    itself, [1e18 - 12.8] being [1e18] in doubles. *)
Lemma lower_bound_not_below_edge :
  CreateNHArray 1e18 (1e18 + 128) 11 1 = Some (inl (narrow_hist 0 0)) /\
  (xl (narrow_hist 0 0) <? xu (narrow_hist 0 0))%float = true /\
  (0 <? deltax (narrow_hist 0 0))%float = true /\
  UpdateNHArray (narrow_hist 0 0) (one_sample 1e18) = Returned tt (narrow_hist 1 0) /\
  GetXRange 7 7 (narrow_hist 1 0) p02
  = Returned [(1e18%float, 1e18%float)] (narrow_hist 1 1) /\
  first_above (p02 / 2)%float (row (narrow_hist 1 1) 0) 0%float = Some 0%nat /\
  (1e18 <? xl (narrow_hist 1 1))%float = false.
Proof.
  repeat split; by vm_compute.
Qed.

(** C7 (as amended). A second [GetXRange] with the same tail probability,
    right after the first, leaves the histogram array exactly as the first
    call left it (the rows are normalized by the first call only) and
    returns the same bound wherever the scan writes one: the upper bound of
    a variable whose mass exceeds [pHigh], the lower bound of a variable
    whose mass exceeds [pLow] before the scan stops.  The two results are
    identical when the scan writes both bounds of every variable, and also
    when both calls start with the same contents of the uninitialised
    locals. *)
Theorem getrange_twice xl0 xu0 xl1 xu1 nhp prob r1 nhp1 :
  wf nhp ->
  GetXRange xl0 xu0 nhp prob = Returned r1 nhp1 ->
  exists r2, GetXRange xl1 xu1 nhp1 prob = Returned r2 nhp1 /\
    length r2 = length r1 /\
    (xl1 = xl0 -> xu1 = xu0 -> r2 = r1) /\
    ((forall i : nat, (i < length r1)%nat ->
        both_recorded (prob / 2)%float (1 - prob / 2)%float (row nhp1 (Z.of_nat i))) ->
     r2 = r1) /\
    forall (i : nat) lo1 up1 lo2 up2,
      r1 !! i = Some (lo1, up1) -> r2 !! i = Some (lo2, up2) ->
      let h := row nhp1 (Z.of_nat i) in
      let pl := (prob / 2)%float in
      let pu := (1 - pl)%float in
      (is_Some (first_above pu h 0%float) -> up2 = up1) /\
      ((exists j, first_above pl h 0%float = Some j /\
                  forall k, first_above pu h 0%float = Some k -> (j <= k)%nat) ->
       lo2 = lo1).
Proof.
  intros Hwf Hr1.
  pose proof Hr1 as (Hn & He & Hl)%GetXRange_Returned.
  assert (Hwf1 : wf nhp1).
  { apply normalize_once_shape in Hn as [? _]. by eapply same_shape_wf. }
  pose proof (normalize_once_idem _ _ Hn) as Hn1.
  destruct (GetXRange_defined xl1 xu1 nhp1 prob nhp1 Hwf1 Hn1) as [r2 Hr2].
  exists r2. split; [done|].
  destruct (GetXRange_rows _ _ _ _ _ _ Hwf Hr1) as [Hlen1 Hrows1].
  destruct (GetXRange_rows _ _ _ _ _ _ Hwf1 Hr2) as [Hlen2 Hrows2].
  apply normalize_once_shape in Hn as ((Hxl & _ & _ & _ & Hdx & Hel & _) & _).
  split; [congruence|].
  assert (Hper : forall (i : nat) lo1 up1 lo2 up2,
    r1 !! i = Some (lo1, up1) -> r2 !! i = Some (lo2, up2) ->
    let h := row nhp1 (Z.of_nat i) in
    let pl := (prob / 2)%float in
    let pu := (1 - pl)%float in
    (is_Some (first_above pu h 0%float) -> up2 = up1) /\
    ((exists j, first_above pl h 0%float = Some j /\
                forall k, first_above pu h 0%float = Some k -> (j <= k)%nat) ->
     lo2 = lo1)); [|split; [|split; [|exact Hper]]].
  2:{ intros -> ->.
    assert (GetXRange xl0 xu0 nhp1 prob = Returned r1 nhp1) as Hr1'
      by by apply GetXRange_Returned.
    congruence. }
  2:{ intros Hrec. apply list_eq. intros i.
    destruct (r1 !! i) as [[lo1 up1]|] eqn:Hi1.
    - destruct (lookup_lt_is_Some_2 r2 i) as [[lo2 up2] Hi2].
      { apply lookup_lt_Some in Hi1. lia. }
      rewrite Hi2.
      destruct (Hrec i (lookup_lt_Some _ _ _ Hi1)) as (j & k & Hj & Hk & Hjk).
      destruct (Hper i lo1 up1 lo2 up2 Hi1 Hi2) as [Hup Hlo].
      rewrite Hup by (by exists k). rewrite Hlo; [done|].
      exists j. split; [done|]. intros k'. cbv zeta. rewrite Hk. by intros [= <-].
    - apply lookup_ge_None. apply lookup_ge_None in Hi1. lia. }
  - intros i lo1 up1 lo2 up2 Hi1 Hi2 h pl pu.
    specialize (Hrows1 i (lookup_lt_Some _ _ _ Hi1)).
    specialize (Hrows2 i (lookup_lt_Some _ _ _ Hi2)).
    rewrite Hi1 in Hrows1. rewrite Hi2 in Hrows2.
    injection Hrows1 as Hrows1. injection Hrows2 as Hrows2.
    rewrite Hxl, Hdx in Hrows2. fold h pl pu in Hrows1, Hrows2. split.
    + intros [k Hk].
      pose proof (scan_upper_Some (xl nhp) (deltax nhp) pl pu h 0 0%float false
                    (carried xl0 xu0 r1 i).1 (carried xl0 xu0 r1 i).2 k Hk) as H1.
      pose proof (scan_upper_Some (xl nhp) (deltax nhp) pl pu h 0 0%float false
                    (carried xl1 xu1 r2 i).1 (carried xl1 xu1 r2 i).2 k Hk) as H2.
      rewrite <- Hrows1 in H1. rewrite <- Hrows2 in H2. simpl in *. congruence.
    + intros (j & Hj & Hjk).
      pose proof (scan_lower_Some (xl nhp) (deltax nhp) pl pu h 0 0%float
                    (carried xl0 xu0 r1 i).1 (carried xl0 xu0 r1 i).2 j Hj Hjk) as H1.
      pose proof (scan_lower_Some (xl nhp) (deltax nhp) pl pu h 0 0%float
                    (carried xl1 xu1 r2 i).1 (carried xl1 xu1 r2 i).2 j Hj Hjk) as H2.
      rewrite <- Hrows1 in H1. rewrite <- Hrows2 in H2. simpl in *. congruence.
Qed.

Lemma getrange_twice_witness :
  wf (scenario_hist 1 10 0) /\
  GetXRange 3 7 (scenario_hist 1 10 0) p02
  = Returned [(4%float, 5%float)] (scenario_hist (1 / 11) (10 / 11) 1) /\
  both_recorded (p02 / 2)%float (1 - p02 / 2)%float
                (row (scenario_hist (1 / 11) (10 / 11) 1) 0) /\
  GetXRange 8 9 (scenario_hist (1 / 11) (10 / 11) 1) p02
  = Returned [(4%float, 5%float)] (scenario_hist (1 / 11) (10 / 11) 1).
Proof.
  assert (Hrec : both_recorded (p02 / 2)%float (1 - p02 / 2)%float
                   (row (scenario_hist (1 / 11) (10 / 11) 1) 0)).
  { exists 5%nat, 5%nat. vm_compute. repeat split; reflexivity || lia. }
  split; [apply wf_scenario_hist|]. split; [vm_compute; reflexivity|].
  split; [exact Hrec|].
  destruct (getrange_twice 3 7 8 9 (scenario_hist 1 10 0) p02 [(4%float, 5%float)]
              (scenario_hist (1 / 11) (10 / 11) 1))
    as (r2 & H2 & _ & _ & Hall & _).
  - apply wf_scenario_hist.
  - vm_compute. reflexivity.
  - assert (Hall' : forall i : nat, (i < length [(4%float, 5%float)])%nat ->
              both_recorded (p02 / 2)%float (1 - p02 / 2)%float
                (row (scenario_hist (1 / 11) (10 / 11) 1) (Z.of_nat i))).
    { intros [|i] Hi; [exact Hrec | simpl in Hi; lia]. }
    rewrite <- (Hall Hall'). exact H2.
Defined.

(** C7 as stated fails where a bound is left unset.  With tail probability
    0, [pHigh] is 1 and the mass of the row [1/11, 0, 0, 0, 0, 10/11, 0, ...]
    never exceeds it: each call returns as upper bound what its local [xu]
    held on entry, so two calls that start with different contents (7 and
    then 8) return different results. *)
Lemma getrange_twice_differs :
  GetXRange 7 7 (scenario_hist 1 10 0) 0
  = Returned [((-1)%float, 7%float)] (scenario_hist (1 / 11) (10 / 11) 1) /\
  GetXRange 8 8 (scenario_hist (1 / 11) (10 / 11) 1) 0
  = Returned [((-1)%float, 8%float)] (scenario_hist (1 / 11) (10 / 11) 1) /\
  [((-1)%float, 7%float)] <> [((-1)%float, 8%float)].
Proof.
  split; [by vm_compute|]. split; [by vm_compute|].
  intros H.
  apply (f_equal (fun r => match r !! 0%nat with
                           | Some (_, up) => Prim2SF up
                           | None => S754_nan
                           end)) in H.
  vm_compute in H. discriminate H.
Qed.

(** C5. [UpdateNHArray] raises the state error whenever the histogram array
    is normalized, in particular after any [GetXRange]; on an array that is
    not normalized it raises the shape error whenever the samples are not
    one-dimensional or their number is not [elems]; samples of the wrong
    shape make it fail in every case; and a call that raises leaves the
    histogram array, counters and flag, as it was. *)
Theorem UpdateNHArray_errors nhp a :
  (normalized nhp <> 0 ->
   exists e, UpdateNHArray nhp a = Raised e nhp /\ state_error e) /\
  (forall xl0 xu0 nhp0 prob r, GetXRange xl0 xu0 nhp0 prob = Returned r nhp ->
   exists e, UpdateNHArray nhp a = Raised e nhp /\ state_error e) /\
  (forall d, nd a <> 1 \/ (dimensions a !! 0%nat = Some d /\ d <> elems nhp) ->
   (normalized nhp = 0 ->
    exists e, UpdateNHArray nhp a = Raised e nhp /\ shape_error e) /\
   exists e, UpdateNHArray nhp a = Raised e nhp) /\
  (forall e nhp', UpdateNHArray nhp a = Raised e nhp' ->
   nhp' = nhp /\ (state_error e \/ shape_error e)).
Proof.
  assert (Hstate : normalized nhp <> 0 ->
            exists e, UpdateNHArray nhp a = Raised e nhp /\ state_error e).
  { intros Hn. eexists. split; [|reflexivity]. unfold UpdateNHArray.
    by destruct (Z.eqb_spec (normalized nhp) 0). }
  assert (Hshape : forall d,
            nd a <> 1 \/ (dimensions a !! 0%nat = Some d /\ d <> elems nhp) ->
            normalized nhp = 0 ->
            exists e, UpdateNHArray nhp a = Raised e nhp /\ shape_error e).
  { intros d Hd Hn. unfold UpdateNHArray, shape_error. rewrite Hn. simpl.
    destruct (Z.eqb_spec (nd a) 1) as [E|E]; simpl; [|eauto].
    destruct Hd as [?|[-> Hd]]; [done|].
    destruct (Z.eqb_spec d (elems nhp)); [done | simpl; eauto]. }
  split; [done|]. split; [|split].
  - intros xl0 xu0 nhp0 prob r (Hn & _)%GetXRange_Returned.
    apply Hstate. by apply normalize_once_shape in Hn as (_ & ? & _).
  - intros d Hd. split; [by apply (Hshape d)|].
    destruct (Z.eq_dec (normalized nhp) 0) as [E|E].
    + destruct (Hshape d Hd E) as (e & ? & _). eauto.
    + destruct (Hstate E) as (e & ? & _). eauto.
  - intros e nhp'. unfold UpdateNHArray, state_error, shape_error.
    destruct (negb (normalized nhp =? 0)); [intros [= <- <-]; eauto|].
    destruct (negb (nd a =? 1)); [intros [= <- <-]; eauto|].
    destruct (dimensions a !! 0%nat) as [d|]; [|done].
    destruct (negb (d =? elems nhp)); [intros [= <- <-]; eauto|].
    by destruct (update_loop _ _ _ _).
Qed.

(** The three errors on the scenario: samples for a normalized array, two
    samples for one variable, and a two-dimensional array of samples. *)
Example UpdateNHArray_errors_scenario :
  UpdateNHArray (scenario_hist (1 / 11) (10 / 11) 1) (one_sample 5)
  = Raised (PyExc_ValueError msg_normalized) (scenario_hist (1 / 11) (10 / 11) 1) /\
  UpdateNHArray (scenario_hist 1 10 0) (two_samples 5 5)
  = Raised (PyExc_ValueError msg_dims) (scenario_hist 1 10 0) /\
  UpdateNHArray (scenario_hist 1 10 0) (mkPyArray 2 [1; 1] [5%float])
  = Raised (PyExc_ValueError msg_linear) (scenario_hist 1 10 0).
Proof. repeat split. Qed.

(** ** Rows of the buffer under updates *)

Lemma row_lookup nhp i (j : nat) :
  wf nhp -> 0 <= i < elems nhp -> (j < Z.to_nat (nbins nhp))%nat ->
  row nhp i !! j = dbuffer nhp !! (Z.to_nat (getpdfptr nhp i) + j)%nat.
Proof.
  intros Hwf Hi Hj. unfold row.
  rewrite lookup_take_lt by done. by rewrite lookup_drop.
Qed.

Lemma row_set_dbuffer_same nhp i b v :
  wf nhp -> 0 <= i < elems nhp -> 0 <= b < nbins nhp ->
  row (set_dbuffer nhp (<[Z.to_nat (getpdfptr nhp i + b) := v]> (dbuffer nhp))) i
  = <[Z.to_nat b := v]> (row nhp i).
Proof.
  intros (Hn & He & _ & Hlen) Hi Hb. unfold row, getpdfptr. simpl.
  rewrite drop_insert_ge by nia.
  rewrite take_insert_lt by nia.
  f_equal. nia.
Qed.

Lemma row_set_dbuffer_other nhp i i' b v :
  wf nhp -> 0 <= i < elems nhp -> 0 <= i' < elems nhp -> i' <> i ->
  0 <= b < nbins nhp ->
  row (set_dbuffer nhp (<[Z.to_nat (getpdfptr nhp i + b) := v]> (dbuffer nhp))) i'
  = row nhp i'.
Proof.
  intros (Hn & He & _ & Hlen) Hi Hi' Hne Hb. unfold row, getpdfptr. simpl.
  destruct (Z.lt_ge_cases i i') as [Hlt|Hge].
  - by rewrite drop_insert_lt by nia.
  - rewrite drop_insert_ge by nia. by rewrite take_insert_ge by nia.
Qed.

(** What [updatevalue] does to the buffer: the counter of the sample's bin,
    in the row of variable [i], is incremented, in double arithmetic. *)
Lemma updatevalue_spec nhp i val nhp' :
  wf nhp -> 0 <= i < elems nhp ->
  updatevalue nhp i val = Some nhp' ->
  exists b c,
    bin_index nhp val = Some b /\ 0 <= b < nbins nhp /\
    row nhp i !! Z.to_nat b = Some c /\
    nhp' = set_dbuffer nhp
             (<[Z.to_nat (getpdfptr nhp i + b) := (c + 1)%float]> (dbuffer nhp)).
Proof.
  intros Hwf Hi. pose proof Hwf as (Hn & He & Hm1 & Hlen).
  unfold updatevalue, bin_index.
  destruct (double_to_int _) as [nbin|]; simpl; [|discriminate].
  set (b := if (if nbin <? 0 then 0 else nbin) >? nbinsm1 nhp
            then nbinsm1 nhp else if nbin <? 0 then 0 else nbin).
  destruct (load _ _) as [c|] eqn:Hl; simpl; [|discriminate].
  destruct (store _ _ _) as [buf|] eqn:Hs; simpl; [|discriminate].
  intros [= <-]. apply store_Some in Hs as [Hofs ->].
  apply load_Some in Hl as [_ Hl].
  assert (Hb : 0 <= b < nbins nhp).
  { unfold b in *. unfold getpdfptr in *.
    destruct (Z.ltb_spec nbin 0), (Z.gtb_spec 0 (nbinsm1 nhp)),
      (Z.gtb_spec nbin (nbinsm1 nhp)); nia. }
  exists b, c. split; [done|]. split; [done|]. split; [|done].
  rewrite row_lookup by (done || lia). rewrite <- Hl. f_equal.
  unfold getpdfptr in *. nia.
Qed.

Lemma updatevalue_shape nhp i val nhp' :
  updatevalue nhp i val = Some nhp' ->
  same_shape nhp nhp' /\ normalized nhp' = normalized nhp.
Proof.
  unfold updatevalue.
  destruct (double_to_int _) as [nbin|]; simpl; [|discriminate].
  destruct (load _ _) as [c|]; simpl; [|discriminate].
  destruct (store _ _ _) as [buf|] eqn:Hs; simpl; [|discriminate].
  intros [= <-]. repeat split; simpl. by eapply store_length.
Qed.

Lemma update_loop_shape a n ipt nhp nhp' :
  update_loop a n ipt nhp = Some nhp' ->
  same_shape nhp nhp' /\ normalized nhp' = normalized nhp.
Proof.
  revert ipt nhp. induction n as [|n IH]; intros ipt nhp; simpl.
  - intros [= <-]. split; [apply same_shape_refl | done].
  - destruct (load _ _) as [v|]; simpl; [|discriminate].
    destruct (updatevalue _ _ _) as [h1|] eqn:H1; simpl; [|discriminate].
    intros H. apply IH in H as [? ?]. apply updatevalue_shape in H1 as [? ?].
    split; [by eapply same_shape_trans | congruence].
Qed.

Lemma UpdateNHArray_Returned nhp a nhp' :
  UpdateNHArray nhp a = Returned tt nhp' <->
  normalized nhp = 0 /\ nd a = 1 /\ dimensions a !! 0%nat = Some (elems nhp) /\
  update_loop a (Z.to_nat (elems nhp)) 0 nhp = Some nhp'.
Proof.
  unfold UpdateNHArray.
  destruct (Z.eqb_spec (normalized nhp) 0); simpl; [|split; [done | tauto]].
  destruct (Z.eqb_spec (nd a) 1); simpl; [|split; [done | tauto]].
  destruct (dimensions a !! 0%nat) as [d|]; [|split; [done | by intros (_&_&?&_)]].
  destruct (Z.eqb_spec d (elems nhp)) as [->|]; simpl.
  - destruct (update_loop _ _ _ _) as [h|]; split.
    + by intros [= <-].
    + by intros (_ & _ & _ & [= ->]).
    + done.
    + by intros (_ & _ & _ & ?).
  - split; [done | intros (_ & _ & [= ?] & _); done].
Qed.

(** ** Counting samples *)

Lemma Zsum_insert cs (b : nat) c x :
  cs !! b = Some c -> Zsum (<[b := x]> cs) = Zsum cs - c + x.
Proof.
  revert b. induction cs as [|c0 cs IH]; intros [|b]; simpl; try discriminate.
  - intros [= ->]. lia.
  - intros H. rewrite (IH _ H). lia.
Qed.

Lemma Zsum_nonneg cs : Forall (fun c => 0 <= c) cs -> 0 <= Zsum cs.
Proof. induction 1; simpl; lia. Qed.

Lemma Zsum_lookup_le cs (b : nat) c :
  Forall (fun c => 0 <= c) cs -> cs !! b = Some c -> 0 <= c <= Zsum cs.
Proof.
  intros H. revert b. induction H as [|c0 cs H0 H IH]; intros [|b]; simpl;
    try discriminate.
  - intros [= ->]. pose proof (Zsum_nonneg cs H). lia.
  - intros Hb. specialize (IH _ Hb). lia.
Qed.

Lemma row_total_counts cs :
  Forall (fun c => 0 <= c) cs -> Zsum cs <= 2 ^ 53 ->
  row_total (double_of_int <$> cs) = Some (Zsum cs).
Proof.
  induction 1 as [|c cs Hc H IH]; [done|]. intros Hs.
  pose proof (Zsum_nonneg cs H). rewrite fmap_cons.
  cbn [row_total Zsum foldr] in *. fold (Zsum cs) in *.
  rewrite integral_double_of_int by lia. rewrite IH by lia. done.
Qed.

(** One sample for variable [i]: one counter of its row goes up by one, the
    other rows stay as they are. *)
Lemma updatevalue_tally nhp i val nhp' cs :
  wf nhp -> 0 <= i < elems nhp ->
  holds nhp i cs -> Zsum cs < 2 ^ 53 ->
  updatevalue nhp i val = Some nhp' ->
  (exists (b : nat) c,
     cs !! b = Some c /\ holds nhp' i (<[b := c + 1]> cs) /\
     row nhp' i = <[b := (double_of_int c + 1)%float]> (row nhp i)) /\
  (forall i', 0 <= i' < elems nhp -> i' <> i -> row nhp' i' = row nhp i').
Proof.
  intros Hwf Hi [Hrow Hpos] Hsum Hu.
  destruct (updatevalue_spec _ _ _ _ Hwf Hi Hu) as (b & x & _ & Hb & Hx & ->).
  split.
  - rewrite Hrow, list_lookup_fmap in Hx.
    destruct (cs !! Z.to_nat b) as [c|] eqn:Hc; [|discriminate].
    injection Hx as <-. exists (Z.to_nat b), c. split; [done|].
    pose proof (Zsum_lookup_le _ _ _ Hpos Hc).
    unfold holds. rewrite row_set_dbuffer_same by done.
    split; [|done]. split.
    + rewrite Hrow, list_fmap_insert. f_equal.
      apply double_of_int_succ. lia.
    + apply Forall_insert; [done | lia].
  - intros i' Hi' Hne. by apply row_set_dbuffer_other.
Qed.

Lemma update_loop_bump a n ipt nhp0 nhp nhp' k :
  wf nhp0 -> same_shape nhp0 nhp ->
  0 <= ipt -> ipt + Z.of_nat n = elems nhp0 -> 0 <= k < 2 ^ 53 ->
  tallied nhp0 (fun _ => k) ->
  (forall i, 0 <= i < elems nhp0 ->
     if i <? ipt then bumped nhp0 nhp i k else row nhp i = row nhp0 i) ->
  update_loop a n ipt nhp = Some nhp' ->
  forall i, 0 <= i < elems nhp0 -> bumped nhp0 nhp' i k.
Proof.
  intros Hwf0. revert ipt nhp.
  induction n as [|n IH]; intros ipt nhp Hsh H0 Hn Hk Ht Hinv; simpl.
  - intros [= <-] i Hi. specialize (Hinv i Hi).
    destruct (Z.ltb_spec i ipt); [done | lia].
  - destruct (load _ _) as [v|]; simpl; [|discriminate].
    destruct (updatevalue _ _ _) as [h1|] eqn:H1; simpl; [|discriminate].
    intros Hl.
    assert (Hwf : wf nhp) by by eapply same_shape_wf.
    assert (Hel : elems nhp = elems nhp0) by (by destruct Hsh as (_&_&_&_&_&?&_)).
    destruct (Ht ipt ltac:(lia)) as (cs & [Hrow Hpos] & Hs).
    pose proof (Hinv ipt ltac:(lia)) as Hcur. rewrite Z.ltb_irrefl in Hcur.
    assert (Hcs : holds nhp ipt cs) by (split; [congruence | done]).
    destruct (updatevalue_tally nhp ipt v h1 cs Hwf ltac:(lia) Hcs ltac:(lia) H1)
      as ((b & c & Hc & Hcs' & _) & Hother).
    pose proof (updatevalue_shape _ _ _ _ H1) as [Hsh1 _].
    apply (IH (ipt + 1) h1); [by eapply same_shape_trans | lia | lia | done | done | | exact Hl].
    intros i Hi. specialize (Hinv i Hi).
    destruct (Z.eq_dec i ipt) as [->|Hne].
    + destruct (Z.ltb_spec ipt (ipt + 1)); [|lia].
      exists cs, b, c. split; [by split|]. split; [done|]. by split.
    + rewrite <- (Hother i) in Hinv by lia.
      destruct (Z.ltb_spec i ipt), (Z.ltb_spec i (ipt + 1)); try lia.
      * destruct Hinv as (cs' & b' & c' & ? & ? & ? & [Hr' ?]).
        exists cs', b', c'. split; [done|]. split; [done|]. split; [done|].
        split; [|done]. by rewrite (Hother i) by lia.
      * rewrite (Hother i) in * by lia. done.
Qed.

(** A call of [UpdateNHArray] that returns adds one sample to every row. *)
Lemma UpdateNHArray_bump nhp a nhp' k :
  wf nhp -> 0 <= k < 2 ^ 53 -> tallied nhp (fun _ => k) ->
  UpdateNHArray nhp a = Returned tt nhp' ->
  wf nhp' /\ normalized nhp' = 0 /\ elems nhp' = elems nhp /\
  forall i, 0 <= i < elems nhp -> bumped nhp nhp' i k.
Proof.
  intros Hwf Hk Ht (Hn & _ & _ & Hl)%UpdateNHArray_Returned.
  pose proof (update_loop_shape _ _ _ _ _ Hl) as [Hsh Hn'].
  split; [by eapply same_shape_wf|]. split; [congruence|].
  split; [by destruct Hsh as (_&_&_&_&_&?&_)|].
  apply (update_loop_bump a (Z.to_nat (elems nhp)) 0 nhp nhp nhp' k);
    [done | apply same_shape_refl | lia | | done | done | | done].
  - destruct Hwf as (_ & ? & _). lia.
  - intros i Hi. destruct (Z.ltb_spec i 0); [lia | done].
Qed.

Lemma bumped_tallied nhp nhp' k :
  elems nhp' = elems nhp ->
  (forall i, 0 <= i < elems nhp -> bumped nhp nhp' i k) ->
  tallied nhp' (fun _ => k + 1).
Proof.
  intros He Hb i Hi. rewrite He in Hi.
  destruct (Hb i Hi) as (cs & b & c & _ & Hs & Hc & Hh).
  exists (<[b := c + 1]> cs). split; [done|].
  rewrite (Zsum_insert _ _ _ _ Hc). lia.
Qed.

Lemma row_replicate nhp i x :
  wf nhp -> 0 <= i < elems nhp ->
  dbuffer nhp = replicate (length (dbuffer nhp)) x ->
  row nhp i = replicate (Z.to_nat (nbins nhp)) x.
Proof.
  intros (Hn & He & _ & Hlen) Hi Hb. unfold row, getpdfptr. rewrite Hb.
  rewrite drop_replicate, take_replicate. f_equal. nia.
Qed.

(** A created histogram array holds no sample; it is well formed unless it
    has no variable at all. *)
Lemma CreateNHArray_tallied x0 x1 n e nhp :
  CreateNHArray x0 x1 n e = Some (inl nhp) ->
  normalized nhp = 0 /\
  (elems nhp <= 0 \/ (wf nhp /\ tallied nhp (fun _ => 0))).
Proof.
  intros Hc. pose proof Hc as Hc'. revert Hc'. unfold CreateNHArray, calloc.
  destruct (sint (n - 1)) as [m1|]; simpl; [|discriminate].
  destruct (sint (e * n)) as [k|] eqn:Hk; simpl; [|discriminate].
  unfold sint in Hk. destruct (fits_int (e * n)); [|discriminate].
  injection Hk as <-.
  destruct (Z.ltb_spec (e * n) 0); [discriminate|].
  intros [= <-]. simpl. split; [done|].
  destruct (Z.le_gt_cases e 0) as [?|He]; [by left | right].
  assert (Hn : 0 <= n) by nia.
  assert (He' : 0 <= e) by lia.
  pose proof (CreateNHArray_wf _ _ _ _ _ Hn He' Hc) as Hwf.
  split; [done|]. intros i Hi. simpl in Hi.
  exists (replicate (Z.to_nat n) 0). split; [split|].
  - rewrite (row_replicate _ i 0%float Hwf Hi); simpl.
    + by rewrite fmap_replicate.
    + by rewrite length_replicate.
  - by apply Forall_replicate.
  - clear. induction (Z.to_nat n) as [|m IH]; simpl; [done | by rewrite IH].
Qed.

Lemma accumulated_tallied nhp0 k nhp :
  normalized nhp0 = 0 ->
  elems nhp0 <= 0 \/ (wf nhp0 /\ tallied nhp0 (fun _ => 0)) ->
  accumulated nhp0 k nhp ->
  Z.of_nat k <= 2 ^ 53 ->
  normalized nhp = 0 /\
  (elems nhp <= 0 \/ (wf nhp /\ tallied nhp (fun _ => Z.of_nat k))).
Proof.
  intros Hn0 H0 Hacc. induction Hacc as [nhp0|nhp0 k nhp1 a nhp2 Hacc IH Hu];
    intros Hk; [done|].
  destruct (IH Hn0 H0 ltac:(lia)) as [Hn1 H1].
  destruct H1 as [He|[Hwf Ht]].
  - apply UpdateNHArray_Returned in Hu as (_ & _ & _ & Hl).
    apply update_loop_shape in Hl as [(_&_&_&_&_&He'&_) Hn2].
    split; [congruence | left; lia].
  - destruct (UpdateNHArray_bump _ _ _ (Z.of_nat k) Hwf ltac:(lia) Ht Hu)
      as (Hwf2 & Hn2 & He2 & Hb).
    split; [done|]. right. split; [done|].
    replace (Z.of_nat (S k)) with (Z.of_nat k + 1) by lia.
    by eapply bumped_tallied.
Qed.

(** C4 (as amended). From a created histogram array, after [k] calls of
    [UpdateNHArray] that returned, whatever the samples, with [k] at most
    [2^53]: the flag is still unset and the counters of every row are
    integers whose sum is exactly [k]; and, with [k] below [2^53], one more
    call that returns changes exactly one counter of every row, from an
    integer [n] to [n + 1]. *)
Theorem accumulate_counts x0 x1 n e nhp0 k nhp :
  CreateNHArray x0 x1 n e = Some (inl nhp0) ->
  accumulated nhp0 k nhp ->
  Z.of_nat k <= 2 ^ 53 ->
  normalized nhp = 0 /\
  (forall i, 0 <= i < elems nhp -> row_total (row nhp i) = Some (Z.of_nat k)) /\
  (forall a nhp', Z.of_nat k < 2 ^ 53 ->
     UpdateNHArray nhp a = Returned tt nhp' ->
     forall i, 0 <= i < elems nhp ->
       exists (b : nat) c m,
         row nhp i !! b = Some c /\ integral c = Some m /\
         row nhp' i = <[b := (c + 1)%float]> (row nhp i) /\
         integral (c + 1)%float = Some (m + 1)).
Proof.
  intros Hc Hacc Hk.
  destruct (CreateNHArray_tallied _ _ _ _ _ Hc) as [Hn0 H0].
  destruct (accumulated_tallied _ _ _ Hn0 H0 Hacc Hk) as [Hn H].
  split; [done|]. destruct H as [He|[Hwf Ht]]; [split; intros; lia|]. split.
  - intros i Hi. destruct (Ht i Hi) as (cs & [-> Hpos] & Hs).
    rewrite row_total_counts by (done || lia). by rewrite Hs.
  - intros a nhp' Hk' Hu i Hi.
    destruct (UpdateNHArray_bump _ _ _ (Z.of_nat k) Hwf ltac:(lia) Ht Hu)
      as (_ & _ & _ & Hb).
    destruct (Hb i Hi) as (cs & b & c & [Hr Hpos] & Hs & Hcb & [Hr' _]).
    pose proof (Zsum_lookup_le _ _ _ Hpos Hcb).
    exists b, (double_of_int c), c. split; [|split; [|split]].
    + by rewrite Hr, list_lookup_fmap, Hcb.
    + apply integral_double_of_int. lia.
    + rewrite Hr', Hr, list_fmap_insert. f_equal. symmetry.
      apply double_of_int_succ. lia.
    + rewrite double_of_int_succ by lia. apply integral_double_of_int. lia.
Qed.

Lemma accumulate_counts_witness :
  CreateNHArray 0 10 11 1 = Some (inl (scenario_hist 0 0 0)) /\
  accumulated (scenario_hist 0 0 0) 2 (scenario_hist 1 1 0) /\
  Z.of_nat 2 <= 2 ^ 53 /\
  normalized (scenario_hist 1 1 0) = 0 /\
  forall i, 0 <= i < elems (scenario_hist 1 1 0) ->
    row_total (row (scenario_hist 1 1 0) i) = Some (Z.of_nat 2).
Proof.
  assert (Hc : CreateNHArray 0 10 11 1 = Some (inl (scenario_hist 0 0 0)))
    by (vm_compute; reflexivity).
  assert (Ha : accumulated (scenario_hist 0 0 0) 2 (scenario_hist 1 1 0)).
  { apply (accumulated_S _ 1 (scenario_hist 0 1 0) (one_sample 0));
      [|vm_compute; reflexivity].
    apply (accumulated_S _ 0 (scenario_hist 0 0 0) (one_sample 5));
      [|vm_compute; reflexivity].
    apply accumulated_O. }
  assert (Hk : Z.of_nat 2 <= 2 ^ 53) by (vm_compute; discriminate).
  destruct (accumulate_counts 0 10 11 1 (scenario_hist 0 0 0) 2 (scenario_hist 1 1 0)
              Hc Ha Hk) as (Hn & Hsum & _).
  split; [exact Hc|]. split; [exact Ha|]. split; [exact Hk|].
  split; [exact Hn | exact Hsum].
Defined.

(** In the scenario, one more sample [5.0] increments the counter of bin 5,
    whatever it holds. *)
Lemma UpdateNHArray_scenario x0 x5 :
  UpdateNHArray (scenario_hist x0 x5 0) (one_sample 5)
  = Returned tt (scenario_hist x0 (x5 + 1) 0).
Proof. vm_compute. reflexivity. Qed.

Lemma accumulated_scenario (k : nat) :
  Z.of_nat k <= 2 ^ 53 ->
  accumulated (scenario_hist 0 0 0) k
              (scenario_hist 0 (double_of_int (Z.of_nat k)) 0).
Proof.
  induction k as [|k IH]; intros Hk.
  - apply accumulated_O.
  - eapply accumulated_S; [apply IH; lia|].
    rewrite UpdateNHArray_scenario, double_of_int_succ by lia.
    do 3 f_equal. lia.
Qed.

(** C4 as stated, for every [k], fails beyond [2^53]: a counter is a double,
    and a double that holds [2^53] is not changed by adding one.  After
    [2^53 + 1] calls with the sample [5.0], all of which return, the counter
    of bin 5 holds [2^53] and the row adds up to [2^53], not [2^53 + 1]. *)
Lemma accumulate_counts_saturate :
  accumulated (scenario_hist 0 0 0) (Z.to_nat (2 ^ 53 + 1))
              (scenario_hist 0 9007199254740992 0) /\
  row_total (row (scenario_hist 0 9007199254740992 0) 0) = Some (2 ^ 53) /\
  2 ^ 53 <> Z.of_nat (Z.to_nat (2 ^ 53 + 1)).
Proof.
  split; [|split].
  - replace (Z.to_nat (2 ^ 53 + 1)) with (S (Z.to_nat (2 ^ 53))) by lia.
    eapply accumulated_S; [apply accumulated_scenario; lia|].
    rewrite UpdateNHArray_scenario, Z2Nat.id by lia.
    vm_compute. reflexivity.
  - by vm_compute.
  - lia.
Qed.

(** ** Normalization *)

Lemma sum_loop_row b thepdf r nbin Nx :
  reads b (thepdf + nbin) r ->
  sum_loop b thepdf (length r) nbin Nx = sum_row r Nx.
Proof.
  revert nbin Nx. induction r as [|c r IH]; intros nbin Nx; simpl; [done|].
  intros [Hc Hr]%reads_cons. rewrite Hc. simpl.
  destruct (double_to_int _) as [Nx'|]; simpl; [|done].
  apply IH. by rewrite Z.add_assoc.
Qed.

Lemma div_loop_lookup b thepdf n nbin Nx :
  0 <= thepdf + nbin -> thepdf + nbin + Z.of_nat n <= Z.of_nat (length b) ->
  exists b', div_loop b thepdf n nbin Nx = Some b' /\
    forall j : nat,
      b' !! j = if decide (Z.to_nat (thepdf + nbin) <= j < Z.to_nat (thepdf + nbin) + n)%nat
                then (fun c => c / double_of_int Nx)%float <$> b !! j
                else b !! j.
Proof.
  revert b nbin. induction n as [|n IH]; intros b nbin H0 Hn; simpl.
  - exists b. split; [done|]. intros j. case_decide; [lia | done].
  - destruct (lookup_lt_is_Some_2 b (Z.to_nat (thepdf + nbin)) ltac:(lia)) as [c Hc].
    assert (Hl : load b (thepdf + nbin) = Some c) by (apply load_Some; done).
    rewrite Hl. simpl. unfold store.
    destruct (Z.leb_spec 0 (thepdf + nbin)); [|lia].
    destruct (Z.ltb_spec (thepdf + nbin) (Z.of_nat (length b))); [|lia]. simpl.
    destruct (IH (<[Z.to_nat (thepdf + nbin) := (c / double_of_int Nx)%float]> b)
                 (nbin + 1)) as (b' & Hb' & Hlook).
    { lia. } { rewrite length_insert. lia. }
    exists b'. split; [done|]. intros j. rewrite Hlook.
    replace (Z.to_nat (thepdf + (nbin + 1))) with (S (Z.to_nat (thepdf + nbin))) by lia.
    destruct (decide (j = Z.to_nat (thepdf + nbin))) as [->|Hne].
    + rewrite list_lookup_insert_eq by lia. rewrite Hc.
      repeat case_decide; try lia. done.
    + rewrite list_lookup_insert_ne by done.
      repeat case_decide; try lia; done.
Qed.

(** [normalizepdf] on a row whose sum [N], as the source computes it, is
    defined: every entry of the row is divided by [N], the other rows are
    left as they are.  Nothing is asked of [N]. *)
Lemma normalizepdf_row nhp i N :
  wf nhp -> 0 <= i < elems nhp ->
  sum_row (row nhp i) 0 = Some N ->
  exists nhp', normalizepdf nhp i = Some nhp' /\
    row nhp' i = (fun c => c / double_of_int N)%float <$> row nhp i /\
    forall i', 0 <= i' < elems nhp -> i' <> i -> row nhp' i' = row nhp i'.
Proof.
  intros Hwf Hi HN. pose proof Hwf as (Hn & He & _ & Hlen).
  assert (Hsum : sum_loop (dbuffer nhp) (getpdfptr nhp i)
                   (Z.to_nat (nbins nhp)) 0 0 = Some N).
  { rewrite <- (wf_row_length nhp i Hwf Hi), sum_loop_row; [done|].
    rewrite Z.add_0_r. apply wf_row_reads; lia. }
  unfold normalizepdf. rewrite Hsum. simpl.
  destruct (div_loop_lookup (dbuffer nhp) (getpdfptr nhp i)
              (Z.to_nat (nbins nhp)) 0 N) as (b' & Hb' & Hlook).
  { unfold getpdfptr. nia. } { unfold getpdfptr. nia. }
  rewrite Hb'. simpl. eexists. split; [done|].
  assert (Hlen' : length b' = length (dbuffer nhp)) by by eapply div_loop_length.
  assert (Hwf' : wf (set_normalized (set_dbuffer nhp b') 1)).
  { unfold wf. simpl. rewrite Hlen'. done. }
  rewrite Z.add_0_r in Hlook.
  assert (Hofs : forall i', 0 <= i' < elems nhp -> 0 <= getpdfptr nhp i')
    by (intros; unfold getpdfptr; nia).
  split.
  - apply list_eq. intros j. rewrite list_lookup_fmap.
    destruct (decide (j < Z.to_nat (nbins nhp))%nat) as [Hj|Hj].
    + rewrite (row_lookup _ i j Hwf') by done.
      rewrite (row_lookup _ i j Hwf) by done. simpl.
      change (getpdfptr (set_normalized (set_dbuffer nhp b') 1) i)
        with (getpdfptr nhp i).
      rewrite Hlook. case_decide; [done | lia].
    + rewrite !lookup_ge_None_2; [done | |].
      * rewrite wf_row_length by done. lia.
      * rewrite (wf_row_length _ i Hwf') by done. simpl. lia.
  - intros i' Hi' Hne. apply list_eq. intros j.
    destruct (decide (j < Z.to_nat (nbins nhp))%nat) as [Hj|Hj].
    + rewrite (row_lookup _ i' j Hwf') by done.
      rewrite (row_lookup _ i' j Hwf) by done. simpl.
      change (getpdfptr (set_normalized (set_dbuffer nhp b') 1) i')
        with (getpdfptr nhp i').
      rewrite Hlook. case_decide; [|done].
      pose proof (Hofs i Hi). pose proof (Hofs i' Hi').
      unfold getpdfptr in *. nia.
    + rewrite !lookup_ge_None_2; [done | |].
      * rewrite wf_row_length by done. lia.
      * rewrite (wf_row_length _ i' Hwf') by done. simpl. lia.
Qed.

(** Dividing by zero gives a NaN or an infinity, never an error. *)
Lemma div_by_zero (c : float) :
  (c / 0)%float = nan \/ (c / 0)%float = infinity \/ (c / 0)%float = neg_infinity.
Proof.
  rewrite <- (SF2Prim_Prim2SF (c / 0)%float), FloatAxioms.div_spec.
  change (Prim2SF 0) with (S754_zero false). unfold SF64div.
  destruct (Prim2SF c) as [s|s| |s m e]; simpl; auto; destruct s; simpl; auto.
Qed.

Lemma sum_row_counts cs Nx :
  Forall (fun c => 0 <= c) cs -> 0 <= Nx -> Nx + Zsum cs <= INT_MAX ->
  sum_row (double_of_int <$> cs) Nx = Some (Nx + Zsum cs).
Proof.
  intros H. revert Nx. induction H as [|c cs Hc H IH]; intros Nx HN Hs.
  - simpl. f_equal. lia.
  - rewrite fmap_cons. cbn [sum_row Zsum foldr] in *. fold (Zsum cs) in *.
    pose proof (Zsum_nonneg cs H). unfold INT_MAX in *.
    rewrite double_of_int_add by lia.
    rewrite double_to_int_of_int by (unfold INT_MAX; lia). simpl.
    rewrite IH by lia. f_equal. lia.
Qed.

Lemma Zsum_zero cs :
  Forall (fun c => 0 <= c) cs -> Zsum cs = 0 -> cs = replicate (length cs) 0.
Proof.
  induction 1 as [|c cs Hc H IH]; simpl; [done|]. intros Hs.
  pose proof (Zsum_nonneg cs H). rewrite <- IH by lia. f_equal. lia.
Qed.

Lemma GetXRange_not_Raised xl0 xu0 nhp prob e nhp' :
  GetXRange xl0 xu0 nhp prob <> Raised e nhp'.
Proof.
  unfold GetXRange. destruct (normalize_once nhp) as [h|]; [|done].
  destruct (elems h <? 0); [done|].
  by destruct (range_loop _ _ _ _ _ _ _ _).
Qed.

(** [normalizepdf] does not look at the divisor.  When the [int] sum [N] of
    the row is defined (for a row of counts it is, and is their sum, as long
    as that sum is an [int]), the entries of the new row are the old ones
    divided by [N]; when [N] is 0 they are NaN or infinite, all NaN for a row
    without a sample; and no error is ever raised, neither here nor by
    [GetXRange]. *)
Lemma normalizepdf_unguarded nhp i :
  wf nhp -> 0 <= i < elems nhp ->
  (forall cs, holds nhp i cs -> Zsum cs <= INT_MAX ->
     sum_row (row nhp i) 0 = Some (Zsum cs)) /\
  (forall N, sum_row (row nhp i) 0 = Some N ->
     exists nhp', normalizepdf nhp i = Some nhp' /\
       row nhp' i = (fun c => c / double_of_int N)%float <$> row nhp i /\
       (N = 0 ->
        Forall (fun x => x = nan \/ x = infinity \/ x = neg_infinity) (row nhp' i))) /\
  (forall cs, holds nhp i cs -> Zsum cs = 0 ->
     exists nhp', normalizepdf nhp i = Some nhp' /\
       row nhp' i = replicate (Z.to_nat (nbins nhp)) nan) /\
  (forall xl0 xu0 prob e nhp', GetXRange xl0 xu0 nhp prob <> Raised e nhp').
Proof.
  intros Hwf Hi.
  assert (Hsum : forall cs, holds nhp i cs -> Zsum cs <= INT_MAX ->
            sum_row (row nhp i) 0 = Some (Zsum cs)).
  { intros cs [-> Hpos] Hs. by rewrite sum_row_counts by (done || lia). }
  split; [done|]. split; [|split].
  - intros N HN.
    destruct (normalizepdf_row nhp i N Hwf Hi HN) as (nhp' & Hn & Hrow & _).
    exists nhp'. split; [done|]. split; [done|].
    intros ->. rewrite Hrow. apply Forall_fmap, Forall_true.
    intros c. apply div_by_zero.
  - intros cs Hcs Hs. pose proof Hcs as [Hr Hpos].
    pose proof (Hsum cs Hcs ltac:(unfold INT_MAX; lia)) as HN. rewrite Hs in HN.
    destruct (normalizepdf_row nhp i 0 Hwf Hi HN) as (nhp' & Hn & Hrow & _).
    exists nhp'. split; [done|].
    rewrite Hrow, Hr, (Zsum_zero cs Hpos Hs), !fmap_replicate.
    rewrite <- (wf_row_length nhp i Hwf Hi), Hr, length_fmap. done.
  - intros. apply GetXRange_not_Raised.
Qed.

(** The row without a sample of the scenario: [N] is 0 and every entry
    becomes a NaN. *)
Example normalizepdf_empty_row :
  normalizepdf (scenario_hist 0 0 0) 0
  = Some (mkNHArray 0 10 11 10 1 1 (replicate 11 nan) 1).
Proof. by vm_compute. Qed.

(** ** Where the source conversions are not defined *)

(** C3. The sample [1e10] is above the upper edge 10 of the scenario and
    should go to the last bin, 10.  [updatevalue] converts the rounded
    quotient, [1e10], to [int] before it brings the index into
    [0 .. nbinsm1]; [1e10] is not an [int], the conversion has no defined
    result, and neither has the call.  The same holds for an infinite sample
    and for a NaN. *)
Theorem updatevalue_out_of_int_range :
  bin_index (scenario_hist 0 0 0) 1e10 = None /\
  rint ((1e10 - xl (scenario_hist 0 0 0)) / deltax (scenario_hist 0 0 0)) = 1e10%float /\
  double_to_int 1e10 = None /\
  UpdateNHArray (scenario_hist 0 0 0) (one_sample 1e10) = Undefined /\
  UpdateNHArray (scenario_hist 0 0 0) (one_sample infinity) = Undefined /\
  UpdateNHArray (scenario_hist 0 0 0) (one_sample nan) = Undefined.
Proof. repeat split; by vm_compute. Qed.

(** Samples whose rounded quotient is an [int] do go to the bin the claim
    names: the sample at the lower edge to bin 0, the sample at the upper
    edge to the last bin, samples beyond the edges to the nearest edge bin. *)
Example bin_index_scenario :
  bin_index (scenario_hist 0 0 0) 0 = Some 0 /\
  bin_index (scenario_hist 0 0 0) 10 = Some 10 /\
  bin_index (scenario_hist 0 0 0) 2.5 = Some 2 /\
  bin_index (scenario_hist 0 0 0) 3.5 = Some 4 /\
  bin_index (scenario_hist 0 0 0) (-7) = Some 0 /\
  bin_index (scenario_hist 0 0 0) 1e9 = Some 10.
Proof. repeat split; by vm_compute. Qed.

(** C6. After [2^31] calls with the sample [5.0], all of which return, the
    counter of bin 5 holds [2^31].  [normalizepdf] adds the row up in an
    [int]: the sum [2^31] is not an [int], the conversion has no defined
    result, and [GetXRange] has none either, whatever the tail probability:
    the row is not brought to sum 1. *)
Theorem normalizepdf_int_overflow :
  accumulated (scenario_hist 0 0 0) (Z.to_nat (2 ^ 31))
              (scenario_hist 0 2147483648 0) /\
  sum_row (row (scenario_hist 0 2147483648 0) 0) 0 = None /\
  normalizepdf (scenario_hist 0 2147483648 0) 0 = None /\
  forall xl0 xu0 prob,
    GetXRange xl0 xu0 (scenario_hist 0 2147483648 0) prob = Undefined.
Proof.
  split; [|repeat split; intros; by vm_compute].
  pose proof (accumulated_scenario (Z.to_nat (2 ^ 31)) ltac:(lia)) as H.
  rewrite Z2Nat.id in H by lia.
  replace (double_of_int (2 ^ 31)) with 2147483648%float in H by (by vm_compute).
  exact H.
Qed.

(** C8. [2^31] calls with the sample [5.0], all of which return, leave a
    row of counts that add up to [N = 2^31 > 0].  [normalizepdf] adds the
    row up in an [int]: when it reaches bin 5 the sum [0 + 2^31] is not an
    [int], the divisor has no defined value, and the entries of the row are
    not divided by [N]: no histogram array is the result of the call.  With
    one call less, [N = 2^31 - 1] is the largest [int] and every entry is
    divided by [N].  A row without a sample is divided by 0 and becomes
    NaN, without an error. *)
Theorem normalizepdf_divisor_overflow :
  accumulated (scenario_hist 0 0 0) (Z.to_nat (2 ^ 31))
              (scenario_hist 0 2147483648 0) /\
  holds (scenario_hist 0 2147483648 0) 0 [0; 0; 0; 0; 0; 2 ^ 31; 0; 0; 0; 0; 0] /\
  0 < Zsum [0; 0; 0; 0; 0; 2 ^ 31; 0; 0; 0; 0; 0] /\
  double_to_int (double_of_int 0 + 2147483648)%float = None /\
  (forall nhp', normalizepdf (scenario_hist 0 2147483648 0) 0 <> Some nhp') /\
  normalizepdf (scenario_hist 0 2147483647 0) 0
  = Some (set_normalized
            (set_dbuffer (scenario_hist 0 2147483647 0)
               ((fun c => c / double_of_int (2 ^ 31 - 1))%float
                  <$> dbuffer (scenario_hist 0 2147483647 0))) 1) /\
  normalizepdf (scenario_hist 0 0 0) 0
  = Some (set_normalized
            (set_dbuffer (scenario_hist 0 0 0) (replicate 11 nan)) 1).
Proof.
  split.
  { pose proof (accumulated_scenario (Z.to_nat (2 ^ 31)) ltac:(lia)) as H.
    rewrite Z2Nat.id in H by lia.
    replace (double_of_int (2 ^ 31)) with 2147483648%float in H by (by vm_compute).
    exact H. }
  split.
  { split; [by vm_compute|]. repeat constructor; lia. }
  split; [by vm_compute|]. split; [by vm_compute|].
  split; [intros nhp'; by vm_compute|].
  split; by vm_compute.
Qed.

(** ** The first [GetXRange] on a histogram array of counts *)

Lemma normalizepdf_wf nhp i nhp' : wf nhp -> normalizepdf nhp i = Some nhp' -> wf nhp'.
Proof. intros Hwf [Hsh _]%normalizepdf_shape. by eapply same_shape_wf. Qed.

(** [normalize_loop] from variable [ielem] on: the rows of the variables it
    visits are divided by their sums, the others are left as they are. *)
Lemma normalize_loop_rows (f : Z -> Z) n ielem nhp :
  wf nhp -> 0 <= ielem -> ielem + Z.of_nat n <= elems nhp ->
  (forall i, ielem <= i < ielem + Z.of_nat n -> sum_row (row nhp i) 0 = Some (f i)) ->
  exists nhp', normalize_loop n ielem nhp = Some nhp' /\
    forall i, 0 <= i < elems nhp ->
      row nhp' i = if decide (ielem <= i < ielem + Z.of_nat n)
                   then (fun c => c / double_of_int (f i))%float <$> row nhp i
                   else row nhp i.
Proof.
  revert ielem nhp. induction n as [|n IH]; intros ielem nhp Hwf H0 Hn Hsum; simpl.
  - exists nhp. split; [done|]. intros i Hi. case_decide; [lia | done].
  - destruct (normalizepdf_row nhp ielem (f ielem) Hwf ltac:(lia)
                (Hsum ielem ltac:(lia))) as (h1 & Hh1 & Hrow & Hother).
    rewrite Hh1. simpl.
    pose proof (normalizepdf_shape _ _ _ Hh1) as [(_&_&_&_&_&Hel&_) _].
    destruct (IH (ielem + 1) h1) as (nhp' & Hn' & Hrows).
    { by eapply normalizepdf_wf. } { lia. } { lia. }
    { intros i Hi. rewrite Hother by lia. apply Hsum. lia. }
    exists nhp'. split; [done|]. intros i Hi.
    rewrite Hrows by lia.
    destruct (Z.eq_dec i ielem) as [->|Hne].
    + rewrite Hrow. repeat case_decide; try lia. done.
    + rewrite Hother by lia. repeat case_decide; try lia; done.
Qed.

(** On a histogram array in which every row holds [k] samples, [k] an
    [int], the first [GetXRange] is defined: it sets the flag and replaces
    every count [c] by the double [c / k]. *)
Lemma normalize_once_tallied nhp k :
  wf nhp -> normalized nhp = 0 -> 0 <= k <= INT_MAX -> tallied nhp (fun _ => k) ->
  exists nhp', normalize_once nhp = Some nhp' /\ normalized nhp' = 1 /\
    forall i cs, 0 <= i < elems nhp -> holds nhp i cs ->
      row nhp' i = (fun c => double_of_int c / double_of_int k)%float <$> cs.
Proof.
  intros Hwf Hn Hk Ht. pose proof Hwf as (_ & He & _).
  assert (Hsum : forall i, 0 <= i < 0 + Z.of_nat (Z.to_nat (elems nhp)) ->
            sum_row (row nhp i) 0 = Some k).
  { intros i Hi. destruct (Ht i ltac:(lia)) as (cs & [-> Hpos] & Hs).
    rewrite sum_row_counts by (done || lia). f_equal. lia. }
  destruct (normalize_loop_rows (fun _ => k) (Z.to_nat (elems nhp)) 0 nhp Hwf
              ltac:(lia) ltac:(lia) Hsum) as (h & Hh & Hrows).
  unfold normalize_once. rewrite Hn. simpl. rewrite Hh. simpl.
  eexists. split; [done|]. split; [done|].
  intros i cs Hi [Hr _].
  change (row (set_normalized h 1) i) with (row h i).
  rewrite Hrows by done. case_decide; [|lia].
  rewrite Hr, <- list_fmap_compose. done.
Qed.

(** [GetXRange] returns on every histogram array reached from a created one
    by at most [INT_MAX] calls of [UpdateNHArray]. *)
Lemma GetXRange_total x0 x1 n e nhp0 k nhp xl0 xu0 prob :
  0 <= n -> 0 <= e ->
  CreateNHArray x0 x1 n e = Some (inl nhp0) ->
  accumulated nhp0 k nhp ->
  Z.of_nat k <= INT_MAX ->
  exists r nhp', GetXRange xl0 xu0 nhp prob = Returned r nhp'.
Proof.
  intros Hn He Hc Hacc Hk. unfold INT_MAX in Hk.
  destruct (CreateNHArray_tallied _ _ _ _ _ Hc) as [Hn0 H0].
  destruct (accumulated_tallied _ _ _ Hn0 H0 Hacc ltac:(lia)) as [Hflag H].
  destruct H as [Hel|[Hwf Ht]].
  - (* no variable at all *)
    assert (Hwf0 : wf nhp0) by exact (CreateNHArray_wf _ _ _ _ _ Hn He Hc).
    assert (Hwf : wf nhp).
    { clear -Hacc Hwf0. induction Hacc as [|? ? ? ? ? ? IH Hu]; [done|].
      apply UpdateNHArray_Returned in Hu as (_ & _ & _ & Hl).
      apply update_loop_shape in Hl as [Hsh _]. eapply same_shape_wf; eauto. }
    assert (Hno : normalize_once nhp = Some (set_normalized nhp 1)).
    { unfold normalize_once. rewrite Hflag. simpl.
      destruct Hwf as (_ & ? & _). by replace (elems nhp) with 0 by lia. }
    destruct (GetXRange_defined xl0 xu0 nhp prob _ Hwf Hno) as [r Hr]. eauto.
  - destruct (normalize_once_tallied nhp (Z.of_nat k) Hwf Hflag
                ltac:(unfold INT_MAX; lia) Ht) as (nhp' & Hno & _).
    destruct (GetXRange_defined xl0 xu0 nhp prob _ Hwf Hno) as [r Hr]. eauto.
Qed.

(** ** The mass of a normalized row *)

Lemma Zdigits2_53 q : 2 ^ 52 <= q < 2 ^ 53 -> Zdigits2 q = 53.
Proof.
  intros Hq. destruct q as [|p|p]; try lia. simpl.
  apply digits2_pos_unique. lia.
Qed.

Lemma Zdigits2_54 q : 2 ^ 53 <= q < 2 ^ 54 -> Zdigits2 q = 54.
Proof.
  intros Hq. destruct q as [|p|p]; try lia. simpl.
  apply digits2_pos_unique. lia.
Qed.

Lemma shr_1_m mrs : 0 <= shr_m mrs -> shr_m (shr_1 mrs) = shr_m mrs / 2.
Proof.
  destruct mrs as [m r s]. cbn [shr_m]. intros Hm.
  destruct m as [|[p|p|]|p]; cbn [shr_1 shr_m]; try lia.
  - done.
  - rewrite Pos2Z.inj_xI. apply Z.div_unique with 1; lia.
  - rewrite Pos2Z.inj_xO. apply Z.div_unique with 0; lia.
  - done.
Qed.

Lemma round_nearest_even_bounds m l :
  m <= round_nearest_even m l <= m + 1.
Proof.
  unfold round_nearest_even. destruct l as [|[| |]]; try lia.
  destruct (IntDef.Z.even m); lia.
Qed.

Lemma shr_record_of_loc_m m l : shr_m (shr_record_of_loc m l) = m.
Proof. by destruct l as [|[| |]]. Qed.

(** Rounding a quotient of 53 or 54 digits: the result is finite and its
    mantissa, at the new exponent, is within 4 units of the quotient. *)
Lemma binary_round_aux_near s q e l :
  2 ^ 52 <= q < 2 ^ 54 -> -1021 <= e <= 0 ->
  exists mf k,
    binary_round_aux prec emax s q e l = S754_finite s mf (e + k) /\
    0 <= k <= 2 /\ 2 ^ 52 <= Z.pos mf < 2 ^ 53 /\
    -4 <= Z.pos mf * 2 ^ k - q <= 4.
Proof.
  intros Hq He. unfold binary_round_aux, shr_fexp.
  assert (Hfexp : forall d, 53 <= d <= 54 -> forall e', e <= e' <= e + 2 ->
            fexp prec emax (d + e') - e' = d - 53).
  { intros d Hd e' He'. unfold fexp, SpecFloat.emin, emax, prec. lia. }
  (* first shift *)
  destruct (Z.lt_ge_cases q (2 ^ 53)) as [Hlt|Hge].
  - rewrite (Zdigits2_53 q) by lia. rewrite Hfexp by lia.
    change (53 - 53) with 0. cbn [shr].
    rewrite shr_record_of_loc_m.
    set (m2 := round_nearest_even q _).
    assert (Hm2 : q <= m2 <= q + 1) by apply round_nearest_even_bounds.
    destruct (Z.lt_ge_cases m2 (2 ^ 53)) as [Hlt2|Hge2].
    + rewrite (Zdigits2_53 m2) by lia. rewrite Hfexp by lia.
      change (53 - 53) with 0. cbn [shr shr_record_of_loc shr_m].
      destruct m2 as [|mf|mf] eqn:Em; try lia.
      exists mf, 0.
      destruct (Z.leb_spec e (emax - prec)); [|unfold emax, prec in *; lia].
      split; [f_equal; lia | lia].
    + assert (m2 = 2 ^ 53) as -> by lia.
      rewrite (Zdigits2_54 (2 ^ 53)) by lia. rewrite Hfexp by lia.
      change (54 - 53) with 1. change (2 ^ 53) with 9007199254740992.
      cbn [shr SpecFloat.iter_pos shr_record_of_loc shr_1 shr_m].
      exists 4503599627370496%positive, 1.
      destruct (Z.leb_spec (e + 1) (emax - prec)); [|unfold emax, prec in *; lia].
      split; [f_equal; lia | lia].
  - rewrite (Zdigits2_54 q) by lia. rewrite Hfexp by lia.
    change (54 - 53) with 1. cbn [shr SpecFloat.iter_pos].
    pose proof (shr_1_m (shr_record_of_loc q l)) as Hs.
    rewrite shr_record_of_loc_m in Hs. specialize (Hs ltac:(lia)).
    set (mrs := shr_1 (shr_record_of_loc q l)) in *.
    set (m2 := round_nearest_even (shr_m mrs) _).
    assert (Hm2 : shr_m mrs <= m2 <= shr_m mrs + 1) by apply round_nearest_even_bounds.
    rewrite Hs in Hm2.
    assert (Hq2 : 2 ^ 52 <= q / 2 < 2 ^ 53).
    { split; [apply Z.div_le_lower_bound; lia | apply Z.div_lt_upper_bound; lia]. }
    pose proof (Z.div_mod q 2 ltac:(lia)) as Hdm.
    pose proof (Z.mod_pos_bound q 2 ltac:(lia)) as Hmb.
    destruct (Z.lt_ge_cases m2 (2 ^ 53)) as [Hlt2|Hge2].
    + rewrite (Zdigits2_53 m2) by lia. rewrite Hfexp by lia.
      change (53 - 53) with 0. cbn [shr shr_record_of_loc shr_m].
      destruct m2 as [|mf|mf] eqn:Em; try lia.
      exists mf, 1.
      destruct (Z.leb_spec (e + 1) (emax - prec)); [|unfold emax, prec in *; lia].
      split; [f_equal; lia | lia].
    + assert (m2 = 2 ^ 53) as -> by lia.
      rewrite (Zdigits2_54 (2 ^ 53)) by lia. rewrite Hfexp by lia.
      change (54 - 53) with 1. change (2 ^ 53) with 9007199254740992.
      cbn [shr SpecFloat.iter_pos shr_record_of_loc shr_1 shr_m].
      exists 4503599627370496%positive, 2.
      destruct (Z.leb_spec (e + 1 + 1) (emax - prec)); [|unfold emax, prec in *; lia].
      split; [f_equal; lia | lia].
Qed.

(** The quotient of two doubles with 53-bit mantissas. *)
Lemma SFdiv_near (M1 M2 : positive) E1 E2 :
  2 ^ 52 <= Z.pos M1 < 2 ^ 53 -> 2 ^ 52 <= Z.pos M2 < 2 ^ 53 ->
  -52 <= E1 <= 0 -> -52 <= E2 <= 0 ->
  exists mf k,
    SF64div (S754_finite false M1 E1) (S754_finite false M2 E2)
    = S754_finite false mf (E1 - E2 - 53 + k) /\
    0 <= k <= 2 /\
    - (5 * Z.pos M2) <= Z.pos mf * 2 ^ k * Z.pos M2 - Z.pos M1 * 2 ^ 53 <= 5 * Z.pos M2.
Proof.
  intros HM1 HM2 HE1 HE2. unfold SF64div, SFdiv, SFdiv_core_binary.
  rewrite (Zdigits2_53 (Z.pos M1)), (Zdigits2_53 (Z.pos M2)) by lia.
  replace (fexp prec emax (53 + E1 - (53 + E2))) with (E1 - E2 - 53)
    by (unfold fexp, SpecFloat.emin, emax, prec; lia).
  rewrite Z.min_l by lia.
  replace (E1 - E2 - (E1 - E2 - 53)) with 53 by lia.
  cbv iota beta. rewrite Z.shiftl_mul_pow2 by lia.
  pose proof (Z.div_eucl_eq (Z.pos M1 * 2 ^ 53) (Z.pos M2) ltac:(lia)) as Heq.
  pose proof (Z.mod_pos_bound (Z.pos M1 * 2 ^ 53) (Z.pos M2) ltac:(lia)) as Hmod.
  unfold Z.modulo in Hmod.
  change IntDef.Z.div_eucl with Z.div_eucl.
  destruct (Z.div_eucl (Z.pos M1 * 2 ^ 53) (Z.pos M2)) as [q r].
  assert (Hq : 2 ^ 52 <= q < 2 ^ 54) by nia.
  destruct (binary_round_aux_near false q (E1 - E2 - 53)
              (SpecFloat.new_location (Z.pos M2) r) Hq ltac:(lia))
    as (mf & k & Hr & Hk & _ & Hnear).
  exists mf, k. simpl xorb. rewrite Hr. split; [done|]. split; [done|]. nia.
Qed.

(** The double [c / N] of two integers below [2^53], times [N], is within
    [c * 2^-49] of [c]. *)
Lemma SFint_div_near c N :
  Z.pos c < 2 ^ 53 -> Z.pos N < 2 ^ 53 ->
  exists v, SFscaled (SF64div (SFint c) (SFint N)) = Some v /\
    - (Z.pos c * 2 ^ 1074) <= 2 ^ 49 * (v * Z.pos N - Z.pos c * 2 ^ 1074)
      <= Z.pos c * 2 ^ 1074.
Proof.
  intros Hc HN.
  destruct (SFint_canonical c Hc) as (Hd1 & HM1 & _).
  destruct (SFint_canonical N HN) as (Hd2 & HM2 & _).
  pose proof (digits2_pos_bounds c) as [Hlo1 Hhi1].
  pose proof (digits2_pos_bounds N) as [Hlo2 Hhi2].
  unfold SFint.
  set (d1 := Z.pos (digits2_pos c)) in *. set (d2 := Z.pos (digits2_pos N)) in *.
  set (M1 := (shl_align c 0 (d1 - 53)).1) in *.
  set (M2 := (shl_align N 0 (d2 - 53)).1) in *.
  assert (0 < d1) by (unfold d1; lia). assert (0 < d2) by (unfold d2; lia).
  assert (HP1 : 2 ^ 52 = 2 ^ (d1 - 1) * 2 ^ (53 - d1))
    by (rewrite <- Z.pow_add_r by lia; f_equal; lia).
  assert (HP1' : 2 ^ 53 = 2 ^ d1 * 2 ^ (53 - d1))
    by (rewrite <- Z.pow_add_r by lia; f_equal; lia).
  assert (HP2 : 2 ^ 52 = 2 ^ (d2 - 1) * 2 ^ (53 - d2))
    by (rewrite <- Z.pow_add_r by lia; f_equal; lia).
  assert (HP2' : 2 ^ 53 = 2 ^ d2 * 2 ^ (53 - d2))
    by (rewrite <- Z.pow_add_r by lia; f_equal; lia).
  assert (0 < 2 ^ (53 - d1)) by (apply Z.pow_pos_nonneg; lia).
  assert (0 < 2 ^ (53 - d2)) by (apply Z.pow_pos_nonneg; lia).
  assert (HB1 : 2 ^ 52 <= Z.pos M1 < 2 ^ 53) by nia.
  assert (HB2 : 2 ^ 52 <= Z.pos M2 < 2 ^ 53) by nia.
  destruct (SFdiv_near M1 M2 (d1 - 53) (d2 - 53) HB1 HB2 ltac:(lia) ltac:(lia))
    as (mf & k & Hdiv & Hk & Hnear).
  rewrite Hdiv. cbn [SFscaled cond_Zopp]. eexists. split; [done|].
  set (X := Z.pos mf * 2 ^ k * Z.pos M2 - Z.pos M1 * 2 ^ 53) in *.
  set (P := 2 ^ (968 + d1)).
  assert (HPpos : 0 < P) by (apply Z.pow_pos_nonneg; lia).
  assert (Hv : Z.pos mf * 2 ^ (d1 - 53 - (d2 - 53) - 53 + k + 1074) * Z.pos N
               - Z.pos c * 2 ^ 1074 = P * X).
  { unfold X, P. rewrite HM1, HM2.
    replace (d1 - 53 - (d2 - 53) - 53 + k + 1074) with (968 + d1 + k + (53 - d2)) by lia.
    replace 1074 with (968 + d1 + (53 - d1) + 53) at 1 by lia.
    rewrite !Z.pow_add_r by lia. ring. }
  assert (Hc' : Z.pos c * 2 ^ 1074 = P * (Z.pos M1 * 2 ^ 53)).
  { unfold P. rewrite HM1.
    replace 1074 with (968 + d1 + (53 - d1) + 53) at 1 by lia.
    rewrite !Z.pow_add_r by lia. ring. }
  rewrite Hv, Hc'.
  assert (HX : - (Z.pos M1 * 2 ^ 53) <= 2 ^ 49 * X <= Z.pos M1 * 2 ^ 53) by lia.
  nia.
Qed.

Lemma scaled_quotient c N :
  0 <= c < 2 ^ 53 -> 0 < N < 2 ^ 53 ->
  exists v, scaled (double_of_int c / double_of_int N) = Some v /\
    - (c * 2 ^ 1074) <= 2 ^ 49 * (v * N - c * 2 ^ 1074) <= c * 2 ^ 1074.
Proof.
  intros Hc HN. unfold scaled. rewrite FloatAxioms.div_spec.
  destruct N as [|N|N]; try lia.
  rewrite (double_of_int_pos N), Prim2SF_of_pos by lia.
  destruct c as [|c|c]; try lia.
  - change (Prim2SF (double_of_int 0)) with (S754_zero false).
    exists 0. split; [done | lia].
  - rewrite (double_of_int_pos c), Prim2SF_of_pos by lia.
    apply SFint_div_near; lia.
Qed.

(** The same for a whole row of counts divided by [N]. *)
Lemma row_mass_quotients cs N :
  Forall (fun c => 0 <= c < 2 ^ 53) cs -> 0 < N < 2 ^ 53 ->
  exists m, row_mass ((fun c => double_of_int c / double_of_int N)%float <$> cs) = Some m /\
    - (Zsum cs * 2 ^ 1074) <= 2 ^ 49 * (m * N - Zsum cs * 2 ^ 1074)
      <= Zsum cs * 2 ^ 1074.
Proof.
  intros H HN. induction H as [|c cs Hc H (m & Hm & IH)].
  - exists 0. split; [done | simpl; lia].
  - destruct (scaled_quotient c N Hc HN) as (v & Hv & Hb).
    exists (v + m). rewrite fmap_cons. cbn [row_mass Zsum foldr]. fold (Zsum cs).
    rewrite Hv, Hm. split; [done|].
    generalize dependent (2 ^ 1074). intros. lia.
Qed.

Lemma counts_bounded cs :
  Forall (fun c => 0 <= c) cs -> Forall (fun c => 0 <= c <= Zsum cs) cs.
Proof.
  intros H. apply Forall_lookup. intros b c Hb. by eapply Zsum_lookup_le.
Qed.

(** X9. After the first [GetXRange] on a histogram array that received
    between 1 and [INT_MAX] arrays of samples, the flag is set and the
    entries of every row are finite doubles whose exact sum is within
    [2^-49] of 1. *)
Theorem GetXRange_unit_mass x0 x1 n e nhp0 k nhp xl0 xu0 prob :
  0 <= n -> 0 <= e ->
  CreateNHArray x0 x1 n e = Some (inl nhp0) ->
  accumulated nhp0 k nhp ->
  1 <= Z.of_nat k <= INT_MAX ->
  exists r nhp', GetXRange xl0 xu0 nhp prob = Returned r nhp' /\
    normalized nhp' = 1 /\
    forall i, 0 <= i < elems nhp ->
      exists m, row_mass (row nhp' i) = Some m /\
        - 2 ^ 1074 <= 2 ^ 49 * (m - 2 ^ 1074) <= 2 ^ 1074.
Proof.
  intros Hn He Hc Hacc Hk. unfold INT_MAX in Hk.
  destruct (CreateNHArray_tallied _ _ _ _ _ Hc) as [Hn0 H0].
  destruct (accumulated_tallied _ _ _ Hn0 H0 Hacc ltac:(lia)) as [Hflag H].
  destruct (GetXRange_total _ _ _ _ _ _ _ xl0 xu0 prob Hn He Hc Hacc
              ltac:(unfold INT_MAX; lia)) as (r & nhp' & Hr).
  exists r, nhp'. split; [done|].
  pose proof Hr as (Hno & _ & _)%GetXRange_Returned.
  destruct H as [Hel|[Hwf Ht]].
  - split; [|intros; lia].
    revert Hno. unfold normalize_once. rewrite Hflag. simpl.
    destruct (normalize_loop _ _ _); simpl; [|done]. by intros [= <-].
  - destruct (normalize_once_tallied nhp (Z.of_nat k) Hwf Hflag
                ltac:(unfold INT_MAX; lia) Ht) as (h & Hno' & Hfl & Hrows).
    assert (h = nhp') as -> by congruence.
    split; [done|]. intros i Hi.
    destruct (Ht i Hi) as (cs & Hcs & Hsum).
    rewrite (Hrows i cs Hi Hcs). destruct Hcs as [_ Hpos].
    destruct (row_mass_quotients cs (Z.of_nat k)) as (m & Hm & Hb); [|lia|].
    { eapply Forall_impl; [exact (counts_bounded cs Hpos)|]. simpl. intros; lia. }
    exists m. split; [done|]. rewrite Hsum in Hb.
    generalize dependent (2 ^ 1074). intros. nia.
Qed.

Lemma GetXRange_unit_mass_witness :
  CreateNHArray 0 10 11 1 = Some (inl (scenario_hist 0 0 0)) /\
  accumulated (scenario_hist 0 0 0) 1 (scenario_hist 0 1 0) /\
  exists r nhp', GetXRange 3 7 (scenario_hist 0 1 0) p02 = Returned r nhp' /\
    normalized nhp' = 1 /\
    forall i, 0 <= i < elems (scenario_hist 0 1 0) ->
      exists m, row_mass (row nhp' i) = Some m /\
        - 2 ^ 1074 <= 2 ^ 49 * (m - 2 ^ 1074) <= 2 ^ 1074.
Proof.
  assert (Hc : CreateNHArray 0 10 11 1 = Some (inl (scenario_hist 0 0 0)))
    by (vm_compute; reflexivity).
  assert (Ha : accumulated (scenario_hist 0 0 0) 1 (scenario_hist 0 1 0)).
  { apply (accumulated_S _ 0 (scenario_hist 0 0 0) (one_sample 5));
      [apply accumulated_O | vm_compute; reflexivity]. }
  split; [exact Hc|]. split; [exact Ha|].
  apply (GetXRange_unit_mass 0 10 11 1 (scenario_hist 0 0 0) 1 (scenario_hist 0 1 0)
           3 7 p02); [lia | lia | exact Hc | exact Ha | unfold INT_MAX; simpl; lia].
Defined.

Example scenario_row_mass :
  exists m, row_mass (row (scenario_hist (1 / 11) (10 / 11) 1) 0) = Some m /\
    - 2 ^ 1074 <= 2 ^ 49 * (m - 2 ^ 1074) <= 2 ^ 1074.
Proof.
  eexists. split; [vm_compute; reflexivity|]. split; by vm_compute.
Qed.

(** * Further properties of the module *)

(** ** The thresholds are in order *)

Lemma shr_1_nonneg mrs : 0 <= shr_m mrs -> 0 <= shr_m (shr_1 mrs).
Proof.
  intros H. rewrite shr_1_m by done. apply Z.div_pos; lia.
Qed.

Lemma shr_iter_m n mrs :
  0 <= shr_m mrs -> shr_m (Nat.iter n shr_1 mrs) = shr_m mrs / 2 ^ Z.of_nat n.
Proof.
  intros H. induction n as [|n IH].
  - simpl. by rewrite Z.div_1_r.
  - rewrite Nat.iter_succ, shr_1_m.
    + rewrite IH, Nat2Z.inj_succ, Z.pow_succ_r by lia.
      rewrite Z.div_div by (try apply Z.pow_pos_nonneg; lia).
      f_equal. lia.
    + rewrite IH. apply Z.div_pos; [done | apply Z.pow_pos_nonneg; lia].
Qed.

Lemma shr_m_shift mrs e n :
  0 <= shr_m mrs -> 0 <= n ->
  shr_m (shr mrs e n).1 = shr_m mrs / 2 ^ n /\ (shr mrs e n).2 = e + n.
Proof.
  intros H Hn. destruct n as [|p|p]; try lia; cbn [shr fst snd].
  - rewrite Z.div_1_r. split; [done | lia].
  - rewrite iter_pos_nat, shr_iter_m by done. by rewrite positive_nat_Z.
Qed.

Lemma Zdigits2_bounds q : 0 < q -> 2 ^ (Zdigits2 q - 1) <= q < 2 ^ Zdigits2 q.
Proof. destruct q as [|p|p]; try lia. intros _. apply digits2_pos_bounds. Qed.

(** Rounding a mantissa of at least 53 digits, above the subnormal range. *)
Lemma binary_round_aux_normal s q e l :
  2 ^ 52 <= q -> -1074 <= Zdigits2 q + e - 53 ->
  exists mf k, 0 <= k <= 1 /\
    binary_round_aux prec emax s q e l
    = if Zdigits2 q + e - 53 + k <=? emax - prec
      then S754_finite s mf (Zdigits2 q + e - 53 + k)
      else S754_infinity s.
Proof.
  intros Hq He. pose proof (Zdigits2_bounds q ltac:(lia)) as Hd.
  set (d := Zdigits2 q) in *.
  assert (Hd53 : 53 <= d).
  { destruct (Z.lt_ge_cases d 53); [|done].
    assert (2 ^ d <= 2 ^ 52) by (apply Z.pow_le_mono_r; lia). lia. }
  unfold binary_round_aux, shr_fexp. fold d.
  replace (fexp prec emax (d + e) - e) with (d - 53)
    by (unfold fexp, SpecFloat.emin, emax, prec; lia).
  destruct (shr_m_shift (shr_record_of_loc q l) e (d - 53)) as [Hm He1];
    [rewrite shr_record_of_loc_m; lia | lia |].
  destruct (shr (shr_record_of_loc q l) e (d - 53)) as [mrs e1].
  cbn [fst snd] in Hm, He1. subst e1. rewrite shr_record_of_loc_m in Hm.
  assert (Hm' : 2 ^ 52 <= shr_m mrs < 2 ^ 53).
  { rewrite Hm.
    assert (0 < 2 ^ (d - 53)) by (apply Z.pow_pos_nonneg; lia).
    assert (2 ^ (d - 1) = 2 ^ 52 * 2 ^ (d - 53))
      by (rewrite <- Z.pow_add_r by lia; f_equal; lia).
    assert (2 ^ d = 2 ^ 53 * 2 ^ (d - 53))
      by (rewrite <- Z.pow_add_r by lia; f_equal; lia).
    split; [apply Z.div_le_lower_bound; lia | apply Z.div_lt_upper_bound; lia]. }
  set (m1 := round_nearest_even (shr_m mrs) _).
  assert (Hm1 : shr_m mrs <= m1 <= shr_m mrs + 1) by apply round_nearest_even_bounds.
  replace (e + (d - 53)) with (d + e - 53) by lia.
  destruct (Z.lt_ge_cases m1 (2 ^ 53)) as [Hlt|Hge].
  - rewrite (Zdigits2_53 m1) by lia.
    replace (fexp prec emax (53 + (d + e - 53)) - (d + e - 53)) with 0
      by (unfold fexp, SpecFloat.emin, emax, prec; lia).
    cbn [shr shr_record_of_loc shr_m].
    destruct m1 as [|mf|mf] eqn:Em; try lia.
    exists mf, 0. split; [lia|]. by rewrite Z.add_0_r.
  - assert (m1 = 2 ^ 53) as -> by lia.
    rewrite (Zdigits2_54 (2 ^ 53)) by lia.
    replace (fexp prec emax (54 + (d + e - 53)) - (d + e - 53)) with 1
      by (unfold fexp, SpecFloat.emin, emax, prec; lia).
    change (2 ^ 53) with 9007199254740992.
    cbn [shr SpecFloat.iter_pos shr_record_of_loc shr_1 shr_m].
    exists 4503599627370496%positive, 1. split; [lia | done].
Qed.

(** Rounding at the least exponent. *)
Lemma binary_round_aux_low s q l :
  0 <= q < 2 ^ 53 ->
  binary_round_aux prec emax s q (-1074) l = S754_zero s \/
  exists mf ef, binary_round_aux prec emax s q (-1074) l = S754_finite s mf ef /\
    ef <= -1073.
Proof.
  intros Hq. unfold binary_round_aux, shr_fexp.
  assert (Hdq : 0 <= Zdigits2 q <= 53).
  { destruct q as [|p|p]; try lia; [simpl; lia|].
    pose proof (Zdigits2_bounds (Z.pos p) ltac:(lia)) as Hd.
    split; [simpl; lia|].
    destruct (Z.le_gt_cases (Zdigits2 (Z.pos p)) 53); [done|].
    assert (2 ^ 53 <= 2 ^ (Zdigits2 (Z.pos p) - 1)) by (apply Z.pow_le_mono_r; lia).
    lia. }
  replace (fexp prec emax (Zdigits2 q + -1074) - -1074) with 0
    by (unfold fexp, SpecFloat.emin, emax, prec; lia).
  cbn [shr]. rewrite shr_record_of_loc_m.
  set (m1 := round_nearest_even q _).
  assert (Hm1 : q <= m1 <= q + 1) by apply round_nearest_even_bounds.
  destruct (Z.lt_ge_cases m1 (2 ^ 53)) as [Hlt|Hge].
  - assert (Hd1 : 0 <= Zdigits2 m1 <= 53).
    { destruct m1 as [|p|p]; try lia; [simpl; lia|].
      pose proof (Zdigits2_bounds (Z.pos p) ltac:(lia)) as Hd.
      split; [simpl; lia|].
      destruct (Z.le_gt_cases (Zdigits2 (Z.pos p)) 53); [done|].
      assert (2 ^ 53 <= 2 ^ (Zdigits2 (Z.pos p) - 1)) by (apply Z.pow_le_mono_r; lia).
      lia. }
    replace (fexp prec emax (Zdigits2 m1 + -1074) - -1074) with 0
      by (unfold fexp, SpecFloat.emin, emax, prec; lia).
    cbn [shr shr_record_of_loc shr_m].
    destruct m1 as [|mf|mf]; try lia; [by left|].
    right. exists mf, (-1074). split; [done | lia].
  - assert (m1 = 2 ^ 53) as -> by lia.
    rewrite (Zdigits2_54 (2 ^ 53)) by lia.
    replace (fexp prec emax (54 + -1074) - -1074) with 1
      by (unfold fexp, SpecFloat.emin, emax, prec; lia).
    change (2 ^ 53) with 9007199254740992.
    cbn [shr SpecFloat.iter_pos shr_record_of_loc shr_1 shr_m].
    right. exists 4503599627370496%positive, (-1074 + 1). split; [done | lia].
Qed.

(** The sign of a rounded non-negative mantissa is the one given. *)
Lemma binary_round_aux_sign s q e l :
  0 <= q ->
  binary_round_aux prec emax s q e l = S754_zero s \/
  (exists mf ef, binary_round_aux prec emax s q e l = S754_finite s mf ef) \/
  binary_round_aux prec emax s q e l = S754_infinity s.
Proof.
  intros Hq. unfold binary_round_aux, shr_fexp.
  set (n1 := fexp prec emax (Zdigits2 q + e) - e).
  assert (H1 : 0 <= shr_m (shr (shr_record_of_loc q l) e n1).1).
  { destruct (Z.le_gt_cases 0 n1) as [Hn|Hn].
    - destruct (shr_m_shift (shr_record_of_loc q l) e n1) as [-> _];
        [rewrite shr_record_of_loc_m; lia | lia |].
      rewrite shr_record_of_loc_m. apply Z.div_pos; [lia | apply Z.pow_pos_nonneg; lia].
    - destruct n1; try lia. cbn [shr fst]. by rewrite shr_record_of_loc_m. }
  destruct (shr (shr_record_of_loc q l) e n1) as [mrs e1]. cbn [fst] in H1.
  set (m1 := round_nearest_even (shr_m mrs) _).
  assert (Hm1 : shr_m mrs <= m1 <= shr_m mrs + 1) by apply round_nearest_even_bounds.
  set (n2 := fexp prec emax (Zdigits2 m1 + e1) - e1).
  assert (H2 : 0 <= shr_m (shr (shr_record_of_loc m1 loc_Exact) e1 n2).1).
  { destruct (Z.le_gt_cases 0 n2) as [Hn|Hn].
    - destruct (shr_m_shift (shr_record_of_loc m1 loc_Exact) e1 n2) as [-> _];
        [rewrite shr_record_of_loc_m; lia | lia |].
      rewrite shr_record_of_loc_m. apply Z.div_pos; [lia | apply Z.pow_pos_nonneg; lia].
    - destruct n2; try lia. cbn [shr fst]. rewrite shr_record_of_loc_m. lia. }
  destruct (shr (shr_record_of_loc m1 loc_Exact) e1 n2) as [mrs2 e2]. cbn [fst] in H2.
  destruct (shr_m mrs2) as [|mf|mf]; try lia; [by left | right].
  destruct (e2 <=? emax - prec); [left; eauto | by right].
Qed.

Lemma bounded_inv m e :
  bounded prec emax m e = true ->
  -1074 <= e /\ Z.pos (digits2_pos m) <= 53 /\
  (-1074 < e -> Z.pos (digits2_pos m) = 53).
Proof.
  unfold bounded, canonical_mantissa, fexp, SpecFloat.emin, emax, prec.
  intros [Hc%Z.eqb_eq _]%andb_prop. lia.
Qed.

Lemma digits2_pos_53 m : Z.pos (digits2_pos m) <= 53 -> Z.pos m < 2 ^ 53.
Proof.
  intros Hd. pose proof (digits2_pos_bounds m) as [_ Hhi].
  assert (2 ^ Z.pos (digits2_pos m) <= 2 ^ 53) by (apply Z.pow_le_mono_r; lia). lia.
Qed.

(** Half of a positive double below 1. *)
Lemma SFdiv_two_below m e :
  bounded prec emax m e = true -> e <= -53 ->
  SF64div (S754_finite false m e) SF_two = S754_zero false \/
  exists mf ef, SF64div (S754_finite false m e) SF_two = S754_finite false mf ef /\
    ef <= -54.
Proof.
  intros Hb He. destruct (bounded_inv m e Hb) as (Hlo & Hd & Hd53).
  pose proof (digits2_pos_53 m Hd) as Hm.
  unfold SF64div, SF_two, SFdiv, SFdiv_core_binary.
  change (Zdigits2 4503599627370496) with 53. cbn [Zdigits2 xorb].
  destruct (Z.le_gt_cases (-1072) e) as [Hn|Hs].
  - (* the quotient is exact *)
    rewrite Hd53 by lia.
    replace (fexp prec emax (53 + e - (53 + -51))) with (e - 2)
      by (unfold fexp, SpecFloat.emin, emax, prec; lia).
    change IntDef.Z.min with Z.min. rewrite Z.min_l by lia.
    replace (e - -51 - (e - 2)) with 53 by lia. cbv iota beta.
    change IntDef.Z.shiftl with Z.shiftl. rewrite Z.shiftl_mul_pow2 by lia.
    pose proof (Z.div_eucl_eq (Z.pos m * 2 ^ 53) 4503599627370496 ltac:(lia)) as Heq.
    pose proof (Z.mod_pos_bound (Z.pos m * 2 ^ 53) 4503599627370496 ltac:(lia)) as Hmod.
    unfold Z.modulo in Hmod. change IntDef.Z.div_eucl with Z.div_eucl.
    destruct (Z.div_eucl (Z.pos m * 2 ^ 53) 4503599627370496) as [q r].
    assert (q = Z.pos (shift_pos 1 m)) as -> by (rewrite shift_pos_Z; lia).
    assert (r = 0) as -> by lia.
    change (SpecFloat.new_location 4503599627370496 0) with loc_Exact.
    replace (e - 2) with (e - 1 - Z.pos 1) by lia.
    rewrite binary_round_aux_shifted.
    + right. exists m, (e - 1). split; [done | lia].
    + unfold canonical_mantissa. apply Z.eqb_eq. rewrite Hd53 by lia.
      unfold fexp, SpecFloat.emin, emax, prec. lia.
    + unfold emax, prec. lia.
  - (* the quotient is at the least exponent *)
    replace (fexp prec emax (Z.pos (digits2_pos m) + e - (53 + -51))) with (-1074)
      by (unfold fexp, SpecFloat.emin, emax, prec; lia).
    change IntDef.Z.min with Z.min. rewrite Z.min_l by lia.
    change IntDef.Z.shiftl with Z.shiftl. change IntDef.Z.div_eucl with Z.div_eucl.
    assert (Hq : forall s, 51 <= s <= 52 ->
              0 <= (Z.shiftl (Z.pos m) s / 4503599627370496) < 2 ^ 53).
    { intros s Hs'. rewrite Z.shiftl_mul_pow2 by lia.
      assert (0 < 2 ^ s) by (apply Z.pow_pos_nonneg; lia).
      assert (2 ^ s <= 2 ^ 52) by (apply Z.pow_le_mono_r; lia).
      split; [apply Z.div_pos; lia | apply Z.div_lt_upper_bound; nia]. }
    assert (e = -1073 \/ e = -1074) as [-> | ->] by lia.
    + change (-1073 - -51 - -1074) with 52. cbv iota beta.
      specialize (Hq 52 ltac:(lia)). unfold Z.div in Hq.
      destruct (Z.div_eucl (Z.shiftl (Z.pos m) 52) 4503599627370496) as [q r].
      cbn [fst] in Hq.
      destruct (binary_round_aux_low false q
                  (SpecFloat.new_location 4503599627370496 r) Hq)
        as [Hz|(mf & ef & Hf & Hef)]; [by left | right].
      exists mf, ef. split; [done | lia].
    + change (-1074 - -51 - -1074) with 51. cbv iota beta.
      specialize (Hq 51 ltac:(lia)). unfold Z.div in Hq.
      destruct (Z.div_eucl (Z.shiftl (Z.pos m) 51) 4503599627370496) as [q r].
      cbn [fst] in Hq.
      destruct (binary_round_aux_low false q
                  (SpecFloat.new_location 4503599627370496 r) Hq)
        as [Hz|(mf & ef & Hf & Hef)]; [by left | right].
      exists mf, ef. split; [done | lia].
Qed.

(** One minus a positive double below one half. *)
Lemma SFsub_one_below m e :
  bounded prec emax m e = true -> e <= -54 ->
  exists mf ef, SF64sub SF_one (S754_finite false m e) = S754_finite false mf ef /\
    -53 <= ef.
Proof.
  intros Hb He. destruct (bounded_inv m e Hb) as (Hlo & Hd & _).
  pose proof (digits2_pos_53 m Hd) as Hm.
  unfold SF64sub, SF_one, SFsub. change IntDef.Z.min with Z.min.
  rewrite Z.min_r by lia.
  destruct (shl_align_Z 4503599627370496 (-52) e) as [H1 _].
  destruct (shl_align_Z m e e) as [H2 _].
  rewrite Z.min_r in H1 by lia. rewrite Z.min_l, Z.sub_diag, Z.mul_1_r in H2 by lia.
  cbn [cond_Zopp]. rewrite H1, H2.
  assert (Hp : 4503599627370496 * 2 ^ (-52 - e) = 2 ^ (- e)).
  { change 4503599627370496 with (2 ^ 52). rewrite <- Z.pow_add_r by lia. f_equal. lia. }
  rewrite Hp.
  assert (Hh : 2 ^ (- e) = 2 * 2 ^ (- e - 1)).
  { rewrite <- Z.pow_succ_r by lia. f_equal. lia. }
  assert (H53 : 2 ^ 53 <= 2 ^ (- e - 1)) by (apply Z.pow_le_mono_r; lia).
  destruct (2 ^ (- e) - Z.pos m) as [|Zp|Zp] eqn:EZ; try lia.
  cbn [binary_normalize]. unfold binary_round.
  assert (Hdz : Z.pos (digits2_pos Zp) = - e).
  { apply digits2_pos_unique. lia. }
  rewrite Hdz.
  replace (fexp prec emax (- e + e)) with (-53)
    by (unfold fexp, SpecFloat.emin, emax, prec; lia).
  assert (Hsh : shl_align Zp e (-53) = (Zp, e)).
  { unfold shl_align. destruct (-53 - e) eqn:E; try lia; done. }
  rewrite Hsh.
  destruct (binary_round_aux_normal false (Z.pos Zp) e loc_Exact)
    as (mf & k & Hk & Hr).
  { lia. } { cbn [Zdigits2]. lia. }
  rewrite Hr. cbn [Zdigits2]. rewrite Hdz.
  destruct (Z.leb_spec (- e + e - 53 + k) (emax - prec));
    [|unfold emax, prec in *; lia].
  exists mf, (- e + e - 53 + k). split; [done | lia].
Qed.

(** One minus a negative double. *)
Lemma SFsub_one_neg m e :
  bounded prec emax m e = true ->
  (exists mf ef, SF64sub SF_one (S754_finite true m e) = S754_finite false mf ef) \/
  SF64sub SF_one (S754_finite true m e) = S754_infinity false.
Proof.
  intros Hb. destruct (bounded_inv m e Hb) as (Hlo & _ & _).
  unfold SF64sub, SF_one, SFsub. change IntDef.Z.min with Z.min.
  set (ez := Z.min (-52) e).
  destruct (shl_align_Z 4503599627370496 (-52) e) as [H1 _].
  destruct (shl_align_Z m e (-52)) as [H2 _].
  rewrite (Z.min_comm e (-52)) in H2. fold ez in H1, H2.
  assert (Hal : shl_align m e ez = shl_align m e (-52)).
  { unfold ez, shl_align. destruct (Z.le_gt_cases (-52) e).
    - rewrite Z.min_l by lia. done.
    - rewrite Z.min_r by lia. rewrite Z.sub_diag.
      destruct (-52 - e) eqn:E; try lia; done. }
  assert (Hal1 : shl_align 4503599627370496 (-52) ez = shl_align 4503599627370496 (-52) e).
  { unfold ez, shl_align. destruct (Z.le_gt_cases (-52) e).
    - rewrite Z.min_l by lia. rewrite Z.sub_diag.
      destruct (e - -52) eqn:E; try lia; done.
    - rewrite Z.min_r by lia. done. }
  rewrite Hal, Hal1. cbn [cond_Zopp]. rewrite H1, H2.
  assert (0 < 2 ^ (-52 - ez)) by (apply Z.pow_pos_nonneg; unfold ez; lia).
  assert (0 < 2 ^ (e - ez)) by (apply Z.pow_pos_nonneg; unfold ez; lia).
  destruct (4503599627370496 * 2 ^ (-52 - ez) - - (Z.pos m * 2 ^ (e - ez)))
    as [|Zp|Zp] eqn:EZ; try nia.
  assert (HZ : 2 ^ 52 <= Z.pos Zp) by nia.
  cbn [binary_normalize]. unfold binary_round.
  pose proof (digits2_pos_bounds Zp) as [_ Hhi].
  assert (Hd53 : 53 <= Z.pos (digits2_pos Zp)).
  { destruct (Z.lt_ge_cases (Z.pos (digits2_pos Zp)) 53); [|done].
    assert (2 ^ Z.pos (digits2_pos Zp) <= 2 ^ 52) by (apply Z.pow_le_mono_r; lia). lia. }
  assert (Hez : -1074 <= ez) by (unfold ez; lia).
  assert (Hsh : shl_align Zp ez (fexp prec emax (Z.pos (digits2_pos Zp) + ez)) = (Zp, ez)).
  { unfold shl_align.
    destruct (fexp prec emax (Z.pos (digits2_pos Zp) + ez) - ez) eqn:E; try done.
    unfold fexp, SpecFloat.emin, emax, prec in E. lia. }
  rewrite Hsh.
  destruct (binary_round_aux_normal false (Z.pos Zp) ez loc_Exact)
    as (mf & k & Hk & Hr).
  { lia. } { cbn [Zdigits2]. lia. }
  rewrite Hr. destruct (_ <=? _); [left; eauto | by right].
Qed.

(** Half of a double that is not above 1 is not above what is left of 1. *)
Lemma half_le_rest (prob : float) :
  (prob <=? 1)%float = true -> (prob / 2 <=? 1 - prob / 2)%float = true.
Proof.
  rewrite !FloatAxioms.leb_spec, FloatAxioms.sub_spec.
  pose proof (FloatAxioms.Prim2SF_valid (prob / 2)) as Hv.
  rewrite FloatAxioms.div_spec in *.
  change (Prim2SF 1) with SF_one. change (Prim2SF 2) with SF_two in *.
  pose proof (FloatAxioms.Prim2SF_valid prob) as Hvx.
  destruct (Prim2SF prob) as [s|s| |s m e].
  - intros _. by destruct s.
  - destruct s; [done | discriminate].
  - discriminate.
  - change (bounded prec emax m e = true) in Hvx.
    destruct s.
    + (* a negative tail probability *)
      intros _. revert Hv.
      assert (Hy : SF64div (S754_finite true m e) SF_two = S754_zero true \/
                   (exists mf ef, SF64div (S754_finite true m e) SF_two
                                  = S754_finite true mf ef) \/
                   SF64div (S754_finite true m e) SF_two = S754_infinity true).
      { unfold SF64div, SF_two, SFdiv. cbn [xorb].
        destruct (SFdiv_core_binary prec emax (Z.pos m) e 4503599627370496 (-51))
          as [[q e'] l] eqn:Hcore.
        apply binary_round_aux_sign.
        revert Hcore. unfold SFdiv_core_binary.
        set (m' := match _ with 0 => Z.pos m | Z.pos _ => _ | Z.neg _ => 0 end).
        assert (0 <= m').
        { unfold m'. destruct (_ - _ - _); try lia.
          change IntDef.Z.shiftl with Z.shiftl. apply Z.shiftl_nonneg. lia. }
        pose proof (Z.div_pos m' 4503599627370496 ltac:(lia) ltac:(lia)) as Hdiv.
        unfold Z.div in Hdiv. change IntDef.Z.div_eucl with Z.div_eucl.
        destruct (Z.div_eucl m' 4503599627370496) as [q0 r0]. cbn [fst] in Hdiv.
        by intros [= <- _ _]. }
      destruct Hy as [->|[(mf & ef & ->)| ->]]; [done| |done].
      intros Hb. change (bounded prec emax mf ef = true) in Hb.
      destruct (SFsub_one_neg mf ef Hb) as [(mf' & ef' & ->)| ->]; done.
    + (* a tail probability between 0 and 1 *)
      intros Hle.
      assert (He : e <= -53 \/ (m = 4503599627370496%positive /\ e = -52)).
      { revert Hle. unfold SFleb, SF_one, SFcompare.
        destruct (Z.compare_spec e (-52)) as [->|?|?]; [|intros _; lia|discriminate].
        intros Hc. right. split; [|done].
        destruct (bounded_inv m (-52) Hvx) as (_ & _ & Hd). specialize (Hd ltac:(lia)).
        pose proof (digits2_pos_bounds m) as [Hlo _]. rewrite Hd in Hlo.
        change (2 ^ (53 - 1)) with 4503599627370496 in Hlo.
        pose proof (Pos.compare_spec m 4503599627370496) as Hcmp.
        unfold Pos.compare in Hcmp.
        destruct Hcmp as [Heq|Hlt|Hgt];
          [exact Heq | apply Pos2Z.pos_lt_pos in Hlt; lia | discriminate Hc]. }
      destruct He as [He|[-> ->]]; [|by vm_compute].
      revert Hv.
      destruct (SFdiv_two_below m e Hvx He) as [->|(mf & ef & -> & Hef)]; [done|].
      intros Hb. change (bounded prec emax mf ef = true) in Hb.
      destruct (SFsub_one_below mf ef Hb Hef) as (mf' & ef' & -> & Hef').
      unfold SFleb, SFcompare.
      destruct (Z.compare_spec ef ef'); try lia; done.
Qed.

(** X1. For every tail probability that is not above 1 (all of [0, 1], and
    every negative one), the thresholds [GetXRange] computes are in order,
    [pl <= pu] as doubles; so a row whose running mass exceeds [pu] has
    exceeded [pl] at the same bin or before, and the scan of [getrange]
    writes both bounds. *)
Theorem thresholds_ordered (prob : float) :
  (prob <=? 1)%float = true ->
  ((thresholds prob).1 <=? (thresholds prob).2)%float = true /\
  forall h k, first_above (thresholds prob).2 h 0%float = Some k ->
    both_recorded (thresholds prob).1 (thresholds prob).2 h.
Proof.
  intros Hle. pose proof (half_le_rest prob Hle) as H.
  split; [exact H|]. intros h k Hk.
  destruct (first_above_le _ _ _ _ _ H Hk) as (j & Hj & Hjk).
  by exists j, k.
Qed.

Lemma thresholds_ordered_witness :
  (p02 <=? 1)%float = true /\
  ((thresholds p02).1 <=? (thresholds p02).2)%float = true /\
  forall h k, first_above (thresholds p02).2 h 0%float = Some k ->
    both_recorded (thresholds p02).1 (thresholds p02).2 h.
Proof.
  assert (H : (p02 <=? 1)%float = true) by (vm_compute; reflexivity).
  split; [exact H | exact (thresholds_ordered p02 H)].
Defined.

(** ** The scan on the documented range of the tail probability *)



(** ** What a call of [UpdateNHArray] does *)

Lemma bin_index_shape nhp nhp' v :
  same_shape nhp nhp' -> bin_index nhp' v = bin_index nhp v.
Proof.
  intros (Hxl & _ & _ & Hm1 & Hdx & _). unfold bin_index. by rewrite Hxl, Hm1, Hdx.
Qed.

Lemma sample_bin_shape nhp nhp' a i :
  same_shape nhp nhp' -> sample_bin nhp' a i = sample_bin nhp a i.
Proof.
  intros Hs. unfold sample_bin. destruct (load _ _); simpl; [|done].
  by apply bin_index_shape.
Qed.

Lemma insert_alter {A} (f : A -> A) (l : list A) (i : nat) (x : A) :
  l !! i = Some x -> <[i := f x]> l = alter f i l.
Proof.
  intros Hx. apply list_eq. intros j. destruct (decide (i = j)) as [<-|Hne].
  - rewrite list_lookup_alter_eq, Hx. simpl.
    apply list_lookup_insert_eq. by eapply lookup_lt_Some.
  - by rewrite list_lookup_insert_ne, list_lookup_alter_ne by done.
Qed.

(** The loop of [UpdateNHArray] over the variables [ipt .. ipt+n-1]: in the
    row of each of them the counter of its sample's bin is incremented; the
    other rows are left as they are. *)
Lemma update_loop_rows a n ipt nhp nhp' :
  wf nhp -> 0 <= ipt -> ipt + Z.of_nat n <= elems nhp ->
  update_loop a n ipt nhp = Some nhp' ->
  forall i, 0 <= i < elems nhp ->
    if decide (ipt <= i < ipt + Z.of_nat n)
    then exists b, sample_bin nhp a i = Some b /\ 0 <= b < nbins nhp /\
           row nhp' i = alter incr (Z.to_nat b) (row nhp i)
    else row nhp' i = row nhp i.
Proof.
  revert ipt nhp. induction n as [|n IH]; intros ipt nhp Hwf H0 Hn;
    cbn [update_loop].
  - intros [= <-] i Hi. case_decide; [exfalso; lia | done].
  - destruct (load (data a) ipt) as [v|] eqn:Hv; cbn [mbind option_bind];
      [|discriminate].
    destruct (updatevalue nhp ipt v) as [h1|] eqn:H1; cbn [mbind option_bind];
      [|discriminate].
    intros Hl i Hi.
    destruct (updatevalue_spec nhp ipt v h1 Hwf ltac:(lia) H1) as (b & c & Hb & Hbr & Hc & ->).
    pose proof (updatevalue_shape _ _ _ _ H1) as [Hsh _].
    assert (Hwf1 : wf (set_dbuffer nhp
              (<[Z.to_nat (getpdfptr nhp ipt + b) := (c + 1)%float]> (dbuffer nhp))))
      by by eapply same_shape_wf.
    specialize (IH (ipt + 1) _ Hwf1 ltac:(lia) ltac:(simpl; lia) Hl i Hi).
    destruct (Z.eq_dec i ipt) as [->|Hne].
    + case_decide; [lia|]. case_decide; [|lia].
      exists b. unfold sample_bin. rewrite Hv. simpl. split; [done|]. split; [done|].
      rewrite IH, row_set_dbuffer_same by (done || lia).
      by apply (insert_alter incr).
    + rewrite row_set_dbuffer_other in IH by (done || lia).
      case_decide as Hd.
      * case_decide; [|lia]. destruct IH as (b' & Hb' & Hr' & Hrow).
        exists b'. split; [|split; [done|]].
        -- rewrite <- Hb'. symmetry. by apply sample_bin_shape.
        -- done.
      * case_decide; [exfalso; lia | done].
Qed.

(** ... and it is defined as soon as every sample has a bin. *)
Lemma update_loop_defined a n ipt nhp :
  wf nhp -> 0 <= ipt -> ipt + Z.of_nat n <= elems nhp -> 0 < nbins nhp ->
  (forall i, ipt <= i < ipt + Z.of_nat n -> is_Some (sample_bin nhp a i)) ->
  is_Some (update_loop a n ipt nhp).
Proof.
  revert ipt nhp. induction n as [|n IH]; intros ipt nhp Hwf H0 Hn Hnb Hs; simpl.
  - by eexists.
  - destruct (Hs ipt ltac:(lia)) as [b Hb]. unfold sample_bin in Hb.
    destruct (load (data a) ipt) as [v|] eqn:Hv; simpl in *; [|discriminate].
    assert (Hu : is_Some (updatevalue nhp ipt v)).
    { pose proof Hwf as (_ & He & Hm1 & Hlen).
      unfold updatevalue. unfold bin_index in Hb.
      destruct (double_to_int _) as [nbin|]; simpl in *; [|discriminate].
      set (k := if (if nbin <? 0 then 0 else nbin) >? nbinsm1 nhp
                then nbinsm1 nhp else if nbin <? 0 then 0 else nbin).
      assert (Hk : 0 <= k < nbins nhp).
      { unfold k. destruct (Z.ltb_spec nbin 0), (Z.gtb_spec 0 (nbinsm1 nhp)),
          (Z.gtb_spec nbin (nbinsm1 nhp)); lia. }
      assert (Hofs : 0 <= getpdfptr nhp ipt + k < Z.of_nat (length (dbuffer nhp)))
        by (unfold getpdfptr; nia).
      destruct (lookup_lt_is_Some_2 (dbuffer nhp) (Z.to_nat (getpdfptr nhp ipt + k))
                  ltac:(lia)) as [c Hc].
      assert (Hl : load (dbuffer nhp) (getpdfptr nhp ipt + k) = Some c)
        by (apply load_Some; split; [lia | done]).
      rewrite Hl. simpl. unfold store.
      destruct (Z.leb_spec 0 (getpdfptr nhp ipt + k)); [|lia].
      destruct (Z.ltb_spec (getpdfptr nhp ipt + k) (Z.of_nat (length (dbuffer nhp))));
        [|lia].
      simpl. by eexists. }
    destruct Hu as [h1 H1]. rewrite H1. simpl.
    pose proof (updatevalue_shape _ _ _ _ H1) as [Hsh _].
    apply IH.
    + by eapply same_shape_wf.
    + lia.
    + destruct Hsh as (_ & _ & _ & _ & _ & -> & _). lia.
    + destruct Hsh as (_ & _ & -> & _). done.
    + intros i Hi. rewrite (sample_bin_shape nhp h1) by done. apply Hs. lia.
Qed.

Lemma accumulate_Some a nhp nhp' :
  accumulate a nhp = Some nhp' <-> UpdateNHArray nhp a = Returned tt nhp'.
Proof.
  unfold accumulate. destruct (UpdateNHArray nhp a) as [[] h|e h|]; split;
    (done || by intros [= ->]).
Qed.

Lemma update_all_cons a l nhp :
  update_all (a :: l) nhp = accumulate a nhp ≫= update_all l.
Proof. unfold accumulate. simpl. by destruct (UpdateNHArray nhp a). Qed.

(** A histogram array is its shape, its flag and its rows. *)
Lemma rows_ext h h' :
  wf h -> same_shape h h' -> normalized h' = normalized h ->
  (forall i, 0 <= i < elems h -> row h' i = row h i) ->
  h' = h.
Proof.
  intros Hwf Hsh Hfl Hrows.
  assert (Hwf' : wf h') by by eapply same_shape_wf.
  assert (Hbuf : dbuffer h' = dbuffer h).
  { pose proof Hwf as (Hn & He & _ & Hlen).
    pose proof Hsh as (_ & _ & Hnb & _ & _ & Hel & Hl).
    apply list_eq. intros j.
    destruct (decide (j < length (dbuffer h))%nat) as [Hj|Hj].
    - assert (Hpos : 0 < nbins h) by nia.
      pose proof (Z.div_mod (Z.of_nat j) (nbins h) ltac:(lia)) as Hdm.
      pose proof (Z.mod_pos_bound (Z.of_nat j) (nbins h) Hpos) as Hmb.
      set (i := Z.of_nat j / nbins h) in *. set (b := Z.of_nat j mod nbins h) in *.
      assert (Hi : 0 <= i < elems h).
      { split; [apply Z.div_pos; lia | apply Z.div_lt_upper_bound; nia]. }
      assert (Hjb : j = (Z.to_nat (getpdfptr h i) + Z.to_nat b)%nat)
        by (unfold getpdfptr; nia).
      rewrite Hjb at 2. rewrite <- (row_lookup h i (Z.to_nat b) Hwf Hi) by lia.
      assert (Hjb' : j = (Z.to_nat (getpdfptr h' i) + Z.to_nat b)%nat)
        by (unfold getpdfptr; rewrite Hnb; unfold getpdfptr in Hjb; exact Hjb).
      rewrite Hjb' at 1.
      rewrite <- (row_lookup h' i (Z.to_nat b) Hwf') by lia.
      by rewrite Hrows.
    - rewrite !lookup_ge_None_2; [done | lia | lia]. }
  destruct Hsh as (? & ? & ? & ? & ? & ? & _).
  destruct h, h'. simpl in *. by subst.
Qed.

Lemma UpdateNHArray_shape nhp a nhp' :
  UpdateNHArray nhp a = Returned tt nhp' ->
  same_shape nhp nhp' /\ normalized nhp = 0 /\ normalized nhp' = 0.
Proof.
  intros (Hn & _ & _ & Hl)%UpdateNHArray_Returned.
  apply update_loop_shape in Hl as [Hsh Hfl]. split; [done|]. split; [done | congruence].
Qed.

(** What a call of [UpdateNHArray] that returns has done, row by row. *)
Lemma UpdateNHArray_alter nhp a nhp' :
  wf nhp -> UpdateNHArray nhp a = Returned tt nhp' ->
  forall i, 0 <= i < elems nhp ->
    exists b, sample_bin nhp a i = Some b /\ 0 <= b < nbins nhp /\
      row nhp' i = alter incr (Z.to_nat b) (row nhp i).
Proof.
  intros Hwf (_ & _ & _ & Hl)%UpdateNHArray_Returned i Hi.
  pose proof Hwf as (_ & He & _).
  pose proof (update_loop_rows a (Z.to_nat (elems nhp)) 0 nhp nhp' Hwf
                ltac:(lia) ltac:(lia) Hl i Hi) as H.
  case_decide; [done | lia].
Qed.

(** When a call of [UpdateNHArray] returns. *)
Lemma UpdateNHArray_returns nhp a :
  wf nhp -> normalized nhp = 0 -> nd a = 1 ->
  dimensions a !! 0%nat = Some (elems nhp) ->
  (forall i, 0 <= i < elems nhp -> exists b, sample_bin nhp a i = Some b /\ 0 <= b < nbins nhp) ->
  exists nhp', UpdateNHArray nhp a = Returned tt nhp'.
Proof.
  intros Hwf Hn Hnd Hd Hs. pose proof Hwf as (Hnb & He & _).
  destruct (Z.eq_dec (elems nhp) 0) as [E|E].
  - exists nhp. apply UpdateNHArray_Returned. split_and!; try done. by rewrite E.
  - assert (0 < nbins nhp) by (destruct (Hs 0 ltac:(lia)) as (b & _ & ?); lia).
    destruct (update_loop_defined a (Z.to_nat (elems nhp)) 0 nhp Hwf) as [h Hh];
      [lia | lia | done | |].
    + intros i Hi. destruct (Hs i ltac:(lia)) as (b & Hb & _). by exists b.
    + exists h. by apply UpdateNHArray_Returned.
Qed.

(** The index [updatevalue] writes at, when the conversion is defined, is a
    bin of the row. *)
Lemma bin_index_range nhp v b :
  wf nhp -> 0 < nbins nhp -> bin_index nhp v = Some b -> 0 <= b < nbins nhp.
Proof.
  intros (_ & _ & Hm1 & _) Hnb. unfold bin_index.
  destruct (double_to_int _) as [n|]; simpl; [|done]. intros [= <-].
  destruct (Z.ltb_spec n 0); destruct (Z.gtb_spec 0 (nbinsm1 nhp));
    destruct (Z.gtb_spec n (nbinsm1 nhp)); lia.
Qed.

(** X2. On a well-formed histogram array with at least one bin that is not
    normalized, a call of [UpdateNHArray] with a one-dimensional array of
    [elems] doubles returns whenever the rounded quotient
    [rint((val - xl)/deltax)] of every sample converts to an [int]: no
    error is raised, every access stays inside the buffer, and the
    histogram array the call leaves is well formed, has the shape of the
    old one and is still not normalized. *)
Theorem UpdateNHArray_defined nhp a :
  wf nhp -> 0 < nbins nhp ->
  normalized nhp = 0 -> nd a = 1 ->
  dimensions a !! 0%nat = Some (elems nhp) ->
  (forall i, 0 <= i < elems nhp ->
     exists v n, load (data a) i = Some v /\
       double_to_int (rint ((v - xl nhp) / deltax nhp)) = Some n) ->
  exists nhp', UpdateNHArray nhp a = Returned tt nhp' /\
    wf nhp' /\ same_shape nhp nhp' /\ normalized nhp' = 0.
Proof.
  intros Hwf Hnb Hn Hnd Hd Hs.
  destruct (UpdateNHArray_returns nhp a Hwf Hn Hnd Hd) as [nhp' Hu].
  - intros i Hi. destruct (Hs i Hi) as (v & n & Hv & Hc).
    assert (Hb : is_Some (bin_index nhp v)) by (unfold bin_index; rewrite Hc; by eexists).
    destruct Hb as [b Hb]. exists b. split.
    + unfold sample_bin. by rewrite Hv.
    + by eapply bin_index_range.
  - exists nhp'. split; [exact Hu|].
    destruct (UpdateNHArray_shape _ _ _ Hu) as (Hsh & _ & Hn').
    split; [by eapply same_shape_wf|]. by split.
Qed.

Lemma UpdateNHArray_defined_witness :
  exists nhp', UpdateNHArray (scenario_hist 0 0 0) (one_sample 5) = Returned tt nhp' /\
    wf nhp' /\ same_shape (scenario_hist 0 0 0) nhp' /\ normalized nhp' = 0.
Proof.
  apply UpdateNHArray_defined.
  - apply wf_scenario_hist.
  - simpl. lia.
  - reflexivity.
  - reflexivity.
  - reflexivity.
  - intros i Hi. simpl in Hi. assert (i = 0) as -> by lia.
    exists 5%float, 5. split; [reflexivity | vm_compute; reflexivity].
Defined.



Lemma alter_incr_comm (r : list float) (i j : nat) :
  alter incr i (alter incr j r) = alter incr j (alter incr i r).
Proof.
  destruct (decide (i = j)) as [->|Hne]; [done|].
  by apply list_alter_alter_ne.
Qed.

(** Two calls of [UpdateNHArray] in either order. *)
Lemma accumulate_swap x y nhp :
  wf nhp -> accumulate x nhp ≫= accumulate y = accumulate y nhp ≫= accumulate x.
Proof.
  intros Hwf.
  assert (Hboth : forall x y h1 h2,
            accumulate x nhp = Some h1 -> accumulate y nhp = Some h2 ->
            exists h3, accumulate y h1 = Some h3 /\ accumulate x h2 = Some h3).
  { clear x y. intros x y h1 h2 Hx%accumulate_Some Hy%accumulate_Some.
    pose proof (UpdateNHArray_shape _ _ _ Hx) as (Hs1 & Hn & Hn1).
    pose proof (UpdateNHArray_shape _ _ _ Hy) as (Hs2 & _ & Hn2).
    assert (Hwf1 : wf h1) by by eapply same_shape_wf.
    assert (Hwf2 : wf h2) by by eapply same_shape_wf.
    pose proof (UpdateNHArray_alter _ _ _ Hwf Hx) as Hrx.
    pose proof (UpdateNHArray_alter _ _ _ Hwf Hy) as Hry.
    pose proof Hx as (_ & Hndx & Hdx & _)%UpdateNHArray_Returned.
    pose proof Hy as (_ & Hndy & Hdy & _)%UpdateNHArray_Returned.
    pose proof Hs1 as (_ & _ & Hnb1 & _ & _ & Hel1 & _).
    pose proof Hs2 as (_ & _ & Hnb2 & _ & _ & Hel2 & _).
    destruct (UpdateNHArray_returns h1 y Hwf1 Hn1 Hndy) as [h3 H3].
    { by rewrite Hel1. }
    { intros i Hi. rewrite (sample_bin_shape nhp h1), Hnb1 by done.
      destruct (Hry i ltac:(lia)) as (b & ? & ? & _). eauto. }
    destruct (UpdateNHArray_returns h2 x Hwf2 Hn2 Hndx) as [h3' H3'].
    { by rewrite Hel2. }
    { intros i Hi. rewrite (sample_bin_shape nhp h2), Hnb2 by done.
      destruct (Hrx i ltac:(lia)) as (b & ? & ? & _). eauto. }
    exists h3. split; [by apply accumulate_Some|]. apply accumulate_Some.
    rewrite H3'. f_equal.
    pose proof (UpdateNHArray_shape _ _ _ H3) as (Hs3 & _ & Hn3).
    pose proof (UpdateNHArray_shape _ _ _ H3') as (Hs3' & _ & Hn3').
    assert (Hs13 : same_shape nhp h3) by exact (same_shape_trans _ _ _ Hs1 Hs3).
    assert (Hwf3 : wf h3) by by eapply same_shape_wf.
    apply rows_ext; [done | | congruence |].
    { destruct Hs13 as (?&?&?&?&?&?&?).
      assert (Hs' : same_shape nhp h3') by exact (same_shape_trans _ _ _ Hs2 Hs3').
      destruct Hs' as (?&?&?&?&?&?&?). repeat split; congruence. }
    intros i Hi. destruct Hs13 as (_&_&_&_&_&Hel3&_). rewrite Hel3 in Hi.
    destruct (Hrx i Hi) as (bx & Hbx & _ & Hr1).
    destruct (Hry i Hi) as (by' & Hby & _ & Hr2).
    destruct (UpdateNHArray_alter _ _ _ Hwf1 H3 i ltac:(lia)) as (b3 & Hb3 & _ & Hr3).
    destruct (UpdateNHArray_alter _ _ _ Hwf2 H3' i ltac:(lia)) as (b3' & Hb3' & _ & Hr3').
    rewrite (sample_bin_shape nhp h1) in Hb3 by done.
    rewrite (sample_bin_shape nhp h2) in Hb3' by done.
    assert (b3 = by') as -> by congruence. assert (b3' = bx) as -> by congruence.
    rewrite Hr3, Hr3', Hr1, Hr2. apply alter_incr_comm. }
  assert (Hnone : forall x y h2,
            accumulate x nhp = None -> accumulate y nhp = Some h2 ->
            accumulate x h2 = None).
  { clear x y. intros x y h2 Hx Hy%accumulate_Some.
    destruct (accumulate x h2) as [h3|] eqn:H3; [exfalso | done].
    apply accumulate_Some in H3.
    pose proof (UpdateNHArray_shape _ _ _ Hy) as (Hs2 & Hn & Hn2).
    assert (Hwf2 : wf h2) by by eapply same_shape_wf.
    pose proof (UpdateNHArray_alter _ _ _ Hwf2 H3) as Hr.
    pose proof H3 as (_ & Hndx & Hdx & _)%UpdateNHArray_Returned.
    pose proof Hs2 as (_ & _ & Hnb2 & _ & _ & Hel2 & _).
    destruct (UpdateNHArray_returns nhp x Hwf Hn Hndx) as [h Hh].
    { by rewrite <- Hel2. }
    { intros i Hi. rewrite <- (sample_bin_shape nhp h2), <- Hnb2 by done.
      destruct (Hr i ltac:(lia)) as (b & ? & ? & _). eauto. }
    apply accumulate_Some in Hh. congruence. }
  destruct (accumulate x nhp) as [h1|] eqn:Hx, (accumulate y nhp) as [h2|] eqn:Hy;
    simpl.
  - destruct (Hboth x y h1 h2 Hx Hy) as (h3 & -> & ->). done.
  - by apply (Hnone y x h1).
  - symmetry. by apply (Hnone x y h2).
  - done.
Qed.

(** X4. The histogram array a sequence of calls of [UpdateNHArray] leads to
    does not depend on the order of the calls: two lists of sample arrays
    that are permutations of each other give the same array, or both give
    none (a call that raises or is undefined in one order is in the
    other). *)
Theorem update_all_perm l l' nhp :
  wf nhp -> l ≡ₚ l' -> update_all l nhp = update_all l' nhp.
Proof.
  intros Hwf Hp. revert nhp Hwf.
  induction Hp as [|a l l' Hp IH|a b l|l1 l2 l3 Hp1 IH1 Hp2 IH2]; intros nhp Hwf.
  - done.
  - rewrite !update_all_cons. destruct (accumulate a nhp) as [h|] eqn:Ha; [|done].
    simpl. apply IH. apply accumulate_Some, UpdateNHArray_shape in Ha as [Hs _].
    by eapply same_shape_wf.
  - rewrite !update_all_cons.
    pose proof (accumulate_swap a b nhp Hwf) as Hsw.
    destruct (accumulate a nhp) as [h1|], (accumulate b nhp) as [h2|];
      cbn [mbind option_bind] in *; rewrite ?update_all_cons.
    + destruct (accumulate b h1) as [h3|], (accumulate a h2) as [h3'|];
        cbn [mbind option_bind] in *; congruence.
    + first [by rewrite Hsw | by rewrite <- Hsw].
    + first [by rewrite Hsw | by rewrite <- Hsw].
    + done.
  - by rewrite IH1, IH2.
Qed.

Lemma update_all_perm_witness :
  wf (scenario_hist 0 0 0) /\
  [one_sample 5; one_sample 0; one_sample 5] ≡ₚ [one_sample 0; one_sample 5; one_sample 5] /\
  update_all [one_sample 5; one_sample 0; one_sample 5] (scenario_hist 0 0 0)
  = update_all [one_sample 0; one_sample 5; one_sample 5] (scenario_hist 0 0 0).
Proof.
  assert (Hp : [one_sample 5; one_sample 0; one_sample 5]
               ≡ₚ [one_sample 0; one_sample 5; one_sample 5]) by apply perm_swap.
  split; [apply wf_scenario_hist|]. split; [exact Hp|].
  exact (update_all_perm _ _ _ (wf_scenario_hist 0 0 0) Hp).
Defined.

Lemma count_bin_cons nhp a l i b :
  count_bin nhp (a :: l) i b
  = ((if decide (sample_bin nhp a i = Some b) then 1 else 0) + count_bin nhp l i b)%nat.
Proof.
  unfold count_bin. rewrite filter_cons. by case_decide.
Qed.

Lemma count_bin_shape nhp nhp' l i b :
  same_shape nhp nhp' -> count_bin nhp' l i b = count_bin nhp l i b.
Proof.
  intros Hs. induction l as [|a l IH]; [done|].
  by rewrite !count_bin_cons, IH, (sample_bin_shape nhp nhp').
Qed.

(** What [CreateNHArray] returns when it returns a histogram array. *)
Lemma CreateNHArray_inv x0 x1 n e nhp :
  CreateNHArray x0 x1 n e = Some (inl nhp) ->
  nhp = mkNHArray x0 x1 n (n - 1) ((x1 - x0) / double_of_int (n - 1))%float e
                  (replicate (Z.to_nat (e * n)) 0%float) 0 /\
  INT_MIN <= n - 1 <= INT_MAX /\ 0 <= e * n <= INT_MAX.
Proof.
  unfold CreateNHArray, calloc, sint, fits_int.
  destruct (Z.leb_spec INT_MIN (n - 1)), (Z.leb_spec (n - 1) INT_MAX);
    simpl; try discriminate.
  destruct (Z.leb_spec INT_MIN (e * n)), (Z.leb_spec (e * n) INT_MAX);
    simpl; try discriminate.
  destruct (Z.ltb_spec (e * n) 0); [discriminate|].
  intros [= <-]. split; [done | lia].
Qed.

(** Counters that hold counts keep doing so, as long as no count exceeds
    [2^53]. *)
Lemma update_all_counts l : forall nhp nhp' (f : Z -> Z -> Z),
  wf nhp ->
  (forall i b, 0 <= i < elems nhp -> 0 <= b < nbins nhp ->
     row nhp i !! Z.to_nat b = Some (double_of_int (f i b)) /\
     0 <= f i b /\ f i b + Z.of_nat (length l) <= 2 ^ 53) ->
  update_all l nhp = Some nhp' ->
  forall i b, 0 <= i < elems nhp -> 0 <= b < nbins nhp ->
    row nhp' i !! Z.to_nat b
    = Some (double_of_int (f i b + Z.of_nat (count_bin nhp l i b))).
Proof.
  induction l as [|a l IH]; intros nhp nhp' f Hwf Hf.
  - intros [= <-] i b Hi Hb. destruct (Hf i b Hi Hb) as (-> & _).
    do 2 f_equal. unfold count_bin. simpl. lia.
  - rewrite update_all_cons.
    destruct (accumulate a nhp) as [h|] eqn:Ha; [|discriminate].
    cbn [mbind option_bind]. intros Hl i b Hi Hb.
    apply accumulate_Some in Ha.
    pose proof (UpdateNHArray_shape _ _ _ Ha) as (Hs & _ & _).
    pose proof (UpdateNHArray_alter _ _ _ Hwf Ha) as Hrows.
    pose proof Hs as (_ & _ & Hnb & _ & _ & Hel & _).
    set (f' := fun i b => f i b +
                 (if decide (sample_bin nhp a i = Some b) then 1 else 0)).
    assert (Hf' : forall i b, 0 <= i < elems h -> 0 <= b < nbins h ->
              row h i !! Z.to_nat b = Some (double_of_int (f' i b)) /\
              0 <= f' i b /\ f' i b + Z.of_nat (length l) <= 2 ^ 53).
    { intros i' b' Hi' Hb'. rewrite Hel in Hi'. rewrite Hnb in Hb'.
      destruct (Hf i' b' Hi' Hb') as (Hr & H0 & Hle).
      destruct (Hrows i' Hi') as (bi & Hbi & Hbr & Hrow).
      cbn [length] in Hle. unfold f'. rewrite Hrow, Hbi.
      case_decide as Hd.
      - injection Hd as ->. rewrite list_lookup_alter_eq, Hr. simpl. unfold incr.
        rewrite double_of_int_succ by lia. split; [done | lia].
      - rewrite list_lookup_alter_ne by (intros E; apply Hd; f_equal; lia).
        rewrite Z.add_0_r. split; [done | lia]. }
    rewrite <- Hel in Hi. rewrite <- Hnb in Hb.
    rewrite (IH h nhp' f' (same_shape_wf _ _ Hs Hwf) Hf' Hl i b Hi Hb).
    do 2 f_equal. rewrite (count_bin_shape nhp h) by done.
    rewrite count_bin_cons. unfold f'. case_decide; lia.
Qed.

(** X5. After the calls of [UpdateNHArray] with the arrays of [l], at most
    [2^53] of them, on a created histogram array, the counter of bin [b] of
    variable [i] is the number of arrays of [l] whose sample of variable [i]
    has bin [b], as a double. *)
Theorem histogram_counts x0 x1 n e nhp0 l nhp :
  0 <= n -> 0 <= e ->
  CreateNHArray x0 x1 n e = Some (inl nhp0) ->
  update_all l nhp0 = Some nhp ->
  Z.of_nat (length l) <= 2 ^ 53 ->
  forall i b, 0 <= i < e -> 0 <= b < n ->
    row nhp i !! Z.to_nat b
    = Some (double_of_int (Z.of_nat (count_bin nhp0 l i b))).
Proof.
  intros Hn He Hc Hl Hlen i b Hi Hb.
  pose proof (CreateNHArray_wf _ _ _ _ _ Hn He Hc) as Hwf.
  apply CreateNHArray_inv in Hc as (E & _ & Hen).
  assert (Hel : elems nhp0 = e) by (by rewrite E).
  assert (Hnb : nbins nhp0 = n) by (by rewrite E).
  rewrite <- Hel in Hi. rewrite <- Hnb in Hb.
  rewrite (update_all_counts l nhp0 nhp (fun _ _ => 0) Hwf); [done| |done|done|done].
  intros i' b' Hi' Hb'. split; [|lia].
  rewrite (row_replicate nhp0 i' 0%float Hwf Hi').
  - apply lookup_replicate_2. lia.
  - rewrite E. simpl. by rewrite length_replicate.
Qed.

Lemma histogram_counts_witness :
  0 <= 11 /\ 0 <= 1 /\
  CreateNHArray 0 10 11 1 = Some (inl (scenario_hist 0 0 0)) /\
  update_all [one_sample 5; one_sample 0; one_sample 5] (scenario_hist 0 0 0)
  = Some (scenario_hist 1 2 0) /\
  Z.of_nat (length [one_sample 5; one_sample 0; one_sample 5]) <= 2 ^ 53 /\
  forall i b, 0 <= i < 1 -> 0 <= b < 11 ->
    row (scenario_hist 1 2 0) i !! Z.to_nat b
    = Some (double_of_int (Z.of_nat
        (count_bin (scenario_hist 0 0 0)
           [one_sample 5; one_sample 0; one_sample 5] i b))).
Proof.
  assert (Hc : CreateNHArray 0 10 11 1 = Some (inl (scenario_hist 0 0 0)))
    by (vm_compute; reflexivity).
  assert (Hl : update_all [one_sample 5; one_sample 0; one_sample 5]
                 (scenario_hist 0 0 0) = Some (scenario_hist 1 2 0))
    by (vm_compute; reflexivity).
  assert (Hlen : Z.of_nat (length [one_sample 5; one_sample 0; one_sample 5]) <= 2 ^ 53)
    by (simpl; lia).
  split; [lia|]. split; [lia|]. split; [exact Hc|]. split; [exact Hl|].
  split; [exact Hlen|].
  exact (histogram_counts 0 10 11 1 _ _ _ ltac:(lia) ltac:(lia) Hc Hl Hlen).
Defined.

(** ** What stays the same *)

Lemma UpdateNHArray_Raised nhp a e nhp' :
  UpdateNHArray nhp a = Raised e nhp' -> nhp' = nhp.
Proof.
  unfold UpdateNHArray.
  destruct (negb (normalized nhp =? 0)); [by intros [= _ <-]|].
  destruct (negb (nd a =? 1)); [by intros [= _ <-]|].
  destruct (dimensions a !! 0%nat) as [d|]; [|done].
  destruct (negb (d =? elems nhp)); [by intros [= _ <-]|].
  by destruct (update_loop _ _ _ _).
Qed.

(** X6. Whatever calls of [UpdateNHArray] and [GetXRange] follow, a
    well-formed histogram array stays well formed and keeps its edges, its
    numbers of bins and of variables and its bin width, so [GetDeltaX]
    always returns the same double; and a normalized histogram array is
    never changed again. *)
Theorem reachable_invariant nhp0 nhp :
  wf nhp0 -> reachable nhp0 nhp ->
  wf nhp /\ same_shape nhp0 nhp /\ GetDeltaX nhp = GetDeltaX nhp0 /\
  (normalized nhp0 <> 0 -> nhp = nhp0).
Proof.
  intros Hwf0 Hr.
  induction Hr as [|nhp a nhp' Hr IH Hu|nhp a e nhp' Hr IH Hu
                   |nhp xl0 xu0 prob r nhp' Hr IH Hg].
  - split; [done|]. split; [apply same_shape_refl | done].
  - destruct IH as (Hwf & Hs & Hd & Hfrozen).
    apply UpdateNHArray_Returned in Hu as (Hn & _ & _ & Hl).
    apply update_loop_shape in Hl as [Hs' _].
    split; [by eapply same_shape_wf|].
    split; [by eapply same_shape_trans|].
    split; [destruct Hs' as (_&_&_&_&Hdx&_); unfold GetDeltaX in *; congruence|].
    intros H0. rewrite (Hfrozen H0) in Hn. done.
  - apply UpdateNHArray_Raised in Hu as ->. exact IH.
  - destruct IH as (Hwf & Hs & Hd & Hfrozen).
    apply GetXRange_Returned in Hg as (Hn & _ & _).
    pose proof (normalize_once_shape _ _ Hn) as (Hs' & _ & Hsame).
    split; [by eapply same_shape_wf|].
    split; [by eapply same_shape_trans|].
    split; [destruct Hs' as (_&_&_&_&Hdx&_); unfold GetDeltaX in *; congruence|].
    intros H0. rewrite Hsame; [by apply Hfrozen|]. by rewrite (Hfrozen H0).
Qed.

Lemma reachable_invariant_witness :
  wf (scenario_hist 1 10 0) /\
  reachable (scenario_hist 1 10 0) (scenario_hist (1 / 11) (10 / 11) 1) /\
  wf (scenario_hist (1 / 11) (10 / 11) 1) /\
  same_shape (scenario_hist 1 10 0) (scenario_hist (1 / 11) (10 / 11) 1) /\
  GetDeltaX (scenario_hist (1 / 11) (10 / 11) 1) = GetDeltaX (scenario_hist 1 10 0) /\
  (normalized (scenario_hist 1 10 0) <> 0 ->
   scenario_hist (1 / 11) (10 / 11) 1 = scenario_hist 1 10 0).
Proof.
  assert (Hr : reachable (scenario_hist 1 10 0) (scenario_hist (1 / 11) (10 / 11) 1)).
  { apply (reachable_range _ (scenario_hist 1 10 0) 3 7 p02 [(4%float, 5%float)]);
      [apply reachable_refl | vm_compute; reflexivity]. }
  split; [apply wf_scenario_hist|]. split; [exact Hr|].
  exact (reachable_invariant _ _ (wf_scenario_hist 1 10 0) Hr).
Defined.

(** X7. [CreateNHArray] accepts [nbins = 1]: it returns a histogram array
    with one bin per variable whose bin width, [(xu - xl) / 0], is a NaN or
    an infinity; no error is raised. *)
Theorem CreateNHArray_one_bin x0 x1 e :
  0 <= e <= INT_MAX ->
  exists nhp, CreateNHArray x0 x1 1 e = Some (inl nhp) /\
    nbins nhp = 1 /\ elems nhp = e /\
    dbuffer nhp = replicate (Z.to_nat e) 0%float /\
    (GetDeltaX nhp = nan \/ GetDeltaX nhp = infinity \/ GetDeltaX nhp = neg_infinity).
Proof.
  intros He. unfold CreateNHArray, calloc, sint, fits_int, INT_MIN, INT_MAX in *.
  change (1 - 1) with 0. cbn [Z.leb Z.compare andb mbind option_bind].
  rewrite Z.mul_1_r.
  destruct (Z.leb_spec (-2147483648) e); [|lia].
  destruct (Z.leb_spec e 2147483647); [|lia].
  cbn [andb mbind option_bind].
  destruct (Z.ltb_spec e 0); [lia|].
  eexists. split; [done|]. cbn [nbins elems dbuffer GetDeltaX deltax].
  split; [done|]. split; [done|]. split; [done|].
  change (double_of_int 0) with 0%float. apply div_by_zero.
Qed.

Lemma CreateNHArray_one_bin_witness :
  0 <= 2 <= INT_MAX /\
  exists nhp, CreateNHArray 0 10 1 2 = Some (inl nhp) /\
    nbins nhp = 1 /\ elems nhp = 2 /\
    dbuffer nhp = replicate (Z.to_nat 2) 0%float /\
    (GetDeltaX nhp = nan \/ GetDeltaX nhp = infinity \/ GetDeltaX nhp = neg_infinity).
Proof.
  assert (H : 0 <= 2 <= INT_MAX) by (unfold INT_MAX; lia).
  split; [exact H | exact (CreateNHArray_one_bin 0 10 2 H)].
Defined.

Lemma normalizepdf_sum nhp i nhp' :
  wf nhp -> 0 <= i < elems nhp -> normalizepdf nhp i = Some nhp' ->
  is_Some (sum_row (row nhp i) 0).
Proof.
  intros Hwf Hi. pose proof Hwf as (Hnb & _). unfold normalizepdf.
  destruct (sum_loop _ _ _ _ _) as [Nx|] eqn:Hs; [|discriminate]. intros _.
  rewrite <- (wf_row_length nhp i Hwf Hi), sum_loop_row in Hs; [by eexists|].
  rewrite Z.add_0_r. apply wf_row_reads; lia.
Qed.

Lemma normalize_loop_sums n ielem nhp nhp' :
  wf nhp -> 0 <= ielem -> ielem + Z.of_nat n <= elems nhp ->
  normalize_loop n ielem nhp = Some nhp' ->
  forall i, ielem <= i < ielem + Z.of_nat n -> is_Some (sum_row (row nhp i) 0).
Proof.
  revert ielem nhp. induction n as [|n IH]; intros ielem nhp Hwf H0 Hn;
    cbn [normalize_loop]; [intros; lia|].
  destruct (normalizepdf nhp ielem) as [h1|] eqn:H1; cbn [mbind option_bind];
    [|discriminate].
  intros Hl i Hi.
  destruct (normalizepdf_sum nhp ielem h1 Hwf ltac:(lia) H1) as [N HN].
  destruct (Z.eq_dec i ielem) as [->|Hne]; [by eexists|].
  destruct (normalizepdf_row nhp ielem N Hwf ltac:(lia) HN) as (h & Hh & _ & Hother).
  assert (h = h1) as -> by congruence.
  pose proof (normalizepdf_shape _ _ _ H1) as [Hs _].
  pose proof Hs as (_&_&_&_&_&Hel&_).
  rewrite <- (Hother i) by lia.
  apply (IH (ielem + 1) h1); [by eapply same_shape_wf | lia | lia | done | lia].
Qed.

(** The first [GetXRange] on a histogram array. *)
Lemma GetXRange_first_rows xl0 xu0 nhp prob :
  wf nhp -> normalized nhp = 0 ->
  ((forall i, 0 <= i < elems nhp -> is_Some (sum_row (row nhp i) 0)) ->
   exists r nhp', GetXRange xl0 xu0 nhp prob = Returned r nhp') /\
  (forall r nhp', GetXRange xl0 xu0 nhp prob = Returned r nhp' ->
     normalized nhp' = 1 /\ same_shape nhp nhp' /\
     length r = Z.to_nat (elems nhp) /\
     forall i, 0 <= i < elems nhp ->
       exists N, sum_row (row nhp i) 0 = Some N /\
         row nhp' i = (fun c => c / double_of_int N)%float <$> row nhp i).
Proof.
  intros Hwf Hn. pose proof Hwf as (_ & He & _).
  assert (Hrows : forall h, normalize_loop (Z.to_nat (elems nhp)) 0 nhp = Some h ->
            forall i, 0 <= i < elems nhp ->
              exists N, sum_row (row nhp i) 0 = Some N /\
                row h i = (fun c => c / double_of_int N)%float <$> row nhp i).
  { intros h Hh i Hi.
    pose proof (normalize_loop_sums (Z.to_nat (elems nhp)) 0 nhp h Hwf ltac:(lia)
                  ltac:(lia) Hh) as Hs.
    destruct (normalize_loop_rows (fun i => default 0 (sum_row (row nhp i) 0))
                (Z.to_nat (elems nhp)) 0 nhp Hwf ltac:(lia) ltac:(lia))
      as (h' & Hh' & Hr).
    { intros j Hj. destruct (Hs j Hj) as [N ->]. done. }
    assert (h' = h) as -> by congruence.
    destruct (Hs i ltac:(lia)) as [N HN]. exists N. split; [done|].
    rewrite (Hr i Hi), HN. case_decide; [done | lia]. }
  split.
  - intros Hs.
    destruct (normalize_loop_rows (fun i => default 0 (sum_row (row nhp i) 0))
                (Z.to_nat (elems nhp)) 0 nhp Hwf ltac:(lia) ltac:(lia))
      as (h & Hh & _).
    { intros j Hj. destruct (Hs j ltac:(lia)) as [N ->]. done. }
    assert (Hno : normalize_once nhp = Some (set_normalized h 1)).
    { unfold normalize_once. rewrite Hn. simpl. by rewrite Hh. }
    destruct (GetXRange_defined xl0 xu0 nhp prob _ Hwf Hno) as [r Hr]. eauto.
  - intros r nhp' Hr.
    destruct (GetXRange_rows _ _ _ _ _ _ Hwf Hr) as [Hlen _].
    apply GetXRange_Returned in Hr as (Hno & _ & _).
    pose proof (normalize_once_shape _ _ Hno) as (Hs & _ & _).
    revert Hno. unfold normalize_once. rewrite Hn. simpl.
    destruct (normalize_loop _ _ _) as [h|] eqn:Hh; simpl; [|discriminate].
    intros [= <-]. split; [done|]. split; [done|]. split; [done|].
    intros i Hi. exact (Hrows h eq_refl i Hi).
Qed.

(** X8. The first [GetXRange] on a well-formed histogram array returns as
    soon as the [int] total of every row is defined; and when it returns
    it has set the flag, kept the shape, produced one pair per variable and
    divided every entry of every row by the [int] total of that row. *)
Theorem GetXRange_first_call xl0 xu0 nhp prob :
  wf nhp -> normalized nhp = 0 ->
  ((forall i, 0 <= i < elems nhp -> is_Some (sum_row (row nhp i) 0)) ->
   exists r nhp', GetXRange xl0 xu0 nhp prob = Returned r nhp') /\
  (forall r nhp', GetXRange xl0 xu0 nhp prob = Returned r nhp' ->
     normalized nhp' = 1 /\ same_shape nhp nhp' /\
     length r = Z.to_nat (elems nhp) /\
     forall i, 0 <= i < elems nhp ->
       exists N, sum_row (row nhp i) 0 = Some N /\
         row nhp' i = (fun c => c / double_of_int N)%float <$> row nhp i).
Proof. apply GetXRange_first_rows. Qed.

Lemma GetXRange_first_call_witness :
  wf (scenario_hist 1 10 0) /\ normalized (scenario_hist 1 10 0) = 0 /\
  ((forall i, 0 <= i < elems (scenario_hist 1 10 0) ->
      is_Some (sum_row (row (scenario_hist 1 10 0) i) 0)) ->
   exists r nhp', GetXRange 3 7 (scenario_hist 1 10 0) p02 = Returned r nhp') /\
  (forall r nhp', GetXRange 3 7 (scenario_hist 1 10 0) p02 = Returned r nhp' ->
     normalized nhp' = 1 /\ same_shape (scenario_hist 1 10 0) nhp' /\
     length r = Z.to_nat (elems (scenario_hist 1 10 0)) /\
     forall i, 0 <= i < elems (scenario_hist 1 10 0) ->
       exists N, sum_row (row (scenario_hist 1 10 0) i) 0 = Some N /\
         row nhp' i = (fun c => c / double_of_int N)%float
                      <$> row (scenario_hist 1 10 0) i).
Proof.
  split; [apply wf_scenario_hist|]. split; [reflexivity|].
  exact (GetXRange_first_call 3 7 (scenario_hist 1 10 0) p02
           (wf_scenario_hist 1 10 0) eq_refl).
Defined.

(** ** The sample at the lower edge *)

Lemma sub_diag_zero (x : float) : finite_double x = true -> (x - x)%float = 0%float.
Proof.
  unfold finite_double. intros Hx. apply Prim2SF_inj. rewrite FloatAxioms.sub_spec.
  change (Prim2SF 0) with (S754_zero false).
  destruct (Prim2SF x) as [s|s| |s m e]; try discriminate.
  - by destruct s.
  - unfold SF64sub, SFsub. by rewrite Z.sub_diag.
Qed.

Lemma zero_div (d : float) :
  proper_width d = true -> (0 / d)%float = 0%float \/ (0 / d)%float = (-0)%float.
Proof.
  unfold proper_width. intros Hd.
  assert (H : Prim2SF (0 / d) = S754_zero false \/ Prim2SF (0 / d) = S754_zero true).
  { rewrite FloatAxioms.div_spec. change (Prim2SF 0) with (S754_zero false).
    destruct (Prim2SF d) as [s|s| |s m e]; try discriminate; destruct s; auto. }
  destruct H as [H|H]; [left | right]; apply Prim2SF_inj; rewrite H; done.
Qed.

(** X10. A sample exactly at the lower edge goes to bin 0, whenever the
    lower edge is finite and the bin width is neither zero nor a NaN. *)
Theorem lower_edge_bin nhp :
  0 <= nbinsm1 nhp -> finite_double (xl nhp) = true -> proper_width (deltax nhp) = true ->
  bin_index nhp (xl nhp) = Some 0.
Proof.
  intros Hm Hx Hd. unfold bin_index. rewrite sub_diag_zero by done.
  assert (Hq : double_to_int (rint (0 / deltax nhp)) = Some 0).
  { destruct (zero_div _ Hd) as [-> | ->]; by vm_compute. }
  rewrite Hq. simpl. destruct (Z.gtb_spec 0 (nbinsm1 nhp)); [lia | done].
Qed.

Lemma lower_edge_bin_witness :
  0 <= nbinsm1 (scenario_hist 0 0 0) /\
  finite_double (xl (scenario_hist 0 0 0)) = true /\
  proper_width (deltax (scenario_hist 0 0 0)) = true /\
  bin_index (scenario_hist 0 0 0) (xl (scenario_hist 0 0 0)) = Some 0.
Proof.
  assert (H0 : 0 <= nbinsm1 (scenario_hist 0 0 0)) by (simpl; lia).
  split; [exact H0|]. split; [reflexivity|]. split; [reflexivity|].
  exact (lower_edge_bin (scenario_hist 0 0 0) H0 eq_refl eq_refl).
Defined.

(** ** A histogram array without a sample *)

Lemma add_nan (p : float) : (p + nan)%float = nan.
Proof.
  apply Prim2SF_inj. rewrite FloatAxioms.add_spec.
  change (Prim2SF nan) with S754_nan. by destruct (Prim2SF p) as [[]|[]| |].
Qed.

Lemma ltb_nan (t : float) : (t <? nan)%float = false.
Proof.
  rewrite FloatAxioms.ltb_spec. change (Prim2SF nan) with S754_nan.
  by destruct (Prim2SF t) as [[]|[]| |].
Qed.

Lemma first_above_nan t n p : first_above t (replicate n nan) p = None.
Proof.
  revert p. induction n as [|n IH]; intros p; simpl; [done|].
  rewrite add_nan, ltb_nan, IH. done.
Qed.

Lemma scan_nan x0 dx pl pu n nbin p gotlow xlo xuo :
  scan x0 dx pl pu (replicate n nan) nbin p gotlow xlo xuo = (xlo, xuo).
Proof.
  apply injective_projections; simpl.
  - apply scan_lower_None, first_above_nan.
  - apply scan_upper_None, first_above_nan.
Qed.

Lemma Zsum_replicate n c : Zsum (replicate n c) = Z.of_nat n * c.
Proof. induction n as [|n IH]; unfold Zsum in *; simpl; [done | rewrite IH; lia]. Qed.

Lemma GetXRange_no_crossing xl0 xu0 nhp prob r nhp' :
  wf nhp -> GetXRange xl0 xu0 nhp prob = Returned r nhp' ->
  (forall i, 0 <= i < elems nhp ->
     row nhp' i = replicate (Z.to_nat (nbins nhp)) nan) ->
  r = replicate (Z.to_nat (elems nhp)) (xl0, xu0).
Proof.
  intros Hwf Hr Hrows. pose proof Hwf as (_ & He & _).
  destruct (GetXRange_rows _ _ _ _ _ _ Hwf Hr) as [Hlen Hscan].
  assert (Hall : forall i, (i < length r)%nat -> r !! i = Some (xl0, xu0)).
  { intros i. induction i as [|i IH]; intros Hi.
    - rewrite (Hscan 0%nat Hi), Hrows by lia. by rewrite scan_nan.
    - rewrite (Hscan (S i) Hi), Hrows by lia. rewrite scan_nan.
      simpl. rewrite IH by lia. done. }
  apply list_eq. intros i. destruct (decide (i < length r)%nat) as [Hi|Hi].
  - rewrite Hall by done. symmetry. apply lookup_replicate_2. lia.
  - rewrite !lookup_ge_None_2; [done | rewrite length_replicate; lia | lia].
Qed.

(** X11. [GetXRange] on a histogram array that has received no sample
    raises nothing: every count becomes the NaN [0/0], no running mass
    exceeds a threshold, and both bounds of every variable are the doubles
    the uninitialised locals held on entry, whatever the tail
    probability. *)
Theorem GetXRange_no_sample x0 x1 n e nhp0 xl0 xu0 prob :
  0 <= n -> 0 <= e ->
  CreateNHArray x0 x1 n e = Some (inl nhp0) ->
  exists nhp', GetXRange xl0 xu0 nhp0 prob
               = Returned (replicate (Z.to_nat e) (xl0, xu0)) nhp' /\
    normalized nhp' = 1 /\
    forall i, 0 <= i < e -> row nhp' i = replicate (Z.to_nat n) nan.
Proof.
  intros Hn He Hc.
  pose proof (CreateNHArray_wf _ _ _ _ _ Hn He Hc) as Hwf.
  pose proof (CreateNHArray_inv _ _ _ _ _ Hc) as (E & _ & Hen).
  assert (Hel : elems nhp0 = e) by (by rewrite E).
  assert (Hnb : nbins nhp0 = n) by (by rewrite E).
  assert (Hfl : normalized nhp0 = 0) by (by rewrite E).
  assert (Hz : forall i, 0 <= i < elems nhp0 ->
            row nhp0 i = replicate (Z.to_nat (nbins nhp0)) 0%float).
  { intros i Hi. apply row_replicate; [done | done|].
    rewrite E. simpl. by rewrite length_replicate. }
  destruct (GetXRange_first_rows xl0 xu0 nhp0 prob Hwf Hfl) as [Hdef Heff].
  destruct Hdef as (r & nhp' & Hr).
  { intros i Hi. rewrite Hz by done. exists 0.
    change 0%float with (double_of_int 0). rewrite <- fmap_replicate.
    rewrite sum_row_counts; rewrite ?Zsum_replicate;
      [f_equal; lia | by apply Forall_replicate | lia | unfold INT_MAX; lia]. }
  destruct (Heff r nhp' Hr) as (Hfl' & _ & _ & Hrows).
  assert (Hnan : forall i, 0 <= i < elems nhp0 ->
            row nhp' i = replicate (Z.to_nat (nbins nhp0)) nan).
  { intros i Hi. destruct (Hrows i Hi) as (N & HN & ->).
    rewrite Hz in * by done.
    assert (N = 0) as ->.
    { revert HN. change 0%float with (double_of_int 0). rewrite <- fmap_replicate.
      rewrite sum_row_counts; rewrite ?Zsum_replicate;
        [intros [= <-]; lia | by apply Forall_replicate | lia | unfold INT_MAX; lia]. }
    by rewrite fmap_replicate. }
  exists nhp'. rewrite <- Hel, <- Hnb.
  rewrite <- (GetXRange_no_crossing xl0 xu0 nhp0 prob r nhp' Hwf Hr Hnan).
  split; [done|]. split; [done|]. exact Hnan.
Qed.

Lemma GetXRange_no_sample_witness :
  0 <= 11 /\ 0 <= 2 /\
  CreateNHArray 0 10 11 2 = Some (inl (two_hist 0 0 0)) /\
  exists nhp', GetXRange 3 7 (two_hist 0 0 0) p02
               = Returned (replicate (Z.to_nat 2) (3%float, 7%float)) nhp' /\
    normalized nhp' = 1 /\
    forall i, 0 <= i < 2 -> row nhp' i = replicate (Z.to_nat 11) nan.
Proof.
  assert (Hc : CreateNHArray 0 10 11 2 = Some (inl (two_hist 0 0 0)))
    by (vm_compute; reflexivity).
  split; [lia|]. split; [lia|]. split; [exact Hc|].
  exact (GetXRange_no_sample 0 10 11 2 (two_hist 0 0 0) 3 7 p02
           ltac:(lia) ltac:(lia) Hc).
Defined.

(** ** A variable whose samples all fell into one bin *)

Lemma SFdiv_self c :
  Z.pos c < 2 ^ 53 -> SF64div (SFint c) (SFint c) = SF_one.
Proof.
  intros Hc. destruct (SFint_canonical c Hc) as (Hd & HM & _).
  pose proof (digits2_pos_bounds c) as [Hlo Hhi].
  unfold SFint. set (d := Z.pos (digits2_pos c)) in *.
  set (M := (shl_align c 0 (d - 53)).1) in *.
  assert (0 < d) by (unfold d; lia).
  assert (HP1 : 2 ^ 52 = 2 ^ (d - 1) * 2 ^ (53 - d))
    by (rewrite <- Z.pow_add_r by lia; f_equal; lia).
  assert (HP1' : 2 ^ 53 = 2 ^ d * 2 ^ (53 - d))
    by (rewrite <- Z.pow_add_r by lia; f_equal; lia).
  assert (0 < 2 ^ (53 - d)) by (apply Z.pow_pos_nonneg; lia).
  assert (HB : 2 ^ 52 <= Z.pos M < 2 ^ 53) by nia.
  unfold SF64div, SFdiv, SFdiv_core_binary.
  rewrite (Zdigits2_53 (Z.pos M)) by lia.
  replace (fexp prec emax (53 + (d - 53) - (53 + (d - 53)))) with (-53)
    by (unfold fexp, SpecFloat.emin, emax, prec; lia).
  change IntDef.Z.min with Z.min. rewrite Z.min_l by lia.
  replace (d - 53 - (d - 53) - -53) with 53 by lia. cbv iota beta.
  change IntDef.Z.shiftl with Z.shiftl. rewrite Z.shiftl_mul_pow2 by lia.
  pose proof (Z.div_eucl_eq (Z.pos M * 2 ^ 53) (Z.pos M) ltac:(lia)) as Heq.
  pose proof (Z.mod_pos_bound (Z.pos M * 2 ^ 53) (Z.pos M) ltac:(lia)) as Hmod.
  unfold Z.modulo in Hmod. change IntDef.Z.div_eucl with Z.div_eucl.
  destruct (Z.div_eucl (Z.pos M * 2 ^ 53) (Z.pos M)) as [q r].
  assert (q = 2 ^ 53) as ->
    by (destruct (Z.lt_trichotomy q (2 ^ 53)) as [?|[?|?]]; [nia | done | nia]).
  assert (r = 0) as -> by lia.
  assert (Hloc : SpecFloat.new_location (Z.pos M) 0 = loc_Exact).
  { unfold SpecFloat.new_location. by destruct (IntDef.Z.even (Z.pos M)). }
  rewrite Hloc. by vm_compute.
Qed.

Lemma div_self_int N :
  1 <= N < 2 ^ 53 -> (double_of_int N / double_of_int N)%float = 1%float.
Proof.
  intros HN. destruct N as [|p|p]; try lia.
  apply Prim2SF_inj. rewrite FloatAxioms.div_spec.
  rewrite double_of_int_pos, Prim2SF_of_pos by lia.
  rewrite SFdiv_self by lia. done.
Qed.

Lemma zero_div_int N :
  1 <= N < 2 ^ 53 -> (double_of_int 0 / double_of_int N)%float = 0%float.
Proof.
  intros HN. destruct N as [|p|p]; try lia.
  apply Prim2SF_inj. rewrite FloatAxioms.div_spec.
  rewrite double_of_int_pos, Prim2SF_of_pos by lia. done.
Qed.

Lemma first_above_single t j : forall r,
  (forall b, (b < j)%nat -> r !! b = Some 0%float) -> r !! j = Some 1%float ->
  (t <? 0)%float = false -> (t <? 1)%float = true ->
  first_above t r 0%float = Some j.
Proof.
  induction j as [|j IH]; intros r Hz H1 Ht0 Ht1.
  - destruct r as [|c r]; [done|]. injection H1 as ->. simpl.
    change (0 + 1)%float with 1%float. by rewrite Ht1.
  - destruct r as [|c r]; [done|].
    pose proof (Hz 0%nat ltac:(lia)) as Hc. injection Hc as ->. simpl.
    change (0 + 0)%float with 0%float. rewrite Ht0.
    rewrite (IH r); [done | | done | done | done].
    intros b Hb. apply (Hz (S b)). lia.
Qed.

(** The sign of a quotient by 2. *)
Lemma half_nonneg (prob : float) :
  (0 <=? prob)%float = true -> (prob / 2 <? 0)%float = false.
Proof.
  rewrite FloatAxioms.leb_spec, FloatAxioms.ltb_spec, FloatAxioms.div_spec.
  change (Prim2SF 0) with (S754_zero false). change (Prim2SF 2) with SF_two.
  destruct (Prim2SF prob) as [s|s| |s m e]; try done.
  - by destruct s.
  - destruct s; [done|]. intros _.
    assert (Hy : SF64div (S754_finite false m e) SF_two = S754_zero false \/
                 (exists mf ef, SF64div (S754_finite false m e) SF_two
                                = S754_finite false mf ef) \/
                 SF64div (S754_finite false m e) SF_two = S754_infinity false).
    { unfold SF64div, SF_two, SFdiv. cbn [xorb].
      destruct (SFdiv_core_binary prec emax (Z.pos m) e 4503599627370496 (-51))
        as [[q e'] l] eqn:Hcore.
      apply binary_round_aux_sign.
      revert Hcore. unfold SFdiv_core_binary.
      set (m' := match _ with 0 => Z.pos m | Z.pos _ => _ | Z.neg _ => 0 end).
      assert (0 <= m').
      { unfold m'. destruct (_ - _ - _); try lia.
        change IntDef.Z.shiftl with Z.shiftl. apply Z.shiftl_nonneg. lia. }
      pose proof (Z.div_pos m' 4503599627370496 ltac:(lia) ltac:(lia)) as Hdiv.
      unfold Z.div in Hdiv. change IntDef.Z.div_eucl with Z.div_eucl.
      destruct (Z.div_eucl m' 4503599627370496) as [q0 r0]. cbn [fst] in Hdiv.
      by intros [= <- _ _]. }
    destruct Hy as [->|[(mf & ef & ->)| ->]]; done.
Qed.

Lemma thresholds_proper (prob : float) :
  (0 <=? prob)%float = true -> (prob <=? 1)%float = true ->
  ((thresholds prob).2 <? 1)%float = true ->
  ((thresholds prob).1 <? 0)%float = false /\
  ((thresholds prob).1 <? 1)%float = true /\
  ((thresholds prob).2 <? 0)%float = false.
Proof.
  intros H0 H1 Hu. pose proof (half_le_rest prob H1) as Hle.
  pose proof (half_nonneg prob H0) as Hl0.
  change ((prob / 2 <=? (thresholds prob).2)%float = true) in Hle.
  cbn [thresholds fst] in *.
  split; [done|]. split; [by eapply leb_ltb_trans|].
  destruct ((thresholds prob).2 <? 0)%float eqn:E; [|done].
  pose proof (leb_ltb_trans _ _ _ Hle E). cbn [thresholds snd] in *. congruence.
Qed.

(** X12. For a variable all of whose [N] samples, between 1 and [INT_MAX]
    of them, fell into bin [j], the first [GetXRange] with a tail
    probability between 0 and 1 whose [pHigh] is below 1 returns the bounds
    [xl + deltax * (j - 1)] and [xl + deltax * j]. *)
Theorem single_bin_range xl0 xu0 nhp prob r nhp' i j N :
  wf nhp -> normalized nhp = 0 ->
  0 <= i < elems nhp -> 0 <= j < nbins nhp -> 1 <= N <= INT_MAX ->
  (forall b, 0 <= b < nbins nhp ->
     row nhp i !! Z.to_nat b
     = Some (double_of_int (if decide (b = j) then N else 0))) ->
  (0 <=? prob)%float = true -> (prob <=? 1)%float = true ->
  ((thresholds prob).2 <? 1)%float = true ->
  GetXRange xl0 xu0 nhp prob = Returned r nhp' ->
  r !! Z.to_nat i = Some (bound_at (xl nhp) (deltax nhp) (j - 1),
                          bound_at (xl nhp) (deltax nhp) j).
Proof.
  intros Hwf Hfl Hi Hj HN Hrow H0 H1 Hu Hr.
  destruct (thresholds_proper prob H0 H1 Hu) as (Hl0 & Hl1 & Hu0).
  unfold INT_MAX in HN.
  (* the row, as counts *)
  set (cs := <[Z.to_nat j := N]> (replicate (Z.to_nat (nbins nhp)) 0)).
  assert (Hcs : row nhp i = double_of_int <$> cs).
  { apply list_eq. intros b. rewrite list_lookup_fmap.
    destruct (decide (b < Z.to_nat (nbins nhp))%nat) as [Hb|Hb].
    - replace b with (Z.to_nat (Z.of_nat b)) at 1 by lia.
      rewrite Hrow by lia. unfold cs.
      destruct (decide (Z.of_nat b = j)) as [E|E].
      + replace (Z.to_nat j) with b by lia.
        rewrite list_lookup_insert_eq by (rewrite length_replicate; lia). done.
      + rewrite list_lookup_insert_ne by lia.
        rewrite lookup_replicate_2 by lia. done.
    - rewrite !lookup_ge_None_2; [done | |].
      + unfold cs. rewrite length_insert, length_replicate. lia.
      + rewrite wf_row_length by done. lia. }
  assert (Hpos : Forall (fun c => 0 <= c) cs).
  { unfold cs. apply Forall_insert; [apply Forall_replicate; lia | lia]. }
  assert (Hsum : Zsum cs = N).
  { unfold cs. rewrite (Zsum_insert _ _ 0), Zsum_replicate; [lia|].
    apply lookup_replicate_2. lia. }
  (* after normalization *)
  destruct (GetXRange_first_rows xl0 xu0 nhp prob Hwf Hfl) as [_ Heff].
  destruct (Heff r nhp' Hr) as (_ & _ & Hlen & Hrows).
  destruct (Hrows i Hi) as (N' & HN' & Hrow').
  rewrite Hcs, sum_row_counts, Hsum in HN' by (done || unfold INT_MAX; lia).
  rewrite Z.add_0_l in HN'. injection HN' as <-.
  assert (Hlook : forall b, 0 <= b < nbins nhp ->
            row nhp' i !! Z.to_nat b
            = Some (if decide (b = j) then 1%float else 0%float)).
  { intros b Hb. rewrite Hrow', list_lookup_fmap, Hrow by done. simpl.
    case_decide; [by rewrite div_self_int by lia|].
    change 0%float with (double_of_int 0) at 1. by rewrite zero_div_int by lia. }
  assert (Hcross : forall t, (t <? 0)%float = false -> (t <? 1)%float = true ->
            first_above t (row nhp' i) 0%float = Some (Z.to_nat j)).
  { intros t Ht0 Ht1. apply first_above_single; [| |done|done].
    - intros b Hb. replace b with (Z.to_nat (Z.of_nat b)) by lia.
      rewrite Hlook by lia. case_decide; [lia | done].
    - rewrite Hlook by lia. case_decide; [done | lia]. }
  (* the scan *)
  destruct (GetXRange_rows _ _ _ _ _ _ Hwf Hr) as [_ Hscan].
  rewrite (Hscan (Z.to_nat i)) by lia. rewrite Z2Nat.id by lia. f_equal.
  apply injective_projections; simpl.
  - rewrite (scan_lower_Some _ _ _ _ _ _ _ _ _ (Z.to_nat j)).
    + f_equal. lia.
    + apply Hcross; done.
    + intros k Hk. pose proof (Hcross _ Hu0 Hu) as Hc'.
      cbn [thresholds snd] in Hc'. rewrite Hc' in Hk. by injection Hk as <-.
  - rewrite (scan_upper_Some _ _ _ _ _ _ _ _ _ _ (Z.to_nat j)).
    + f_equal. lia.
    + apply Hcross; done.
Qed.

Lemma single_bin_range_witness :
  GetXRange 3 7 (scenario_hist 0 11 0) p02
  = Returned [(4%float, 5%float)] (scenario_hist 0 1 1) /\
  [(4%float, 5%float)] !! Z.to_nat 0
  = Some (bound_at (xl (scenario_hist 0 11 0)) (deltax (scenario_hist 0 11 0)) (5 - 1),
          bound_at (xl (scenario_hist 0 11 0)) (deltax (scenario_hist 0 11 0)) 5).
Proof.
  assert (Hr : GetXRange 3 7 (scenario_hist 0 11 0) p02
               = Returned [(4%float, 5%float)] (scenario_hist 0 1 1))
    by (vm_compute; reflexivity).
  split; [exact Hr|].
  apply (single_bin_range 3 7 (scenario_hist 0 11 0) p02 [(4%float, 5%float)]
           (scenario_hist 0 1 1) 0 5 11).
  - apply wf_scenario_hist.
  - reflexivity.
  - simpl; lia.
  - simpl; lia.
  - unfold INT_MAX; lia.
  - intros b Hb. simpl in Hb.
    assert (b = 0 \/ b = 1 \/ b = 2 \/ b = 3 \/ b = 4 \/ b = 5 \/ b = 6 \/ b = 7
            \/ b = 8 \/ b = 9 \/ b = 10) as Hcases by lia.
    repeat (destruct Hcases as [->|Hcases]; [reflexivity|]). subst b. reflexivity.
  - vm_compute; reflexivity.
  - vm_compute; reflexivity.
  - vm_compute; reflexivity.
  - exact Hr.
Defined.

(** ** Rounding to the nearest bin *)

Lemma shr_1_spec m r s :
  0 <= m ->
  shr_1 {| shr_m := m; shr_r := r; shr_s := s |}
  = {| shr_m := m / 2; shr_r := Z.odd m; shr_s := r || s |}.
Proof.
  intros Hm. rewrite <- Z.div2_div.
  destruct m as [|[p|p|]|p]; try lia; done.
Qed.

Lemma shr_iter_spec n S :
  0 <= S ->
  Nat.iter (Datatypes.S n) shr_1 {| shr_m := S; shr_r := false; shr_s := false |}
  = {| shr_m := S / 2 ^ (Z.of_nat n + 1);
       shr_r := Z.odd (S / 2 ^ Z.of_nat n);
       shr_s := negb (S mod 2 ^ Z.of_nat n =? 0) |}.
Proof.
  intros HS. induction n as [|n IH].
  - cbn [Nat.iter]. rewrite shr_1_spec by done.
    change (2 ^ Z.of_nat 0) with 1. rewrite Z.div_1_r, Z.mod_1_r. done.
  - rewrite Nat.iter_succ, IH, shr_1_spec
      by (apply Z.div_pos; [done | apply Z.pow_pos_nonneg; lia]).
    assert (Hp : 0 < 2 ^ Z.of_nat n) by (apply Z.pow_pos_nonneg; lia).
    assert (Hp1 : 2 ^ (Z.of_nat n + 1) = 2 ^ Z.of_nat n * 2)
      by (rewrite Z.pow_add_r by lia; done).
    f_equal.
    + rewrite Z.div_div by (try apply Z.pow_pos_nonneg; lia).
      f_equal. rewrite Nat2Z.inj_succ, <- Z.add_1_r, (Z.pow_add_r 2 (_ + 1)) by lia.
      done.
    + f_equal. f_equal. f_equal. lia.
    + replace (Z.of_nat (Datatypes.S n)) with (Z.of_nat n + 1) by lia.
      rewrite Hp1, Z.rem_mul_r by lia.
      rewrite Zmod_odd.
      pose proof (Z.mod_pos_bound S (2 ^ Z.of_nat n) Hp).
      destruct (Z.odd (S / 2 ^ Z.of_nat n)); simpl.
      * symmetry. apply negb_true_iff, Z.eqb_neq. lia.
      * f_equal. f_equal. lia.
Qed.

Lemma round_shr n S :
  0 <= S ->
  let mrs := Nat.iter n shr_1 {| shr_m := S; shr_r := false; shr_s := false |} in
  shr_m mrs = S / 2 ^ Z.of_nat n /\
  round_nearest_even (shr_m mrs) (loc_of_shr_record mrs) = nearest S (2 ^ Z.of_nat n).
Proof.
  intros HS. destruct n as [|n]; intros mrs; subst mrs.
  - cbn [Nat.iter shr_m]. change (2 ^ Z.of_nat 0) with 1.
    unfold nearest. rewrite Z.div_1_r, Z.mod_1_r. done.
  - rewrite shr_iter_spec by done. cbn [shr_m].
    replace (Z.of_nat (Datatypes.S n)) with (Z.of_nat n + 1) by lia.
    split; [done|].
    assert (Hp : 0 < 2 ^ Z.of_nat n) by (apply Z.pow_pos_nonneg; lia).
    assert (Hp1 : 2 ^ (Z.of_nat n + 1) = 2 ^ Z.of_nat n * 2)
      by (rewrite Z.pow_add_r by lia; done).
    assert (Hmod : S mod 2 ^ (Z.of_nat n + 1)
                   = S mod 2 ^ Z.of_nat n
                     + 2 ^ Z.of_nat n * (if Z.odd (S / 2 ^ Z.of_nat n) then 1 else 0)).
    { rewrite Hp1, Z.rem_mul_r by lia. by rewrite Zmod_odd. }
    pose proof (Z.mod_pos_bound S (2 ^ Z.of_nat n) Hp) as Hf.
    unfold nearest. rewrite Hmod.
    unfold loc_of_shr_record, round_nearest_even.
    change IntDef.Z.even with Z.even.
    destruct (Z.odd (S / 2 ^ Z.of_nat n)) eqn:Hodd;
      destruct (Z.eqb_spec (S mod 2 ^ Z.of_nat n) 0) as [E|E]; simpl;
      match goal with
      | |- context [?a ?= ?b] => destruct (Z.compare_spec a b)
      end; try lia; done.
Qed.

Lemma nearest_add m k D :
  0 < D -> Z.even k = true -> nearest (m + k * D) D = k + nearest m D.
Proof.
  intros HD Hk. unfold nearest.
  rewrite Z.mod_add, Z.div_add by lia.
  rewrite Z.even_add, Hk.
  destruct (_ ?= _); [|lia|lia].
  destruct (Z.even (m / D)); simpl; lia.
Qed.

Lemma nearest_bounds m D : 0 <= m -> 0 < D -> m / D <= nearest m D <= m / D + 1.
Proof.
  intros Hm HD. unfold nearest.
  destruct (_ ?= _); [destruct (Z.even _)| |]; lia.
Qed.

(** Adding [2^52] to a double below [2^52] and taking it away again leaves
    the nearest integer. *)
Lemma SFadd_sub_two52 m (p : positive) :
  bounded prec emax m (Z.neg p) = true ->
  0 <= nearest (Z.pos m) (2 ^ Z.pos p) <= 2 ^ 52 /\
  SF64sub (SF64add (S754_finite false m (Z.neg p))
                   (S754_finite false 4503599627370496 0))
          (S754_finite false 4503599627370496 0)
  = binary_normalize prec emax (nearest (Z.pos m) (2 ^ Z.pos p)) 0 false.
Proof.
  intros Hb. destruct (bounded_inv m _ Hb) as (Hlo & Hd & _).
  pose proof (digits2_pos_53 m Hd) as Hm.
  set (D := 2 ^ Z.pos p).
  assert (HD : 2 <= D).
  { unfold D. change 2 with (2 ^ 1) at 1. apply Z.pow_le_mono_r; lia. }
  set (c := nearest (Z.pos m) D).
  assert (Hc : 0 <= c <= 2 ^ 52).
  { pose proof (nearest_bounds (Z.pos m) D ltac:(lia) ltac:(lia)) as Hn. fold c in Hn.
    assert (0 <= Z.pos m / D) by (apply Z.div_pos; lia).
    assert (Z.pos m / D < 2 ^ 52) by (apply Z.div_lt_upper_bound; lia).
    lia. }
  split; [done|].
  unfold SF64add, SFadd. change IntDef.Z.min with Z.min.
  rewrite Z.min_l by lia.
  destruct (shl_align_Z m (Z.neg p) (Z.neg p)) as [H1 _].
  destruct (shl_align_Z 4503599627370496 0 (Z.neg p)) as [H2 _].
  rewrite Z.min_l, Z.sub_diag, Z.mul_1_r in H1 by lia.
  rewrite Z.min_r in H2 by lia.
  change (0 - Z.neg p) with (Z.pos p) in H2. fold D in H2.
  cbn [cond_Zopp]. rewrite H1, H2.
  destruct (Z.pos m + 4503599627370496 * D) as [|Sp|Sp] eqn:ES; try lia.
  cbn [binary_normalize]. unfold binary_round.
  assert (HDp : 2 ^ (53 + Z.pos p) = 2 ^ 53 * D /\ 2 ^ (52 + Z.pos p) = 2 ^ 52 * D).
  { unfold D. rewrite !Z.pow_add_r by lia. done. }
  destruct HDp as [HD53 HD52].
  assert (Hds : Z.pos (digits2_pos Sp) = 53 + Z.pos p).
  { apply digits2_pos_unique.
    replace (53 + Z.pos p - 1) with (52 + Z.pos p) by lia. lia. }
  rewrite Hds.
  replace (fexp prec emax (53 + Z.pos p + Z.neg p)) with 0
    by (unfold fexp, SpecFloat.emin, emax, prec; lia).
  assert (Hsh : shl_align Sp (Z.neg p) 0 = (Sp, Z.neg p)) by done.
  rewrite Hsh. unfold binary_round_aux, shr_fexp. cbn [Zdigits2]. rewrite Hds.
  replace (fexp prec emax (53 + Z.pos p + Z.neg p) - Z.neg p) with (Z.pos p)
    by (unfold fexp, SpecFloat.emin, emax, prec; lia).
  cbn [shr shr_record_of_loc]. rewrite iter_pos_nat.
  destruct (round_shr (Pos.to_nat p) (Z.pos Sp) ltac:(lia)) as [_ Hround].
  rewrite positive_nat_Z in Hround. fold D in Hround.
  rewrite Hround. rewrite <- ES.
  rewrite (nearest_add (Z.pos m) 4503599627370496 D) by (lia || done). fold c.
  replace (Z.neg p + Z.pos p) with 0 by lia.
  destruct (Z.eq_dec c (2 ^ 52)) as [E|E].
  - rewrite E. by vm_compute.
  - rewrite (Zdigits2_53 (4503599627370496 + c)) by lia.
    replace (fexp prec emax (53 + 0) - 0) with 0 by done.
    cbn [shr shr_record_of_loc shr_m].
    destruct (4503599627370496 + c) as [|mf|mf] eqn:Emf; try lia.
    change (0 <=? emax - prec) with true. cbv iota.
    unfold SF64sub, SFsub. change IntDef.Z.min with Z.min.
    change (Z.min 0 0) with 0.
    change (shl_align mf 0 0) with (mf, 0).
    change (shl_align 4503599627370496 0 0) with (4503599627370496%positive, 0).
    cbn [cond_Zopp fst]. f_equal. lia.
Qed.

Lemma get_sign_finite x s m e :
  Prim2SF x = S754_finite s m e -> get_sign x = s.
Proof.
  intros H. unfold get_sign, PrimFloat.is_zero.
  rewrite FloatAxioms.eqb_spec, H. change (Prim2SF zero) with (S754_zero false).
  assert (SFeqb (S754_finite s m e) (S754_zero false) = false) as -> by by destruct s.
  rewrite FloatAxioms.ltb_spec, H. change (Prim2SF zero) with (S754_zero false).
  by destruct s.
Qed.

Lemma SFint_shift c :
  Z.pos c < 2 ^ 53 ->
  exists M E, SFint c = S754_finite false M E /\ Z.shiftl (Z.pos M) E = Z.pos c.
Proof.
  intros Hc. destruct (SFint_canonical c Hc) as (Hd & HM & _).
  unfold SFint. set (d := Z.pos (digits2_pos c)) in *.
  eexists _, _. split; [done|].
  rewrite HM. destruct (Z.eq_dec d 53) as [E|E].
  - rewrite E. change (53 - 53) with 0. rewrite Z.shiftl_0_r. simpl. lia.
  - rewrite <- Z.shiftr_opp_r, Z.shiftr_div_pow2 by lia.
    replace (- (d - 53)) with (53 - d) by lia.
    apply Z.div_mul. apply Z.pow_nonzero; lia.
Qed.

Lemma SFltb_two52 m e :
  bounded prec emax m e = true -> 0 <= e ->
  SFltb (S754_finite false m e) (S754_finite false 4503599627370496 0) = false.
Proof.
  intros Hb He. unfold SFltb, SFcompare.
  destruct (Z.compare_spec e 0) as [->|?|?]; [|lia|done].
  destruct (bounded_inv m 0 Hb) as (_ & _ & Hd). specialize (Hd ltac:(lia)).
  pose proof (digits2_pos_bounds m) as [Hlo _]. rewrite Hd in Hlo.
  change (2 ^ (53 - 1)) with 4503599627370496 in Hlo.
  destruct (PosDef.Pos.compare_cont Eq m 4503599627370496) eqn:E;
    [reflexivity | exfalso | reflexivity].
  assert (Hlt : (m < 4503599627370496)%positive) by exact E.
  apply Pos2Z.pos_lt_pos in Hlt. lia.
Qed.

Lemma rint_large x s m e :
  0 <= e -> Prim2SF x = S754_finite s m e -> rint x = x.
Proof.
  intros He H. pose proof (FloatAxioms.Prim2SF_valid x) as Hb. rewrite H in Hb.
  unfold rint. rewrite FloatAxioms.ltb_spec, FloatAxioms.abs_spec, H.
  change (Prim2SF two52) with (S754_finite false 4503599627370496 0).
  cbn [SFabs]. rewrite (SFltb_two52 m e Hb He). done.
Qed.

Lemma rint_small x s m p :
  Prim2SF x = S754_finite s m (Z.neg p) ->
  double_to_int (rint x) = sint (cond_Zopp s (nearest (Z.pos m) (2 ^ Z.pos p))).
Proof.
  intros H. pose proof (FloatAxioms.Prim2SF_valid x) as Hb. rewrite H in Hb.
  change (bounded prec emax m (Z.neg p) = true) in Hb.
  destruct (SFadd_sub_two52 m p Hb) as [Hc Ht].
  set (c := nearest (Z.pos m) (2 ^ Z.pos p)) in *.
  assert (HP : Prim2SF (abs x + two52 - two52)
               = binary_normalize prec emax c 0 false).
  { rewrite FloatAxioms.sub_spec, FloatAxioms.add_spec, FloatAxioms.abs_spec, H.
    exact Ht. }
  assert (Hlt : (abs x <? two52)%float = true).
  { rewrite FloatAxioms.ltb_spec, FloatAxioms.abs_spec, H. done. }
  unfold rint. rewrite Hlt, (get_sign_finite x s m _ H).
  unfold double_to_int.
  destruct c as [|cp|cp] eqn:Ec; try lia.
  - cbn [binary_normalize] in HP.
    destruct s; [rewrite FloatAxioms.opp_spec|]; rewrite HP; done.
  - rewrite binary_normalize_int in HP by lia.
    destruct (SFint_shift cp ltac:(lia)) as (M & E & HS & Hsh).
    rewrite HS in HP.
    destruct s; [rewrite FloatAxioms.opp_spec|]; rewrite HP; cbn [SFopp negb];
      rewrite Hsh; done.
Qed.

(** [(int) rint(x)] is the integer nearest to [x], ties to the even one,
    when that integer is an [int]. *)
Lemma rint_nearest x s m e :
  Prim2SF x = S754_finite s m e ->
  double_to_int (rint x) = sint (cond_Zopp s (nearest_even m e)).
Proof.
  intros H. destruct e as [|p|p].
  - rewrite (rint_large x s m 0 ltac:(lia) H). unfold double_to_int. rewrite H.
    unfold nearest_even. rewrite Z.shiftl_mul_pow2 by lia. by destruct s.
  - rewrite (rint_large x s m (Z.pos p) ltac:(lia) H). unfold double_to_int.
    rewrite H. unfold nearest_even. rewrite Z.shiftl_mul_pow2 by lia. by destruct s.
  - exact (rint_small x s m p H).
Qed.

Lemma rint_zero x s : Prim2SF x = S754_zero s -> double_to_int (rint x) = Some 0.
Proof.
  intros H.
  assert (x = 0%float \/ x = (-0)%float) as [-> | ->]; [|by vm_compute..].
  destruct s; [right | left]; apply Prim2SF_inj; rewrite H; done.
Qed.

Lemma rint_not_finite x :
  Prim2SF x = S754_nan \/ (exists s, Prim2SF x = S754_infinity s) ->
  double_to_int (rint x) = None.
Proof.
  intros H. unfold rint. rewrite FloatAxioms.ltb_spec, FloatAxioms.abs_spec.
  change (Prim2SF two52) with (S754_finite false 4503599627370496 0).
  destruct H as [H|[s H]]; rewrite H; cbn [SFabs]; unfold SFltb, SFcompare;
    unfold double_to_int; by rewrite H.
Qed.

(** X13. The bin of a sample is the integer nearest to the double
    [(val - xl) / deltax], ties going to the even integer, brought into
    [0 .. nbinsm1]; it is undefined exactly when that quotient is a NaN or
    an infinity or its nearest integer is not an [int]. *)
Theorem bin_index_nearest nhp v :
  bin_index nhp v
  = match Prim2SF ((v - xl nhp) / deltax nhp) with
    | S754_zero _ => Some (clamp_bin nhp 0)
    | S754_finite s m e =>
        nbin ← sint (cond_Zopp s (nearest_even m e)); Some (clamp_bin nhp nbin)
    | _ => None
    end.
Proof.
  unfold bin_index.
  destruct (Prim2SF ((v - xl nhp) / deltax nhp)) as [s|s| |s m e] eqn:H.
  - by rewrite (rint_zero _ s H).
  - rewrite rint_not_finite by eauto. done.
  - rewrite rint_not_finite by eauto. done.
  - rewrite (rint_nearest _ s m e H). by destruct (sint _).
Qed.

Example nearest_even_ties :
  nearest_even 5 (-1) = 2 /\ nearest_even 7 (-1) = 4 /\
  nearest_even 9 (-2) = 2 /\ nearest_even 11 (-2) = 3.
Proof. repeat split. Qed.
